(** * Data-Pilot: the pipeline dashboard backend and the Data Pilot API

    A shallow embedding of
      - [pipeline-dashboard/backend/main.py]  (module [Dashboard]),
      - [app/services/auth_service.py], [app/core/error_handlers.py]
        and [app/routers/data.py]             (module [DataPilot]),
    followed by the properties of the two services.

    Conventions.  Python [str] values are Rocq strings (the UTF-8 bytes of
    the text; every character class used below is ASCII, so a non-ASCII
    character is rejected whether it is seen as one code point or as several
    bytes).  Python dictionaries used as maps are [gmap]s; dictionaries used
    as records are Rocq records.  A handler that mutates the module-level
    state and may raise is a function [World -> World * Result A]: the
    mutations made before a [raise] stay in place, as in Python.  Readings of
    the clock, of the random source and of the transport are inputs ([Env]). *)

From Stdlib Require Import ZArith QArith String Ascii List Bool Lia Lqa.
From stdpp Require Import gmap strings list fin_maps.

Local Open Scope string_scope.
Local Open Scope Z_scope.

(** ** JSON values (response bodies and free-form dictionary fields) *)

#[local] Unset Elimination Schemes.
Inductive json : Type :=
| JNull
| JBool (b : bool)
| JInt (z : Z)
| JFloat (q : Q)
| JStr (s : string)
| JArr (l : list json)
| JObj (l : list (string * json)).
#[local] Set Elimination Schemes.

(** [d.get(k)] on a dictionary kept as an association list. *)
Fixpoint assoc_get {A : Type} (k : string) (d : list (string * A)) : option A :=
  match d with
  | [] => None
  | (k', v) :: d' => if String.eqb k k' then Some v else assoc_get k d'
  end.

(** [k in d] *)
Definition assoc_mem {A : Type} (k : string) (d : list (string * A)) : bool :=
  match assoc_get k d with Some _ => true | None => false end.

Definition opt_str (o : option string) : json :=
  match o with Some s => JStr s | None => JNull end.

(** ** Character classes and the anchored patterns of the validators *)

Definition in_range (lo hi c : ascii) : bool :=
  ((N_of_ascii lo <=? N_of_ascii c) && (N_of_ascii c <=? N_of_ascii hi))%N.

Definition is_alnum (c : ascii) : bool :=
  in_range "a" "z" c || in_range "A" "Z" c || in_range "0" "9" c.

(** [$] without [re.MULTILINE]: the end of the string, or just before a
    newline that is the last character. *)
Definition at_dollar (rest : string) : bool :=
  match rest with
  | EmptyString => true
  | String c EmptyString => Ascii.eqb c "010"
  | _ => false
  end.

(** [^cls{n}$] *)
Fixpoint match_exactly (cls : ascii -> bool) (n : nat) (s : string) : bool :=
  match n with
  | O => at_dollar s
  | S n' =>
      match s with
      | EmptyString => false
      | String c s' => cls c && match_exactly cls n' s'
      end
  end.

(** [^cls+$] *)
Fixpoint match_plus (cls : ascii -> bool) (s : string) : bool :=
  match s with
  | EmptyString => false
  | String c s' => cls c && (at_dollar s' || match_plus cls s')
  end.

(** [needle in hay] *)
Fixpoint str_contains (needle hay : string) : bool :=
  String.prefix needle hay ||
  match hay with
  | EmptyString => false
  | String _ hay' => str_contains needle hay'
  end.

(** ** Results of handlers *)

Inductive Result (E A : Type) : Type :=
| Ok (a : A)
| Raise (e : E).
Arguments Ok {E A} a.
Arguments Raise {E A} e.

Definition ST (W E A : Type) : Type := W -> W * Result E A.

Definition ret {W E A} (a : A) : ST W E A := fun w => (w, Ok a).
Definition raise {W E A} (e : E) : ST W E A := fun w => (w, Raise e).
Definition bind {W E A B} (m : ST W E A) (k : A -> ST W E B) : ST W E B :=
  fun w =>
    match m w with
    | (w', Ok a) => k a w'
    | (w', Raise e) => (w', Raise e)
    end.
Definition modify {W E} (f : W -> W) : ST W E unit := fun w => (f w, Ok tt).
Definition gets {W E A} (f : W -> A) : ST W E A := fun w => (w, Ok (f w)).

(** [try: body except <everything> as e: handler e] *)
Definition try_except {W E A} (body : ST W E A) (handler : E -> ST W E A)
  : ST W E A :=
  fun w =>
    match body w with
    | (w', Ok a) => (w', Ok a)
    | (w', Raise e) => handler e w'
    end.

Notation "'let*' x ':=' m 'in' k" := (bind m (fun x => k))
  (at level 10, x binder, k at level 200).
Notation "m ';;;' k" := (bind m (fun _ => k))
  (at level 100, right associativity).

(** * The pipeline dashboard *)

Module Dashboard.

(** ** Data model *)

(** One entry of a session's ["steps"] list. *)
Record Step : Type := mkStep {
  step : string;
  status : string;
  timestamp : string;
  fields : list (string * json)
}.

(** A value of [pipeline_sessions].  [user_id] is [None] when the dictionary
    has no ["user_id"] key (a session made by the state endpoint). *)
Record Session : Type := mkSession {
  session_id : string;
  current_file_id : option string;
  current_step : Z;
  steps : list Step;
  undo_stack : list json;
  redo_stack : list json;
  logs : list json;
  created_at : string;
  user_id : option string
}.

Inductive WebSocket : Type := Socket (handle : nat).

#[global] Instance WebSocket_eq_dec : EqDecision WebSocket.
Proof. solve_decision. Defined.

(** The dictionary that [send_log] serialises and writes to the socket. *)
Record LogEntry : Type := mkLogEntry {
  le_type : string;
  le_message : string;
  le_timestamp : string;
  le_session_id : string
}.

(** What [log_security_event] prints. *)
Record SecurityEvent : Type := mkSecurityEvent {
  se_timestamp : string;
  se_event_type : string;
  se_details : list (string * json);
  se_client_ip : option string
}.

(** The module-level state, with the two output channels. *)
Record World : Type := mkWorld {
  pipeline_sessions : gmap string Session;
  active_connections : gmap string WebSocket;
  rate_limiter : gmap string (list Q);
  stdout : list SecurityEvent;
  wire : list (WebSocket * LogEntry)
}.

Definition initial : World :=
  {| pipeline_sessions := ∅; active_connections := ∅; rate_limiter := ∅;
     stdout := []; wire := [] |}.

(** What a request reads from outside the process. *)
Record Env : Type := mkEnv {
  ev_time : Q;                                   (* time.time() *)
  ev_now : nat -> string;                        (* datetime.now().isoformat(), per call site *)
  ev_uuid_hex : string;                          (* uuid.uuid4().hex *)
  ev_send_text : WebSocket -> LogEntry -> bool;  (* does the write succeed? *)
  ev_exn_text : string                           (* str(e) of a body that is no JSON object *)
}.

Record HTTPException : Type := mkHTTPException {
  exc_status_code : Z;
  exc_detail : string
}.

Definition Handler (A : Type) : Type := ST World HTTPException A.

(** ** Field updates *)

Definition set_sessions (f : gmap string Session -> gmap string Session)
  (w : World) : World :=
  {| pipeline_sessions := f (pipeline_sessions w);
     active_connections := active_connections w;
     rate_limiter := rate_limiter w; stdout := stdout w; wire := wire w |}.

Definition set_connections (f : gmap string WebSocket -> gmap string WebSocket)
  (w : World) : World :=
  {| pipeline_sessions := pipeline_sessions w;
     active_connections := f (active_connections w);
     rate_limiter := rate_limiter w; stdout := stdout w; wire := wire w |}.

Definition set_rate_limiter (f : gmap string (list Q) -> gmap string (list Q))
  (w : World) : World :=
  {| pipeline_sessions := pipeline_sessions w;
     active_connections := active_connections w;
     rate_limiter := f (rate_limiter w); stdout := stdout w; wire := wire w |}.

Definition print (e : SecurityEvent) (w : World) : World :=
  {| pipeline_sessions := pipeline_sessions w;
     active_connections := active_connections w;
     rate_limiter := rate_limiter w; stdout := stdout w ++ [e]; wire := wire w |}.

Definition transmit (ws : WebSocket) (e : LogEntry) (w : World) : World :=
  {| pipeline_sessions := pipeline_sessions w;
     active_connections := active_connections w;
     rate_limiter := rate_limiter w; stdout := stdout w;
     wire := wire w ++ [(ws, e)] |}.

(** [session["steps"].append(step)] *)
Definition steps_append (st : Step) (s : Session) : Session :=
  {| session_id := session_id s; current_file_id := current_file_id s;
     current_step := current_step s; steps := steps s ++ [st];
     undo_stack := undo_stack s; redo_stack := redo_stack s; logs := logs s;
     created_at := created_at s; user_id := user_id s |}.

(** [session["current_file_id"] = file_id] *)
Definition set_current_file_id (fid : string) (s : Session) : Session :=
  {| session_id := session_id s; current_file_id := Some fid;
     current_step := current_step s; steps := steps s;
     undo_stack := undo_stack s; redo_stack := redo_stack s; logs := logs s;
     created_at := created_at s; user_id := user_id s |}.

(** [session["current_step"] = n] *)
Definition set_current_step (n : Z) (s : Session) : Session :=
  {| session_id := session_id s; current_file_id := current_file_id s;
     current_step := n; steps := steps s;
     undo_stack := undo_stack s; redo_stack := redo_stack s; logs := logs s;
     created_at := created_at s; user_id := user_id s |}.

(** ** Configuration *)

Inductive LimitType : Type := upload | api.

Record RateLimit : Type := mkRateLimit { max_requests : Z; window : Z }.

Definition RATE_LIMITS (limit_type : LimitType) : RateLimit :=
  match limit_type with
  | upload => {| max_requests := 5; window := 60 |}
  | api => {| max_requests := 100; window := 60 |}
  end.

Definition session_id_class (c : ascii) : bool := is_alnum c || Ascii.eqb c "-".
Definition file_id_class (c : ascii) : bool :=
  is_alnum c || Ascii.eqb c "_" || Ascii.eqb c "-".

(** ** Validation and logging helpers *)

(** [^[a-zA-Z0-9-]{36}$] *)
Definition validate_session_id (session_id : string) : bool :=
  match_exactly session_id_class 36 session_id.

(** [^[a-zA-Z0-9_-]+$] *)
Definition validate_file_id (file_id : string) : bool :=
  match_plus file_id_class file_id.

Definition log_security_event (now event_type : string)
  (details : list (string * json)) (client_ip : option string) : Handler unit :=
  modify (print {| se_timestamp := now; se_event_type := event_type;
                   se_details := details; se_client_ip := client_ip |}).

(** The dictionary returned by [verify_token]. *)
Record User : Type := mkUser { u_user_id : string; u_token : string }.

(** [verify_token] as written: missing or empty credentials are refused,
    anything else is accepted as the user ["test_user"].  (The
    [HTTPBearer()] dependency that extracts the credentials from the header
    belongs to the framework.) *)
Definition verify_token (credentials : option string) : Handler User :=
  match credentials with
  | Some (String c t) =>
      ret {| u_user_id := "test_user"; u_token := String c t |}
  | _ => raise {| exc_status_code := 401; exc_detail := "Authentication required" |}
  end.

(** ** ConnectionManager *)

Definition disconnect (session_id : string) : Handler unit :=
  modify (set_connections (fun conns =>
    match conns !! session_id with
    | Some _ => delete session_id conns
    | None => conns
    end)).

(** The bare [except:] swallows every failure of the write. *)
Definition send_log (env : Env) (now session_id log_type message : string)
  : Handler unit :=
  let* conns := gets active_connections in
  match conns !! session_id with
  | Some ws =>
      let log_entry := {| le_type := log_type; le_message := message;
                          le_timestamp := now; le_session_id := session_id |} in
      if ev_send_text env ws log_entry
      then modify (transmit ws log_entry)
      else disconnect session_id
  | None => ret tt
  end.

(** [websocket.accept()] is the framework's handshake; it is taken to
    succeed. *)
Definition connect (env : Env) (websocket : WebSocket) (session_id : string)
  : Handler unit :=
  modify (set_connections <[session_id := websocket]>) ;;;
  send_log env (ev_now env 0) session_id "info" "WebSocket connected".

(** ** Endpoints *)

Definition root : Handler json :=
  ret (JObj [("status", JStr "online");
             ("message", JStr "🔄 Data Pipeline Dashboard API is running!");
             ("version", JStr "1.0.0");
             ("endpoints", JObj [
                ("upload", JStr "/api/upload"); ("preview", JStr "/api/preview");
                ("clean", JStr "/api/clean"); ("analyze", JStr "/api/analyze");
                ("visualize", JStr "/api/visualize"); ("model", JStr "/api/model");
                ("report", JStr "/api/report"); ("convert", JStr "/api/convert");
                ("schema", JStr "/api/schema-validate"); ("state", JStr "/api/state");
                ("rollback", JStr "/api/rollback");
                ("websocket", JStr "/ws/logs/{session_id}")])]).

Definition health_check (env : Env) : Handler json :=
  let* sessions := gets pipeline_sessions in
  let* conns := gets active_connections in
  ret (JObj [("status", JStr "healthy");
             ("timestamp", JStr (ev_now env 0));
             ("active_sessions", JInt (Z.of_nat (size sessions)));
             ("active_websockets", JInt (Z.of_nat (size conns)))]).

(** [GET /api/state].  The record is created when the key is absent and the
    stored record is returned. *)
Definition get_pipeline_state (env : Env) (session_id : string)
  : Handler Session :=
  let* sessions := gets pipeline_sessions in
  match sessions !! session_id with
  | Some s => ret s
  | None =>
      let s := {| session_id := session_id; current_file_id := None;
                  current_step := 0; steps := []; undo_stack := [];
                  redo_stack := []; logs := [];
                  created_at := ev_now env 0; user_id := None |} in
      modify (set_sessions <[session_id := s]>) ;;; ret s
  end.

(** [POST /api/security/log]; [body] is [None] when the request body is not
    a JSON object (the [except] branch answers 400).  An ["event"] that is
    not a string, or ["details"] that are not an object, are logged as the
    defaults here. *)
Definition log_security_event_endpoint (env : Env) (client_ip : string)
  (body : option (list (string * json))) (user : User)
  : Handler (Z * json) :=
  match body with
  | Some b =>
      log_security_event (ev_now env 0)
        (match assoc_get "event" b with Some (JStr e) => e | _ => "UNKNOWN" end)
        (match assoc_get "details" b with Some (JObj d) => d | _ => [] end)
        (Some client_ip) ;;;
      ret (200, JObj [("status", JStr "logged")])
  | None => ret (400, JObj [("error", JStr (ev_exn_text env))])
  end.

(** [POST /api/upload].  Inside the [try], only [HTTPException] is raised
    (and re-raised by [except HTTPException: raise]); none of the modelled
    operations raises anything else, so the generic [except Exception]
    branch has no counterpart here. *)
Definition upload_file (env : Env) (client_ip session_id : string) (user : User)
  : Handler json :=
  if negb (validate_session_id session_id) then
    log_security_event (ev_now env 0) "INVALID_SESSION_ID"
      [("session_id", JStr session_id)] (Some client_ip) ;;;
    raise {| exc_status_code := 400; exc_detail := "Invalid session ID format" |}
  else
    let file_id := "file_" ++ String.substring 0 8 (ev_uuid_hex env) in
    log_security_event (ev_now env 1) "FILE_UPLOAD_ATTEMPT"
      [("session_id", JStr session_id); ("file_id", JStr file_id);
       ("user_id", JStr (u_user_id user))] (Some client_ip) ;;;
    modify (set_sessions (fun sessions =>
      match sessions !! session_id with
      | Some _ => sessions
      | None =>
          <[session_id :=
              {| session_id := session_id; current_file_id := Some file_id;
                 current_step := 1; steps := []; undo_stack := [];
                 redo_stack := []; logs := []; created_at := ev_now env 2;
                 user_id := Some (u_user_id user) |}]> sessions
      end)) ;;;
    let step := {| step := "upload"; status := "completed";
                   timestamp := ev_now env 3;
                   fields := [("file_id", JStr file_id);
                              ("details", JStr "Mock file uploaded successfully")] |} in
    modify (set_sessions (alter (steps_append step) session_id)) ;;;
    modify (set_sessions (alter (set_current_file_id file_id) session_id)) ;;;
    modify (set_sessions (alter (set_current_step 1) session_id)) ;;;
    send_log env (ev_now env 4) session_id "success" ("File uploaded: " ++ file_id) ;;;
    log_security_event (ev_now env 5) "FILE_UPLOAD_SUCCESS"
      [("session_id", JStr session_id); ("file_id", JStr file_id)]
      (Some client_ip) ;;;
    ret (JObj [("file_id", JStr file_id); ("status", JStr "success")]).

(** [if session_user and session_user != user.get("user_id")]: a missing
    key and the empty string are both falsy. *)
Definition owned_by_other (session_user : option string) (user : User) : bool :=
  match session_user with
  | Some (String c t) => negb (String.eqb (String c t) (u_user_id user))
  | _ => false
  end.

Definition preview_payload : json :=
  JObj [("columns", JArr [JStr "id"; JStr "name"; JStr "age"; JStr "salary"]);
        ("sample", JArr [JArr [JInt 1; JStr "John Doe"; JInt 30; JInt 50000];
                         JArr [JInt 2; JStr "Jane Smith"; JInt 25; JInt 45000];
                         JArr [JInt 3; JStr "Bob Johnson"; JInt 35; JInt 60000]]);
        ("summary", JObj [("rows", JInt 1000); ("columns", JInt 4);
                          ("missing_values", JInt 15)])].

(** [GET /api/preview] *)
Definition preview_data (env : Env) (client_ip file_id session_id : string)
  (user : User) : Handler json :=
  if negb (validate_file_id file_id) then
    log_security_event (ev_now env 0) "INVALID_FILE_ID"
      [("file_id", JStr file_id)] (Some client_ip) ;;;
    raise {| exc_status_code := 400; exc_detail := "Invalid file ID format" |}
  else if negb (validate_session_id session_id) then
    log_security_event (ev_now env 1) "INVALID_SESSION_ID"
      [("session_id", JStr session_id)] (Some client_ip) ;;;
    raise {| exc_status_code := 400; exc_detail := "Invalid session ID format" |}
  else
    let* sessions := gets pipeline_sessions in
    match sessions !! session_id with
    | Some s =>
        let session_user := user_id s in
        if owned_by_other session_user user then
          log_security_event (ev_now env 2) "UNAUTHORIZED_SESSION_ACCESS"
            [("session_id", JStr session_id);
             ("user_id", JStr (u_user_id user));
             ("session_owner", opt_str session_user)] (Some client_ip) ;;;
          raise {| exc_status_code := 403; exc_detail := "Access denied to session" |}
        else ret tt
    | None => ret tt
    end ;;;
    send_log env (ev_now env 3) session_id "info" ("Previewing file: " ++ file_id) ;;;
    let* sessions := gets pipeline_sessions in
    match sessions !! session_id with
    | Some _ =>
        let step := {| step := "preview"; status := "completed";
                       timestamp := ev_now env 4;
                       fields := [("file_id", JStr file_id);
                                  ("details", JStr "Data preview generated")] |} in
        modify (set_sessions (alter (steps_append step) session_id)) ;;;
        modify (set_sessions (alter (set_current_step 2) session_id))
    | None => ret tt
    end ;;;
    send_log env (ev_now env 5) session_id "success" "Preview completed" ;;;
    ret preview_payload.

(** The seven remaining stage endpoints share one body: a log line, a sleep
    (a suspension point without effect on the state), the step appended to
    a session that exists, a second log line and a canned answer. *)
Definition mock_stage (env : Env) (session_id starting : string)
  (name : string) (extra : list (string * json)) (number : Z)
  (finished : string) (answer : json) : Handler json :=
  send_log env (ev_now env 0) session_id "info" starting ;;;
  let* sessions := gets pipeline_sessions in
  match sessions !! session_id with
  | Some _ =>
      let step := {| step := name; status := "completed";
                     timestamp := ev_now env 1; fields := extra |} in
      modify (set_sessions (alter (steps_append step) session_id)) ;;;
      modify (set_sessions (alter (set_current_step number) session_id))
  | None => ret tt
  end ;;;
  send_log env (ev_now env 2) session_id "success" finished ;;;
  ret answer.

(** [POST /api/clean] *)
Definition clean_data (env : Env) (session_id : string) : Handler json :=
  mock_stage env session_id "Starting data cleaning..." "clean"
    [("action", JStr "fillna");
     ("params", JObj [("method", JStr "mean");
                      ("columns", JArr [JStr "age"; JStr "salary"])]);
     ("details", JStr "Missing values filled with mean")]
    3 "Data cleaning completed"
    (JObj [("status", JStr "success"); ("affected_rows", JInt 15)]).

(** [POST /api/analyze] *)
Definition analyze_data (env : Env) (session_id : string) : Handler json :=
  mock_stage env session_id "Running statistical analysis..." "analyze"
    [("analysis_type", JStr "correlation");
     ("details", JStr "Correlation analysis completed")]
    4 "Analysis completed"
    (JObj [("correlation_matrix",
            JArr [JArr [JFloat 1; JFloat (8 # 10)];
                  JArr [JFloat (8 # 10); JFloat 1]])]).

(** [POST /api/visualize] *)
Definition visualize_data (env : Env) (session_id : string) : Handler json :=
  mock_stage env session_id "Generating visualization..." "visualize"
    [("chart_type", JStr "bar"); ("details", JStr "Bar chart generated")]
    5 "Visualization completed"
    (JObj [("chart_url", JStr "/static/charts/chart_123.png")]).

(** [POST /api/model] *)
Definition train_model (env : Env) (session_id : string) : Handler json :=
  mock_stage env session_id "Training ML model..." "model"
    [("model_type", JStr "RandomForest");
     ("details", JStr "Model trained successfully")]
    6 "Model training completed"
    (JObj [("accuracy", JFloat (95 # 100)); ("model_id", JStr "model_123")]).

(** [POST /api/report] *)
Definition generate_report (env : Env) (session_id : string) : Handler json :=
  mock_stage env session_id "Generating report..." "report"
    [("format", JStr "PDF"); ("details", JStr "PDF report generated")]
    7 "Report generated"
    (JObj [("report_url", JStr "/static/reports/report_123.pdf")]).

(** [POST /api/convert] *)
Definition convert_format (env : Env) (session_id : string) : Handler json :=
  mock_stage env session_id "Converting file format..." "convert"
    [("from_format", JStr "CSV"); ("to_format", JStr "Parquet");
     ("details", JStr "File converted to Parquet")]
    8 "Format conversion completed"
    (JObj [("download_url", JStr "/static/converted/file_123.parquet")]).

(** [POST /api/schema-validate] *)
Definition validate_schema (env : Env) (session_id : string) : Handler json :=
  mock_stage env session_id "Validating schema..." "schema"
    [("schema_type", JStr "JSON"); ("details", JStr "Schema validation passed")]
    9 "Schema validation completed"
    (JObj [("valid", JBool true); ("errors", JArr [])]).

(** ** Requests, routing and the rate limiting middleware *)

(** The HTTP surface.  A [session_id] that is [None] is a missing query
    parameter; the endpoints that declare a default then see ["default"]. *)
Inductive Request : Type :=
| GET_root
| GET_health
| GET_state (session_id : string)
| POST_security_log (credentials : option string)
    (body : option (list (string * json)))
| POST_upload (credentials : option string) (session_id : option string)
| GET_preview (credentials : option string) (file_id : string)
    (session_id : option string)
| POST_clean (session_id : option string)
| POST_analyze (session_id : option string)
| POST_visualize (session_id : option string)
| POST_model (session_id : option string)
| POST_report (session_id : option string)
| POST_convert (session_id : option string)
| POST_schema_validate (session_id : option string).

Definition path (r : Request) : string :=
  match r with
  | GET_root => "/"
  | GET_health => "/health"
  | GET_state _ => "/api/state"
  | POST_security_log _ _ => "/api/security/log"
  | POST_upload _ _ => "/api/upload"
  | GET_preview _ _ _ => "/api/preview"
  | POST_clean _ => "/api/clean"
  | POST_analyze _ => "/api/analyze"
  | POST_visualize _ => "/api/visualize"
  | POST_model _ => "/api/model"
  | POST_report _ => "/api/report"
  | POST_convert _ => "/api/convert"
  | POST_schema_validate _ => "/api/schema-validate"
  end.

Record Response : Type := mkResponse { status_code : Z; content : json }.

Definition step_json (st : Step) : json :=
  JObj ([("step", JStr (step st)); ("status", JStr (status st));
         ("timestamp", JStr (timestamp st))] ++ fields st).

Definition session_json (s : Session) : json :=
  JObj ([("session_id", JStr (session_id s));
         ("current_file_id", opt_str (current_file_id s));
         ("current_step", JInt (current_step s));
         ("steps", JArr (map step_json (steps s)));
         ("undo_stack", JArr (undo_stack s));
         ("redo_stack", JArr (redo_stack s));
         ("logs", JArr (logs s));
         ("created_at", JStr (created_at s))]
        ++ match user_id s with
           | Some u => [("user_id", JStr u)]
           | None => []
           end).

Definition or_default (session_id : option string) : string :=
  default "default" session_id.

(** The framework's part: a returned value is a 200 answer, an
    [HTTPException] is answered with its status and [{"detail": ...}]. *)
Definition respond (h : Handler json) : World -> World * Response :=
  fun w =>
    match h w with
    | (w', Ok body) => (w', {| status_code := 200; content := body |})
    | (w', Raise e) =>
        (w', {| status_code := exc_status_code e;
                content := JObj [("detail", JStr (exc_detail e))] |})
    end.

(** The route table with the dependencies ([verify_token]) resolved before
    the endpoint body runs. *)
Definition endpoint (env : Env) (client_ip : string) (r : Request)
  : World -> World * Response :=
  match r with
  | GET_root => respond root
  | GET_health => respond (health_check env)
  | GET_state sid =>
      respond (let* s := get_pipeline_state env sid in ret (session_json s))
  | POST_security_log cred body =>
      fun w =>
        match (let* user := verify_token cred in
               log_security_event_endpoint env client_ip body user) w with
        | (w', Ok (code, j)) => (w', {| status_code := code; content := j |})
        | (w', Raise e) =>
            (w', {| status_code := exc_status_code e;
                    content := JObj [("detail", JStr (exc_detail e))] |})
        end
  | POST_upload cred sid =>
      respond (let* user := verify_token cred in
               upload_file env client_ip (or_default sid) user)
  | GET_preview cred fid sid =>
      respond (let* user := verify_token cred in
               preview_data env client_ip fid (or_default sid) user)
  | POST_clean sid => respond (clean_data env (or_default sid))
  | POST_analyze sid => respond (analyze_data env (or_default sid))
  | POST_visualize sid => respond (visualize_data env (or_default sid))
  | POST_model sid => respond (train_model env (or_default sid))
  | POST_report sid => respond (generate_report env (or_default sid))
  | POST_convert sid => respond (convert_format env (or_default sid))
  | POST_schema_validate sid => respond (validate_schema env (or_default sid))
  end.

(** [rate_limiter] is a [defaultdict(list)]: a missing address reads as the
    empty list. *)
Definition requests_of (client_ip : string) (w : World) : list Q :=
  default [] (rate_limiter w !! client_ip).

Definition within_window (current_time : Q) (limit_type : LimitType)
  (req_time : Q) : bool :=
  QMicromega.Qlt_bool (current_time - req_time)
    (inject_Z (window (RATE_LIMITS limit_type))).

Definition rate_limiting_middleware (env : Env) (client_ip path : string)
  (call_next : World -> World * Response) : World -> World * Response :=
  fun w =>
    let current_time := ev_time env in
    let limit_type := if str_contains "/upload" path then upload else api in
    let recent :=
      List.filter (within_window current_time limit_type) (requests_of client_ip w) in
    let w1 := set_rate_limiter <[client_ip := recent]> w in
    if (max_requests (RATE_LIMITS limit_type) <=? Z.of_nat (List.length recent))%Z then
      (w1, {| status_code := 429;
              content := JObj [("error", JStr "Rate limit exceeded");
                               ("retry_after",
                                JInt (window (RATE_LIMITS limit_type)))] |})
    else
      call_next (set_rate_limiter <[client_ip := (recent ++ [current_time])%list]> w1).

(** One HTTP exchange; [client] is [request.client.host], when there is
    one.  The two other middlewares (security headers, CORS) only add
    response headers, which [Response] does not carry. *)
Definition app (env : Env) (client : option string) (r : Request)
  : World -> World * Response :=
  let client_ip := default "unknown" client in
  rate_limiting_middleware env client_ip (path r) (endpoint env client_ip r).

(** Everything that can happen to the process: an HTTP exchange, a
    WebSocket being accepted on [/ws/logs/{session_id}], and the handler of
    that socket ending with [WebSocketDisconnect]. *)
Inductive Event : Type :=
| Http (client : option string) (r : Request)
| WsOpen (websocket : WebSocket) (session_id : string)
| WsClosed (session_id : string).

Definition handle (env : Env) (e : Event) (w : World) : World :=
  match e with
  | Http client r => fst (app env client r w)
  | WsOpen ws sid => fst (connect env ws sid w)
  | WsClosed sid => fst (disconnect sid w)
  end.

Inductive reachable : World -> Prop :=
| reachable_initial : reachable initial
| reachable_handle env e w : reachable w -> reachable (handle env e w).

(** Running a list of events, each with its own readings. *)
Fixpoint run (evs : list (Env * Event)) (w : World) : World :=
  match evs with
  | [] => w
  | (env, e) :: evs' => run evs' (handle env e w)
  end.

(** ** The nine stages, for the statements about them *)

Inductive Stage : Type :=
| Upload | Preview | Clean | Analyze | Visualize | Model | Report | Convert
| Schema.

(** The order in which a client is meant to call them. *)
Definition pipeline_order : list Stage :=
  [Upload; Preview; Clean; Analyze; Visualize; Model; Report; Convert; Schema].

(** The endpoint body that serves a stage. *)
Definition call_stage (env : Env) (client_ip file_id : string) (user : User)
  (st : Stage) (session_id : string) : Handler json :=
  match st with
  | Upload => upload_file env client_ip session_id user
  | Preview => preview_data env client_ip file_id session_id user
  | Clean => clean_data env session_id
  | Analyze => analyze_data env session_id
  | Visualize => visualize_data env session_id
  | Model => train_model env session_id
  | Report => generate_report env session_id
  | Convert => convert_format env session_id
  | Schema => validate_schema env session_id
  end.

(** The name the endpoint writes into the step, and the constant it writes
    into [current_step]. *)
Definition stage_name (st : Stage) : string :=
  match st with
  | Upload => "upload" | Preview => "preview" | Clean => "clean"
  | Analyze => "analyze" | Visualize => "visualize" | Model => "model"
  | Report => "report" | Convert => "convert" | Schema => "schema"
  end.

Definition stage_number (st : Stage) : Z :=
  match st with
  | Upload => 1 | Preview => 2 | Clean => 3 | Analyze => 4 | Visualize => 5
  | Model => 6 | Report => 7 | Convert => 8 | Schema => 9
  end.

(** The checks an endpoint body makes before it touches an existing
    session [s]: upload and preview validate their identifiers, preview
    also compares the owner; the other seven check nothing. *)
Definition passes_guards (file_id : string) (user : User) (st : Stage)
  (session_id : string) (s : Session) : bool :=
  match st with
  | Upload => validate_session_id session_id
  | Preview =>
      validate_file_id file_id && validate_session_id session_id
      && negb (owned_by_other (user_id s) user)
  | _ => true
  end.

(** Stage calls made one after the other on one session. *)
Fixpoint call_stages (client_ip file_id : string) (user : User)
  (session_id : string) (calls : list (Env * Stage)) (w : World) : World :=
  match calls with
  | [] => w
  | (env, st) :: calls' =>
      call_stages client_ip file_id user session_id calls'
        (fst (call_stage env client_ip file_id user st session_id w))
  end.

(** The reading of the step log property that asks nothing of the call:
    whatever stage is called on a session that exists, one step is added. *)
Definition every_stage_call_appends : Prop :=
  ∀ env client_ip file_id user st session_id w s,
    pipeline_sessions w !! session_id = Some s →
    ∃ s', pipeline_sessions
            (fst (call_stage env client_ip file_id user st session_id w))
            !! session_id = Some s'
          ∧ List.length (steps s') = S (List.length (steps s)).

(** The constant written by the last of a list of calls. *)
Definition last_number (calls : list (Env * Stage)) (start : Z) : Z :=
  fold_left (fun _ call => stage_number (snd call)) calls start.

(** ** Sample inputs *)

Definition sample_env (t : Q) (transport_up : bool) : Env :=
  {| ev_time := t;
     ev_now := fun _ => "2025-01-01T00:00:00";
     ev_uuid_hex := "0123456789abcdef0123456789abcdef";
     ev_send_text := fun _ _ => transport_up;
     ev_exn_text := "Expecting value" |}.

Definition sample_session_id : string := "123e4567-e89b-12d3-a456-426614174000".

Definition sample_user : User :=
  {| u_user_id := "test_user"; u_token := "token" |}.

(** A session as the upload of another user would have left it. *)
Definition foreign_session : Session :=
  {| session_id := sample_session_id; current_file_id := Some "file_89abcdef";
     current_step := 1;
     steps := [{| step := "upload"; status := "completed";
                  timestamp := "2025-01-01T00:00:00";
                  fields := [("file_id", JStr "file_89abcdef");
                             ("details", JStr "Mock file uploaded successfully")] |}];
     undo_stack := []; redo_stack := []; logs := [];
     created_at := "2025-01-01T00:00:00"; user_id := Some "alice" |}.

(** [n] requests from one address, the [i]-th being [req i] with the
    readings [env i]. *)
Definition burst (client : option string) (env : nat -> Env)
  (req : nat -> Request) (n : nat) : list (Env * Event) :=
  map (fun i => (env i, Http client (req i))) (seq 0 n).

(** A handler that raises nothing but exceptions satisfying [P]. *)
Definition raises_only {A : Type} (P : HTTPException -> Prop) (h : Handler A)
  : Prop :=
  ∀ w e, snd (h w) = Raise e -> P e.

Definition not_429 (e : HTTPException) : Prop := exc_status_code e ≠ 429.

(** The answer of the rate limiter. *)
Definition rate_limit_exceeded (limit_type : LimitType) : Response :=
  {| status_code := 429;
     content := JObj [("error", JStr "Rate limit exceeded");
                      ("retry_after", JInt (window (RATE_LIMITS limit_type)))] |}.

(** ** Vocabulary of the invariants *)

(** A handler whose every run relates the state before to the state
    after. *)
Definition respects {A : Type} (R : relation World) (h : Handler A) : Prop :=
  ∀ w, R w (fst (h w)).

(** Every session of [m] is still in [m'], its steps a prefix of what
    they are now. *)
Definition only_appends (m m' : gmap string Session) : Prop :=
  ∀ sid s, m !! sid = Some s →
    ∃ s', m' !! sid = Some s' ∧ steps s `prefix_of` steps s'.

Definition all_completed (m : gmap string Session) : Prop :=
  ∀ sid s st, m !! sid = Some s → st ∈ steps s → status st = "completed".

(** The three relations between the state before and the state after an
    event that the proofs use. *)
Definition same_rate_limiter (w w' : World) : Prop :=
  rate_limiter w' = rate_limiter w.

Definition appends_only (w w' : World) : Prop :=
  only_appends (pipeline_sessions w) (pipeline_sessions w').

Definition keeps_completed (w w' : World) : Prop :=
  all_completed (pipeline_sessions w) -> all_completed (pipeline_sessions w').

(** ** How one event may change one session *)

(** The constant that goes with a stage name, and the constant of the last
    recorded step ([0] when nothing is recorded). *)
Definition number_of_name (name : string) : Z :=
  if String.eqb name "upload" then 1
  else if String.eqb name "preview" then 2
  else if String.eqb name "clean" then 3
  else if String.eqb name "analyze" then 4
  else if String.eqb name "visualize" then 5
  else if String.eqb name "model" then 6
  else if String.eqb name "report" then 7
  else if String.eqb name "convert" then 8
  else if String.eqb name "schema" then 9
  else 0.

Definition counter_of (recorded : list Step) : Z :=
  match last recorded with
  | Some stp => number_of_name (step stp)
  | None => 0
  end.

(** The four things that can happen to the entry of one session id: nothing;
    the state endpoint creates it; an upload creates it; a stage records a
    step in it. *)
Inductive session_change (sid : string)
  : option Session -> option Session -> Prop :=
| change_none o : session_change sid o o
| change_state now :
    session_change sid None
      (Some {| session_id := sid; current_file_id := None; current_step := 0;
               steps := []; undo_stack := []; redo_stack := []; logs := [];
               created_at := now; user_id := None |})
| change_first_upload now stp fid uid :
    step stp = "upload" -> status stp = "completed" ->
    session_change sid None
      (Some {| session_id := sid; current_file_id := Some fid;
               current_step := 1; steps := [stp]; undo_stack := [];
               redo_stack := []; logs := []; created_at := now;
               user_id := Some uid |})
| change_stage s st stp fid :
    step stp = stage_name st -> status stp = "completed" ->
    (st = Upload ∨ fid = current_file_id s) ->
    session_change sid (Some s)
      (Some {| session_id := session_id s; current_file_id := fid;
               current_step := stage_number st; steps := steps s ++ [stp];
               undo_stack := undo_stack s; redo_stack := redo_stack s;
               logs := logs s; created_at := created_at s;
               user_id := user_id s |}).

(** What holds of the session stored under [sid] in every reachable
    state. *)
Definition session_ok (sid : string) (s : Session) : Prop :=
  session_id s = sid
  ∧ undo_stack s = [] ∧ redo_stack s = [] ∧ logs s = []
  ∧ current_step s = counter_of (steps s)
  ∧ Forall (fun stp => ∃ st, step stp = stage_name st) (steps s).

(** The session id an event names, if it names one. *)
Definition target (e : Event) : string :=
  match e with
  | Http _ (GET_state sid) => sid
  | Http _ (POST_upload _ sid) | Http _ (GET_preview _ _ sid)
  | Http _ (POST_clean sid) | Http _ (POST_analyze sid)
  | Http _ (POST_visualize sid) | Http _ (POST_model sid)
  | Http _ (POST_report sid) | Http _ (POST_convert sid)
  | Http _ (POST_schema_validate sid) => or_default sid
  | Http _ _ => ""
  | WsOpen _ sid | WsClosed sid => sid
  end.

(** All the characters of a string satisfy [cls]. *)
Fixpoint string_forallb (cls : ascii -> bool) (s : string) : bool :=
  match s with
  | EmptyString => true
  | String c s' => cls c && string_forallb cls s'
  end.

Definition newline : string := String "010" EmptyString.

(** The same request with other bearer credentials (the requests that take
    none are left as they are). *)
Definition with_credentials (cred : option string) (r : Request) : Request :=
  match r with
  | POST_security_log _ body => POST_security_log cred body
  | POST_upload _ sid => POST_upload cred sid
  | GET_preview _ fid sid => GET_preview cred fid sid
  | _ => r
  end.


Definition limit_type_of (r : Request) : LimitType :=
  if str_contains "/upload" (path r) then upload else api.

(** ** The validators of names and free text

    These patterns contain characters outside ASCII and [\s], and
    [len(filename)] counts characters: here a [str] is the list of its code
    points. *)

Definition cp_in_range (lo hi c : N) : bool := ((lo <=? c) && (c <=? hi))%N.

Definition cp_alnum (c : N) : bool :=
  cp_in_range 97 122 c || cp_in_range 65 90 c || cp_in_range 48 57 c.

(** [\s] on a [str] pattern: the characters for which [str.isspace()]
    holds. *)
Definition cp_space (c : N) : bool :=
  cp_in_range 9 13 c || cp_in_range 28 32 c
  || existsb (N.eqb c) [133; 160; 5760; 8232; 8233; 8239; 8287; 12288]%N
  || cp_in_range 8192 8202 c.

(** The letters written out in the three Turkish patterns:
    c-cedilla, g-breve, dotless i, o-diaeresis, s-cedilla, u-diaeresis and
    their capitals, with [I] and dotted capital I. *)
Definition turkish_letters : list N :=
  [231; 287; 305; 246; 351; 252; 199; 286; 73; 304; 214; 350; 220]%N.

(** [[a-zA-Z...0-9._\s-]] *)
Definition filename_class (c : N) : bool :=
  cp_alnum c || existsb (N.eqb c) turkish_letters
  || existsb (N.eqb c) [46; 95]%N || cp_space c || N.eqb c 45.

(** The class of the pattern [turkish_text]: letters, digits, [\s] and
    the punctuation . , ; : ! ? ( ) - _ with the two quote characters. *)
Definition turkish_text_class (c : N) : bool :=
  cp_alnum c || existsb (N.eqb c) turkish_letters || cp_space c
  || existsb (N.eqb c) [46; 44; 59; 58; 33; 63; 39; 34; 40; 41; 45; 95]%N.

Definition cp_at_dollar (rest : list N) : bool :=
  match rest with
  | [] => true
  | [c] => N.eqb c 10
  | _ => false
  end.

(** [^cls+$] on code points *)
Fixpoint cp_match_plus (cls : N -> bool) (s : list N) : bool :=
  match s with
  | [] => false
  | c :: s' => cls c && (cp_at_dollar s' || cp_match_plus cls s')
  end.

(** [s.encode('utf-8').decode('utf-8')] raises exactly when [s] holds a
    surrogate code point. *)
Definition utf8_encodable (s : list N) : bool :=
  forallb (fun c => negb (cp_in_range 55296 57343 c)) s.

Definition validate_filename (filename : list N) : bool :=
  if match filename with [] => true | _ => false end
     || (255 <? List.length filename)%nat
  then false
  else if negb (cp_match_plus filename_class filename) then false
  else utf8_encodable filename.

Definition validate_turkish_text (text : list N) : bool :=
  if match text with [] => true | _ => false end then false
  else if negb (cp_match_plus turkish_text_class text) then false
  else utf8_encodable text.

End Dashboard.

(** * The Data Pilot API *)

Module DataPilot.

(** ** [app/core/error_handlers.py] *)

Inductive ExceptionClass : Type :=
| ValidationExceptionClass
| AuthenticationExceptionClass
| AuthorizationExceptionClass
| NotFoundExceptionClass
| DatabaseExceptionClass.

(** What a handler can raise: an [AppException] of one of the subclasses,
    or any other exception (a failure of the database driver, say), known
    here by its text [str(e)] only. *)
Inductive Exception : Type :=
| AppException (cls : ExceptionClass) (message : string) (status_code : Z)
    (details : list (string * json))
| OtherException (text : string).

Definition HTTP_400_BAD_REQUEST : Z := 400.
Definition HTTP_401_UNAUTHORIZED : Z := 401.
Definition HTTP_403_FORBIDDEN : Z := 403.
Definition HTTP_404_NOT_FOUND : Z := 404.
Definition HTTP_422_UNPROCESSABLE_ENTITY : Z := 422.
Definition HTTP_500_INTERNAL_SERVER_ERROR : Z := 500.

Definition ValidationException (message : string)
  (details : list (string * json)) : Exception :=
  AppException ValidationExceptionClass message HTTP_400_BAD_REQUEST details.

Definition AuthenticationException (message : string)
  (details : list (string * json)) : Exception :=
  AppException AuthenticationExceptionClass message HTTP_401_UNAUTHORIZED details.

Definition AuthorizationException (message : string)
  (details : list (string * json)) : Exception :=
  AppException AuthorizationExceptionClass message HTTP_403_FORBIDDEN details.

Definition NotFoundException (message : string)
  (details : list (string * json)) : Exception :=
  AppException NotFoundExceptionClass message HTTP_404_NOT_FOUND details.

Definition DatabaseException (message : string)
  (details : list (string * json)) : Exception :=
  AppException DatabaseExceptionClass message HTTP_500_INTERNAL_SERVER_ERROR details.

(** [str(e)]: [AppException.__init__] passes the message to [Exception]. *)
Definition str (e : Exception) : string :=
  match e with
  | AppException _ message _ _ => message
  | OtherException text => text
  end.

Record JSONResponse : Type := mkJSONResponse { status_code : Z; content : json }.

(** [now] is [datetime.utcnow().isoformat()]. *)
Definition create_error_response (now : string) (status_code : Z)
  (message : string) (details : list (string * json)) : JSONResponse :=
  {| status_code := status_code;
     content :=
       JObj ([("error", JBool true); ("status_code", JInt status_code);
              ("message", JStr message); ("timestamp", JStr (now ++ "Z"))]
             ++ match details with
                | [] => []
                | _ :: _ => [("details", JObj details)]
                end) |}.

Definition app_exception_handler (now : string) (cls : ExceptionClass)
  (message : string) (status_code : Z) (details : list (string * json))
  : JSONResponse :=
  create_error_response now status_code message details.

Definition general_exception_handler (now : string) : JSONResponse :=
  create_error_response now HTTP_500_INTERNAL_SERVER_ERROR
    "An unexpected error occurred" [].

(** The handlers registered in [app/main.py], applied to what an endpoint
    raised. *)
Definition render_exception (now : string) (e : Exception) : JSONResponse :=
  match e with
  | AppException cls message status_code details =>
      app_exception_handler now cls message status_code details
  | OtherException _ => general_exception_handler now
  end.

(** ** Models *)

(** Modelled from the spec: the [User] model ([app/models/user.py] is not
    among the sources); the fields are those the routers and the
    authentication service read. *)
Record User : Type := mkUser {
  user_pk : Z;
  username : string;
  email : string;
  full_name : option string;
  hashed_password : string
}.

(** [app/models/data.py]: a row of the table [user_data]. *)
Record UserData : Type := mkUserData {
  id : Z;
  title : string;
  content_ : string;
  data_type : string;
  user_id : Z;
  created_at : string;
  updated_at : option string
}.

(** The request body of the data endpoints. *)
Record DataInput : Type := mkDataInput {
  in_title : string;
  in_content : string;
  in_data_type : string
}.

(** ** The database session, as far as the data router uses it

    The state is the committed content of [user_data], in row order.
    [commit] either installs the pending change or raises the driver's
    error and leaves the table as it was; [rollback] then has nothing to
    undo. *)
Definition Table : Type := list UserData.

Record DbEnv : Type := mkDbEnv {
  db_now : string;                 (* func.now() on the server *)
  commit_error : option string     (* the text of the error, when commit fails *)
}.

Definition Db (A : Type) : Type := ST Table Exception A.

Definition commit (env : DbEnv) (pending : Table -> Table) : Db unit :=
  match commit_error env with
  | None => modify pending
  | Some text => raise (OtherException text)
  end.

Definition rollback : Db unit := ret tt.

(** The integer primary key given to a new row: one more than the largest
    in the table. *)
Definition next_id (rows : Table) : Z :=
  1 + fold_right Z.max 0 (map id rows).

(** [select(UserData).where(UserData.id == data_id,
                            UserData.user_id == user_id)...first()] *)
Definition select_owned (data_id uid : Z) (rows : Table) : option UserData :=
  List.find (fun r => (id r =? data_id) && (user_id r =? uid)) rows.

(** [select(UserData).where(UserData.id == data_id)...first()] *)
Definition select_by_id (data_id : Z) (rows : Table) : option UserData :=
  List.find (fun r => id r =? data_id) rows.

(** ** [app/routers/data.py] *)

Definition valid_types : list string := ["text"; "note"; "idea"; "task"].

Definition invalid_data_type : Exception :=
  ValidationException "Invalid data type"
    [("data_type", JStr ("Must be one of: " ++ String.concat ", " valid_types))].

(** [if data_type not in valid_types: raise ValidationException(...)] *)
Definition validate_data_type (data_type : string) : Db unit :=
  if existsb (String.eqb data_type) valid_types then ret tt
  else raise invalid_data_type.

(** [POST /data/].  The validation sits inside the [try] whose
    [except Exception] turns whatever was raised into a
    [DatabaseException]. *)
Definition create_data (env : DbEnv) (data : DataInput) (current_user : User)
  : Db UserData :=
  try_except
    (validate_data_type (in_data_type data) ;;;
     let* rows := gets (fun rows : Table => rows) in
     let new_data := {| id := next_id rows; title := in_title data;
                        content_ := in_content data;
                        data_type := in_data_type data;
                        user_id := user_pk current_user;
                        created_at := db_now env; updated_at := None |} in
     commit env (fun rows => (rows ++ [new_data])%list) ;;;
     ret new_data)
    (fun e =>
       rollback ;;;
       raise (DatabaseException "Failed to create data" [("error", JStr (str e))])).

(** [GET /data/] *)
Definition get_user_data (current_user : User) : Db (list UserData) :=
  gets (List.filter (fun r => user_id r =? user_pk current_user)).

(** [GET /data/{data_id}] *)
Definition get_data (data_id : Z) (current_user : User) : Db UserData :=
  let* data := gets (select_owned data_id (user_pk current_user)) in
  match data with
  | None => raise (NotFoundException "Data not found" [("data_id", JInt data_id)])
  | Some d => ret d
  end.

(** [update(UserData).where(id == data_id, user_id == uid).values(...)] *)
Definition update_rows (env : DbEnv) (data_id uid : Z) (data_update : DataInput)
  (rows : Table) : Table :=
  map (fun r =>
         if (id r =? data_id) && (user_id r =? uid)
         then {| id := id r; title := in_title data_update;
                 content_ := in_content data_update;
                 data_type := in_data_type data_update;
                 user_id := user_id r; created_at := created_at r;
                 updated_at := Some (db_now env) |}
         else r) rows.

(** [PUT /data/{data_id}] *)
Definition update_data (env : DbEnv) (data_id : Z) (data_update : DataInput)
  (current_user : User) : Db (option UserData) :=
  let* existing_data := gets (select_owned data_id (user_pk current_user)) in
  match existing_data with
  | None => raise (NotFoundException "Data not found" [("data_id", JInt data_id)])
  | Some _ =>
      try_except
        (validate_data_type (in_data_type data_update) ;;;
         commit env (update_rows env data_id (user_pk current_user) data_update) ;;;
         let* updated_data := gets (select_by_id data_id) in
         ret updated_data)
        (fun e =>
           rollback ;;;
           raise (DatabaseException "Failed to update data"
                    [("data_id", JInt data_id); ("error", JStr (str e))]))
  end.

(** [DELETE /data/{data_id}] *)
Definition delete_data (env : DbEnv) (data_id : Z) (current_user : User)
  : Db json :=
  let* data := gets (select_owned data_id (user_pk current_user)) in
  match data with
  | None => raise (NotFoundException "Data not found" [("data_id", JInt data_id)])
  | Some d =>
      try_except
        (commit env (List.filter (fun r => negb (id r =? id d))) ;;;
         ret (JObj [("message", JStr "Data deleted successfully")]))
        (fun e =>
           rollback ;;;
           raise (DatabaseException "Failed to delete data" [("data_id", JInt data_id)]))
  end.

(** The status of the answer the client receives. *)
Definition answer_status {A : Type} (now : string) (r : Result Exception A) : Z :=
  match r with
  | Ok _ => 200
  | Raise e => status_code (render_exception now e)
  end.

(** The operations of the data router, and the tables they lead to from the
    empty one. *)
Inductive DataOp : Type :=
| Create (data : DataInput)
| Update (data_id : Z) (data_update : DataInput)
| Delete (data_id : Z).

Definition apply_op (env : DbEnv) (current_user : User) (op : DataOp)
  (rows : Table) : Table :=
  match op with
  | Create data => fst (create_data env data current_user rows)
  | Update data_id data_update =>
      fst (update_data env data_id data_update current_user rows)
  | Delete data_id => fst (delete_data env data_id current_user rows)
  end.

Inductive reachable : Table -> Prop :=
| reachable_empty : reachable []
| reachable_apply env u op rows :
    reachable rows -> reachable (apply_op env u op rows).

(** ** [app/config.py] *)

Record Settings : Type := mkSettings {
  SECRET_KEY : string;
  ACCESS_TOKEN_EXPIRE_MINUTES : Z;
  ALGORITHM : string
}.

(** The values used when the environment overrides none of them. *)
Definition default_settings : Settings :=
  {| SECRET_KEY := "super-secret-key"; ACCESS_TOKEN_EXPIRE_MINUTES := 30;
     ALGORITHM := "HS256" |}.

(** ** Tokens

    A claim value is a string or an integer; the claims of a token are a
    dictionary.  The signing library is outside the repository: a token is
    kept as the three segments of its compact form (algorithm of the
    header, claims, signature), and the keyed signature is a function
    [sign] about which nothing is assumed. *)

Inductive claim : Type := CStr (s : string) | CInt (z : Z).

Record JWT : Type := mkJWT {
  jwt_alg : string;
  jwt_claims : gmap string claim;
  jwt_signature : string
}.

Inductive JWTError : Type :=
| BadAlgorithm
| BadSignature
| JWTClaimsError (name : string)
| ExpiredSignatureError.

(** Datetimes and timedeltas are counts of microseconds.  A naive datetime
    is read by [.timestamp()] as local time: [utcoffset] is the offset of
    the server's zone.  [utcnow n] is the [n]-th reading of
    [datetime.utcnow()] during the call. *)
Record Clock : Type := mkClock { utcnow : nat -> Z; utcoffset : Z }.

Definition timedelta_minutes (minutes : Z) : Z := minutes * 60000000.

(** [int(dt.timestamp())]: whole seconds, truncated towards zero. *)
Definition int_timestamp (clock : Clock) (dt : Z) : Z :=
  Z.quot (dt - utcoffset clock) 1000000.

Section Tokens.

Variable settings : Settings.
Variable sign : string -> string -> gmap string claim -> string.

(** [jwt.encode(claims, key, algorithm=...)] *)
Definition jwt_encode (claims : gmap string claim) (key algorithm : string) : JWT :=
  {| jwt_alg := algorithm; jwt_claims := claims;
     jwt_signature := sign key algorithm claims |}.

(** [jwt.decode(token, key, algorithms=[...])] at the time [now] (epoch
    seconds): the signature and the algorithm are checked, then the
    registered claims present in the token ([iat] and [exp] integers, [exp]
    not in the past, [sub] a string). *)
Definition jwt_decode (now : Z) (token : JWT) (key : string)
  (algorithms : list string) : Result JWTError (gmap string claim) :=
  if negb (existsb (String.eqb (jwt_alg token)) algorithms) then Raise BadAlgorithm
  else if negb (String.eqb (jwt_signature token)
                  (sign key (jwt_alg token) (jwt_claims token)))
  then Raise BadSignature
  else
    let claims := jwt_claims token in
    match claims !! "iat" with
    | Some (CStr _) => Raise (JWTClaimsError "iat")
    | _ =>
        match claims !! "exp" with
        | Some (CStr _) => Raise (JWTClaimsError "exp")
        | Some (CInt exp) =>
            if exp <? now then Raise ExpiredSignatureError
            else match claims !! "sub" with
                 | Some (CInt _) => Raise (JWTClaimsError "sub")
                 | _ => Ok claims
                 end
        | None =>
            match claims !! "sub" with
            | Some (CInt _) => Raise (JWTClaimsError "sub")
            | _ => Ok claims
            end
        end
    end.

(** [app/services/auth_service.py].  [expires_delta or timedelta(...)]: an
    absent and a zero timedelta both give the configured default. *)
Definition create_access_token (clock : Clock) (data : gmap string claim)
  (expires_delta : option Z) : JWT * Z :=
  let to_encode := data in
  let expire_delta :=
    match expires_delta with
    | Some d => if d =? 0
                then timedelta_minutes (ACCESS_TOKEN_EXPIRE_MINUTES settings)
                else d
    | None => timedelta_minutes (ACCESS_TOKEN_EXPIRE_MINUTES settings)
    end in
  let expire := utcnow clock 0 + expire_delta in
  let expire_timestamp := int_timestamp clock expire in
  let to_encode := <["exp" := CInt expire_timestamp]> to_encode in
  let to_encode :=
    <["iat" := CInt (int_timestamp clock (utcnow clock 1))]> to_encode in
  let token := jwt_encode to_encode (SECRET_KEY settings) (ALGORITHM settings) in
  (token, expire_timestamp * 1000).

Definition decode_access_token (now : Z) (token : JWT)
  : option (gmap string claim) :=
  match jwt_decode now token (SECRET_KEY settings) [ALGORITHM settings] with
  | Ok payload => Some payload
  | Raise _ => None
  end.

End Tokens.

(** ** Users: [app/schemas/], [app/crud/user_crud.py], the rest of
    [app/services/auth_service.py], [app/routers/auth.py] and
    [app/routers/users.py]

    The state is the table [users], in row order.  What the database does
    at [commit] with a row the table's constraints refuse is an input: the
    commit succeeds, raises [IntegrityError], or fails otherwise. *)

Record UserCreate : Type := mkUserCreate {
  uc_email : string;
  uc_username : string;
  uc_full_name : option string;
  uc_password : string
}.

Record LoginRequest : Type := mkLoginRequest {
  lr_email : string;
  lr_password : string
}.


Record UserInfo : Type := mkUserInfo {
  ui_id : Z;
  ui_username : string;
  ui_email : string;
  ui_full_name : option string
}.

Record Token : Type := mkToken {
  access_token : JWT;
  token_type : string;
  expires_at : Z;
  user : UserInfo
}.

Definition Users : Type := list User.

Inductive CommitOutcome : Type :=
| Committed
| IntegrityError (text : string)
| DriverError (text : string).

Record UserEnv : Type := mkUserEnv {
  user_commit : CommitOutcome;   (* what commit does *)
  salt : string                  (* the salt drawn by the password hasher *)
}.

Definition UsersM (A : Type) : Type := ST Users Exception A.


Definition next_user_id (users : Users) : Z :=
  1 + fold_right Z.max 0 (map user_pk users).

(** [get_user_by_username], [get_user_by_email] *)
Definition get_user_by_username (name : string) : UsersM (option User) :=
  gets (List.find (fun u => String.eqb (username u) name)).

Definition get_user_by_email (mail : string) : UsersM (option User) :=
  gets (List.find (fun u => String.eqb (email u) mail)).

(** [create_user]: only [IntegrityError] is caught. *)
Definition create_user (env : UserEnv) (user_create : UserCreate)
  : UsersM (option User) :=
  let* users := gets (fun users : Users => users) in
  let new_user := {| user_pk := next_user_id users;
                     username := uc_username user_create;
                     email := uc_email user_create;
                     full_name := uc_full_name user_create;
                     hashed_password := uc_password user_create |} in
  match user_commit env with
  | Committed => modify (fun users => (users ++ [new_user])%list) ;;; ret (Some new_user)
  | IntegrityError _ => ret None
  | DriverError text => raise (OtherException text)
  end.

Definition get_user_info_dict (u : User) : UserInfo :=
  {| ui_id := user_pk u; ui_username := username u; ui_email := email u;
     ui_full_name := full_name u |}.

Section Passwords.

(** The password hasher is outside the repository: [bcrypt_hash salt p] is
    what [pwd_context.hash(p)] returns when it draws [salt], and
    [bcrypt_verify p h] is [pwd_context.verify(p, h)]. *)
Variable bcrypt_hash : string -> string -> string.
Variable bcrypt_verify : string -> string -> bool.
Variable settings : Settings.
Variable sign : string -> string -> gmap string claim -> string.

Definition hash_password (env : UserEnv) (password : string) : string :=
  bcrypt_hash (salt env) password.

Definition verify_password (plain_password hashed : string) : bool :=
  bcrypt_verify plain_password hashed.

Definition authenticate_user (mail password : string) : UsersM (option User) :=
  let* found := get_user_by_email mail in
  match found with
  | None => ret None
  | Some u =>
      if verify_password password (hashed_password u) then ret (Some u)
      else ret None
  end.

(** [register_user]: the password of the request is replaced by its hash
    before the row is made. *)
Definition register_user (env : UserEnv) (user_create : UserCreate)
  : UsersM (option User) :=
  let hashed := hash_password env (uc_password user_create) in
  create_user env {| uc_email := uc_email user_create;
                     uc_username := uc_username user_create;
                     uc_full_name := uc_full_name user_create;
                     uc_password := hashed |}.

Definition token_for (clock : Clock) (u : User) : Token :=
  let created :=
    create_access_token settings sign clock {[ "sub" := CStr (email u) ]} None in
  {| access_token := fst created; token_type := "bearer";
     expires_at := snd created; user := get_user_info_dict u |}.

(** [POST /auth/login] *)
Definition login (clock : Clock) (request : LoginRequest) : UsersM Token :=
  let* found := authenticate_user (lr_email request) (lr_password request) in
  match found with
  | None =>
      raise (AuthenticationException "Invalid email or password"
               [("email", JStr (lr_email request))])
  | Some u => ret (token_for clock u)
  end.

(** [POST /auth/register] *)
Definition register (env : UserEnv) (new : UserCreate) : UsersM User :=
  let* existing_user := get_user_by_email (uc_email new) in
  match existing_user with
  | Some _ =>
      raise (ValidationException "Email already registered"
               [("email", JStr (uc_email new))])
  | None =>
      let* created_user := register_user env new in
      match created_user with
      | None =>
          raise (DatabaseException "Failed to create user"
                   [("email", JStr (uc_email new))])
      | Some u => ret u
      end
  end.

(** [POST /auth/refresh] *)
Definition refresh_token (clock : Clock) (current_user : User) : UsersM Token :=
  ret (token_for clock current_user).

End Passwords.





(** ** Sample inputs *)

Definition alice : User :=
  {| user_pk := 1; username := "alice"; email := "a@example.com";
     full_name := None; hashed_password := "$2b$12$a" |}.

Definition bob : User :=
  {| user_pk := 2; username := "bob"; email := "b@example.com";
     full_name := Some "Bob"; hashed_password := "$2b$12$b" |}.

Definition sample_db_env : DbEnv :=
  {| db_now := "2025-01-01 00:00:00"; commit_error := None |}.

Definition sample_note : DataInput :=
  {| in_title := "Test Data"; in_content := "This is test content";
     in_data_type := "note" |}.

Definition sample_video : DataInput :=
  {| in_title := "Test Data"; in_content := "This is test content";
     in_data_type := "video" |}.

(** The table after Alice has created [sample_note]. *)
Definition alice_table : Table :=
  apply_op sample_db_env alice (Create sample_note) [].

Definition sample_clock : Clock :=
  {| utcnow := fun _ => 1700000000000000; utcoffset := 0 |}.

(** A stand-in for the password hasher: the hash is the salt, a dollar
    sign and the password; verification compares what follows the first
    dollar sign. *)
Definition toy_hash (salt password : string) : string :=
  salt ++ "$" ++ password.

Fixpoint after_dollar (h : string) : string :=
  match h with
  | EmptyString => EmptyString
  | String c h' => if Ascii.eqb c "$" then h' else after_dollar h'
  end.

Definition toy_verify (password hashed : string) : bool :=
  String.eqb (after_dollar hashed) password.

Definition sample_user_env : UserEnv :=
  {| user_commit := Committed; salt := "salt" |}.

Definition carol_request : UserCreate :=
  {| uc_email := "c@example.com"; uc_username := "carol";
     uc_full_name := None; uc_password := "Password123!" |}.

End DataPilot.

(** * Properties of the pipeline dashboard *)

Module DashboardFacts.
Import Dashboard.

(** ** Frame rules

    A relation between states that every primitive update respects is
    respected by every handler. *)

Section Frames.

Variable R : relation World.
Context `{!PreOrder R}.

Lemma respects_ret {A} (a : A) : respects R (ret a).
Proof. intros w. reflexivity. Qed.

Lemma respects_raise {A} (e : HTTPException) : respects R (raise (A := A) e).
Proof. intros w. reflexivity. Qed.

Lemma respects_gets {A} (f : World -> A) : respects R (gets f).
Proof. intros w. reflexivity. Qed.

Lemma respects_modify (f : World -> World) :
  (∀ w, R w (f w)) -> respects R (modify f).
Proof. intros Hf w. apply Hf. Qed.

Lemma respects_bind {A B} (m : Handler A) (k : A -> Handler B) :
  respects R m -> (∀ a, respects R (k a)) -> respects R (bind m k).
Proof.
  intros Hm Hk w. unfold bind. specialize (Hm w).
  destruct (m w) as [w' [a | e]]; simpl in *.
  - etransitivity; [exact Hm | apply Hk].
  - exact Hm.
Qed.

Hypothesis R_print : ∀ e w, R w (print e w).
Hypothesis R_transmit : ∀ ws e w, R w (transmit ws e w).
Hypothesis R_connections : ∀ f w, R w (set_connections f w).
Hypothesis R_fresh : ∀ sid s w,
  pipeline_sessions w !! sid = None -> steps s = [] ->
  R w (set_sessions <[sid := s]> w).
Hypothesis R_append : ∀ sid st w,
  status st = "completed" ->
  R w (set_sessions (alter (steps_append st) sid) w).
Hypothesis R_file_id : ∀ sid fid w,
  R w (set_sessions (alter (set_current_file_id fid) sid) w).
Hypothesis R_step : ∀ sid n w,
  R w (set_sessions (alter (set_current_step n) sid) w).

Lemma respects_log_security_event now ty details ip :
  respects R (log_security_event now ty details ip).
Proof. apply respects_modify. intros w. apply R_print. Qed.

Lemma respects_disconnect sid : respects R (disconnect sid).
Proof. apply respects_modify. intros w. apply R_connections. Qed.

Lemma respects_send_log env now sid ty msg :
  respects R (send_log env now sid ty msg).
Proof.
  unfold send_log. apply respects_bind; [apply respects_gets |].
  intros conns. destruct (conns !! sid) as [ws |]; [| apply respects_ret].
  destruct (ev_send_text _ _ _).
  - apply respects_modify. intros w. apply R_transmit.
  - apply respects_disconnect.
Qed.

Lemma respects_connect env ws sid : respects R (connect env ws sid).
Proof.
  unfold connect. apply respects_bind; [| intros; apply respects_send_log].
  apply respects_modify. intros w. apply R_connections.
Qed.

Lemma respects_verify_token cred : respects R (verify_token cred).
Proof.
  destruct cred as [[| c t] |]; simpl;
    solve [apply respects_ret | apply respects_raise].
Qed.

Lemma respects_get_pipeline_state env sid :
  respects R (get_pipeline_state env sid).
Proof.
  intros w. unfold get_pipeline_state, bind, gets, modify, ret. simpl.
  destruct (pipeline_sessions w !! sid) eqn:E; simpl.
  - reflexivity.
  - now apply R_fresh.
Qed.

Lemma respects_upload_file env ip sid user :
  respects R (upload_file env ip sid user).
Proof.
  unfold upload_file. destruct (negb _).
  - apply respects_bind; [apply respects_log_security_event |].
    intros _. apply respects_raise.
  - repeat (apply respects_bind; [| intros _]);
      try apply respects_log_security_event; try apply respects_send_log;
      try apply respects_ret; apply respects_modify; intros w;
      try apply R_append; try apply R_file_id; try apply R_step; try reflexivity.
    destruct (pipeline_sessions w !! sid) eqn:E.
    + replace (set_sessions _ w) with w; [reflexivity |].
      destruct w; unfold set_sessions; simpl in *. now rewrite E.
    + replace (set_sessions _ w)
        with (set_sessions <[sid := {| session_id := sid;
                current_file_id := Some ("file_" ++ String.substring 0 8 (ev_uuid_hex env));
                current_step := 1; steps := []; undo_stack := [];
                redo_stack := []; logs := []; created_at := ev_now env 2;
                user_id := Some (u_user_id user) |}]> w).
      * now apply R_fresh.
      * destruct w; unfold set_sessions; simpl in *. now rewrite E.
Qed.

Lemma respects_preview_data env ip fid sid user :
  respects R (preview_data env ip fid sid user).
Proof.
  unfold preview_data. destruct (negb _).
  { apply respects_bind; [apply respects_log_security_event |].
    intros _. apply respects_raise. }
  destruct (negb _).
  { apply respects_bind; [apply respects_log_security_event |].
    intros _. apply respects_raise. }
  apply respects_bind; [apply respects_gets | intros sessions].
  apply respects_bind.
  { destruct (sessions !! sid) as [s |]; [| apply respects_ret].
    destruct (owned_by_other _ _); [| apply respects_ret].
    apply respects_bind; [apply respects_log_security_event |].
    intros _. apply respects_raise. }
  intros _. apply respects_bind; [apply respects_send_log | intros _].
  apply respects_bind; [apply respects_gets | intros sessions'].
  apply respects_bind.
  { destruct (sessions' !! sid) as [s |]; [| apply respects_ret].
    apply respects_bind; [| intros _]; apply respects_modify; intros w.
    - now apply R_append.
    - apply R_step. }
  intros _. apply respects_bind; [apply respects_send_log | intros _].
  apply respects_ret.
Qed.

Lemma respects_mock_stage env sid starting name extra number finished answer :
  respects R (mock_stage env sid starting name extra number finished answer).
Proof.
  unfold mock_stage.
  apply respects_bind; [apply respects_send_log | intros _].
  apply respects_bind; [apply respects_gets | intros sessions].
  apply respects_bind.
  { destruct (sessions !! sid) as [s |]; [| apply respects_ret].
    apply respects_bind; [| intros _]; apply respects_modify; intros w.
    - now apply R_append.
    - apply R_step. }
  intros _. apply respects_bind; [apply respects_send_log | intros _].
  apply respects_ret.
Qed.

Lemma respects_call_stage env ip fid user st sid :
  respects R (call_stage env ip fid user st sid).
Proof.
  destruct st; simpl;
    solve [apply respects_upload_file | apply respects_preview_data
          | apply respects_mock_stage].
Qed.

Lemma respects_respond (h : Handler json) :
  respects R h -> ∀ w, R w (fst (respond h w)).
Proof.
  intros Hh w. unfold respond. specialize (Hh w).
  now destruct (h w) as [w' [a | e]].
Qed.

Lemma respects_endpoint env ip r w : R w (fst (endpoint env ip r w)).
Proof.
  destruct r; cbn [endpoint].
  - apply respects_respond, respects_ret.
  - apply respects_respond. unfold health_check.
    repeat (apply respects_bind; [apply respects_gets | intros ?]).
    apply respects_ret.
  - apply respects_respond.
    apply respects_bind; [apply respects_get_pipeline_state | intros ?].
    apply respects_ret.
  - assert (H : respects R (let* user := verify_token credentials in
                            log_security_event_endpoint env ip body user)).
    { apply respects_bind; [apply respects_verify_token | intros user].
      unfold log_security_event_endpoint.
      destruct body; [| apply respects_ret].
      apply respects_bind; [apply respects_log_security_event | intros _].
      apply respects_ret. }
    specialize (H w).
    now destruct (bind _ _ w) as [w' [[code j] | e]].
  - apply respects_respond.
    apply respects_bind; [apply respects_verify_token | intros user].
    apply respects_upload_file.
  - apply respects_respond.
    apply respects_bind; [apply respects_verify_token | intros user].
    apply respects_preview_data.
  - apply respects_respond, respects_mock_stage.
  - apply respects_respond, respects_mock_stage.
  - apply respects_respond, respects_mock_stage.
  - apply respects_respond, respects_mock_stage.
  - apply respects_respond, respects_mock_stage.
  - apply respects_respond, respects_mock_stage.
  - apply respects_respond, respects_mock_stage.
Qed.

Hypothesis R_rate_limiter : ∀ f w, R w (set_rate_limiter f w).

Lemma respects_app env client r w : R w (fst (app env client r w)).
Proof.
  unfold app, rate_limiting_middleware.
  destruct (_ <=? _)%Z; simpl.
  - apply R_rate_limiter.
  - etransitivity; [| apply respects_endpoint].
    etransitivity; apply R_rate_limiter.
Qed.

Lemma respects_handle env e w : R w (handle env e w).
Proof.
  destruct e; simpl.
  - apply respects_app.
  - apply respects_connect.
  - apply respects_disconnect.
Qed.

End Frames.

(** ** The three relations are preorders, and every event respects them *)

#[local] Instance same_rate_limiter_preorder : PreOrder same_rate_limiter.
Proof.
  split; [intros w; reflexivity |].
  intros a b c H1 H2. unfold same_rate_limiter in *. congruence.
Qed.

#[local] Instance appends_only_preorder : PreOrder appends_only.
Proof.
  split.
  - intros w sid s H. exists s. split; [exact H | reflexivity].
  - intros a b c H1 H2 sid s H.
    destruct (H1 sid s H) as (s1 & L1 & P1).
    destruct (H2 sid s1 L1) as (s2 & L2 & P2).
    exists s2. split; [exact L2 | etransitivity; eassumption].
Qed.

#[local] Instance keeps_completed_preorder : PreOrder keeps_completed.
Proof.
  split; [intros w H; exact H |].
  intros a b c H1 H2 H. apply H2, H1, H.
Qed.

Lemma lookup_alter_session (f : Session -> Session) (m : gmap string Session)
  sid sid' :
  alter f sid m !! sid' =
  if decide (sid = sid') then f <$> m !! sid' else m !! sid'.
Proof.
  destruct (decide (sid = sid')) as [-> | Hne].
  - apply lookup_alter_eq.
  - now apply lookup_alter_ne.
Qed.

Lemma endpoint_rate_limiter env ip r w :
  rate_limiter (fst (endpoint env ip r w)) = rate_limiter w.
Proof.
  apply (respects_endpoint same_rate_limiter); intros; reflexivity.
Qed.

Lemma handle_appends_only env e w : appends_only w (handle env e w).
Proof.
  apply (respects_handle appends_only);
    try (intros ? ? sid s H; exists s; split; [exact H | reflexivity]);
    try (intros ? ? ? sid s H; exists s; split; [exact H | reflexivity]).
  - intros sid s w0 Hnone _ sid' s' H. exists s'. split; [| reflexivity].
    simpl. rewrite lookup_insert_ne; [exact H | congruence].
  - intros sid st w0 _ sid' s' H. simpl. rewrite lookup_alter_session.
    destruct (decide (sid = sid')); rewrite H; simpl.
    + eexists. split; [reflexivity |]. simpl. now apply prefix_app_r.
    + exists s'. split; reflexivity.
  - intros sid fid w0 sid' s' H. simpl. rewrite lookup_alter_session.
    destruct (decide (sid = sid')); rewrite H; simpl;
      eexists; (split; [reflexivity |]); reflexivity.
  - intros sid n w0 sid' s' H. simpl. rewrite lookup_alter_session.
    destruct (decide (sid = sid')); rewrite H; simpl;
      eexists; (split; [reflexivity |]); reflexivity.
Qed.

Lemma handle_keeps_completed env e w : keeps_completed w (handle env e w).
Proof.
  apply (respects_handle keeps_completed); try (intros ? ? H; exact H);
    try (intros ? ? ? H; exact H).
  - intros sid s w0 Hnone Hs Hall sid' s' st. simpl.
    rewrite lookup_insert. destruct (decide (sid = sid')).
    + intros [= <-]. rewrite Hs. intros Hin. inversion Hin.
    + apply Hall.
  - intros sid st w0 Hst Hall sid' s' st'. simpl. rewrite lookup_alter_session.
    destruct (decide (sid = sid')); [| apply Hall].
    destruct (pipeline_sessions w0 !! sid') as [s0 |] eqn:E; [| discriminate].
    intros [= <-]. simpl. rewrite elem_of_app, list_elem_of_singleton.
    intros [Hin | ->]; [eapply Hall; eassumption | exact Hst].
  - intros sid fid w0 Hall sid' s' st'. simpl. rewrite lookup_alter_session.
    destruct (decide (sid = sid')); [| apply Hall].
    destruct (pipeline_sessions w0 !! sid') as [s0 |] eqn:E; [| discriminate].
    intros [= <-]. simpl. eapply Hall; eassumption.
  - intros sid n w0 Hall sid' s' st'. simpl. rewrite lookup_alter_session.
    destruct (decide (sid = sid')); [| apply Hall].
    destruct (pipeline_sessions w0 !! sid') as [s0 |] eqn:E; [| discriminate].
    intros [= <-]. simpl. eapply Hall; eassumption.
Qed.

Lemma reachable_all_completed w :
  reachable w -> all_completed (pipeline_sessions w).
Proof.
  induction 1 as [| env e w Hw IH].
  - intros sid s st H. simpl in H. now rewrite lookup_empty in H.
  - now apply (handle_keeps_completed env e w).
Qed.

(** ** What the log writer and the stage bodies compute *)

Lemma send_log_cases env now sid ty msg w :
  ∃ w', send_log env now sid ty msg w = (w', Ok tt)
        ∧ pipeline_sessions w' = pipeline_sessions w.
Proof.
  unfold send_log, bind, gets, disconnect, modify, ret. simpl.
  destruct (active_connections w !! sid) as [ws |]; [| now eexists].
  destruct (ev_send_text _ _ _); now eexists.
Qed.

Lemma bind_send_log {B} env now sid ty msg (k : Handler B) w :
  ∃ w', (send_log env now sid ty msg ;;; k) w = k w'
        ∧ pipeline_sessions w' = pipeline_sessions w.
Proof.
  destruct (send_log_cases env now sid ty msg w) as (w' & E & S).
  exists w'. split; [| exact S]. unfold bind. now rewrite E.
Qed.

Lemma mock_stage_present env sid starting name extra number finished answer w s :
  pipeline_sessions w !! sid = Some s ->
  ∃ w', mock_stage env sid starting name extra number finished answer w
        = (w', Ok answer)
      ∧ pipeline_sessions w' =
        alter (set_current_step number) sid
          (alter (steps_append {| step := name; status := "completed";
                                  timestamp := ev_now env 1; fields := extra |})
             sid (pipeline_sessions w)).
Proof.
  intros Hs. unfold mock_stage.
  destruct (bind_send_log env (ev_now env 0) sid "info" starting
              (let* sessions := gets pipeline_sessions in
               match sessions !! sid with
               | Some _ =>
                   modify (set_sessions (alter (steps_append
                     {| step := name; status := "completed";
                        timestamp := ev_now env 1; fields := extra |}) sid)) ;;;
                   modify (set_sessions (alter (set_current_step number) sid))
               | None => ret tt
               end ;;;
               send_log env (ev_now env 2) sid "success" finished ;;;
               ret answer) w) as (w1 & E1 & S1).
  rewrite E1. clear E1.
  unfold bind at 1, gets at 1. rewrite S1, Hs.
  unfold bind at 1. unfold bind at 1. unfold modify at 1 2.
  match goal with
  | |- ∃ w', (send_log ?e ?n ?i ?t ?m ;;; ?k) ?w0 = _ ∧ _ =>
      destruct (bind_send_log e n i t m k w0) as (w2 & E2 & S2)
  end.
  rewrite E2. exists w2. split; [reflexivity |].
  rewrite S2. simpl. now rewrite S1.
Qed.

Ltac step_send_log :=
  match goal with
  | |- context [send_log ?e ?n ?i ?t ?m ?w0] =>
      let w1 := fresh "w" in
      let E := fresh "E" in
      let S := fresh "S" in
      destruct (send_log_cases e n i t m w0) as (w1 & E & S);
      rewrite E; clear E; simpl in S
  end.

Lemma upload_file_accepted env ip sid user w :
  validate_session_id sid = true ->
  let file_id := "file_" ++ String.substring 0 8 (ev_uuid_hex env) in
  ∃ w', upload_file env ip sid user w
        = (w', Ok (JObj [("file_id", JStr file_id); ("status", JStr "success")]))
      ∧ pipeline_sessions w' =
        alter (set_current_step 1) sid
          (alter (set_current_file_id file_id) sid
             (alter (steps_append
                       {| step := "upload"; status := "completed";
                          timestamp := ev_now env 3;
                          fields := [("file_id", JStr file_id);
                                     ("details", JStr "Mock file uploaded successfully")] |})
                sid
                match pipeline_sessions w !! sid with
                | Some _ => pipeline_sessions w
                | None =>
                    <[sid := {| session_id := sid; current_file_id := Some file_id;
                                current_step := 1; steps := []; undo_stack := [];
                                redo_stack := []; logs := [];
                                created_at := ev_now env 2;
                                user_id := Some (u_user_id user) |}]>
                      (pipeline_sessions w)
                end)).
Proof.
  intros Hv file_id. unfold upload_file. rewrite Hv.
  unfold log_security_event, bind, modify, ret. cbn [negb].
  step_send_log. eexists. split; [reflexivity |].
  simpl. now rewrite S.
Qed.

Lemma preview_data_accepted env ip fid sid user w s :
  validate_file_id fid = true ->
  validate_session_id sid = true ->
  pipeline_sessions w !! sid = Some s ->
  owned_by_other (user_id s) user = false ->
  ∃ w', preview_data env ip fid sid user w = (w', Ok preview_payload)
      ∧ pipeline_sessions w' =
        alter (set_current_step 2) sid
          (alter (steps_append
                    {| step := "preview"; status := "completed";
                       timestamp := ev_now env 4;
                       fields := [("file_id", JStr fid);
                                  ("details", JStr "Data preview generated")] |})
             sid (pipeline_sessions w)).
Proof.
  intros Hf Hv Hs Ho. unfold preview_data. rewrite Hf, Hv. cbn [negb].
  unfold bind at 1, gets at 1. rewrite Hs. cbn beta iota. rewrite Ho.
  unfold bind at 1, ret at 1.
  unfold bind at 1. step_send_log.
  unfold bind at 1, gets at 1. rewrite S, Hs.
  unfold bind at 1. unfold bind at 1. unfold modify at 1 2.
  unfold bind at 1. step_send_log.
  eexists. split; [reflexivity |]. now rewrite S0, S.
Qed.

Lemma preview_data_denied env ip fid sid user w s :
  validate_file_id fid = true ->
  validate_session_id sid = true ->
  pipeline_sessions w !! sid = Some s ->
  owned_by_other (user_id s) user = true ->
  preview_data env ip fid sid user w =
  (print {| se_timestamp := ev_now env 2;
            se_event_type := "UNAUTHORIZED_SESSION_ACCESS";
            se_details := [("session_id", JStr sid);
                           ("user_id", JStr (u_user_id user));
                           ("session_owner", opt_str (user_id s))];
            se_client_ip := Some ip |} w,
   Raise {| exc_status_code := 403; exc_detail := "Access denied to session" |}).
Proof.
  intros Hf Hv Hs Ho. unfold preview_data. rewrite Hf, Hv. cbn [negb].
  unfold bind at 1, gets at 1. rewrite Hs. cbn beta iota. rewrite Ho.
  reflexivity.
Qed.

Lemma call_stage_effect env ip fid user st sid w s :
  pipeline_sessions w !! sid = Some s ->
  passes_guards fid user st sid s = true ->
  ∃ stp s',
    pipeline_sessions (fst (call_stage env ip fid user st sid w)) !! sid = Some s'
    ∧ steps s' = (steps s ++ [stp])%list
    ∧ step stp = stage_name st ∧ status stp = "completed"
    ∧ current_step s' = stage_number st
    ∧ user_id s' = user_id s.
Proof.
  intros Hs Hg.
  destruct st; cbn [call_stage passes_guards] in *;
    try (unfold clean_data, analyze_data, visualize_data, train_model,
           generate_report, convert_format, validate_schema;
         match goal with
         | |- context [mock_stage ?e ?i ?a ?n ?x ?k ?b ?j ?w0] =>
             destruct (mock_stage_present e i a n x k b j w0 s Hs) as (w' & E & S)
         end;
         rewrite E; cbn [fst]; rewrite S, !lookup_alter_eq, Hs;
         eexists _, _; split; [reflexivity |]; now repeat split).
  - destruct (upload_file_accepted env ip sid user w Hg) as (w' & E & S).
    rewrite E; cbn [fst]. rewrite S, Hs, !lookup_alter_eq, Hs.
    eexists _, _; split; [reflexivity |]; now repeat split.
  - apply andb_prop in Hg as [Hg Ho]. apply andb_prop in Hg as [Hf Hv].
    apply negb_true_iff in Ho.
    destruct (preview_data_accepted env ip fid sid user w s Hf Hv Hs Ho)
      as (w' & E & S).
    rewrite E; cbn [fst]. rewrite S, !lookup_alter_eq, Hs.
    eexists _, _; split; [reflexivity |]; now repeat split.
Qed.

Lemma call_stages_effect ip fid user sid calls :
  ∀ w s,
    pipeline_sessions w !! sid = Some s ->
    (∀ st s0, user_id s0 = user_id s -> passes_guards fid user st sid s0 = true) ->
    ∃ s', pipeline_sessions (call_stages ip fid user sid calls w) !! sid = Some s'
          ∧ List.length (steps s') = (List.length (steps s) + List.length calls)%nat
          ∧ current_step s' = last_number calls (current_step s).
Proof.
  induction calls as [| [env st] calls IH]; intros w s Hs Hg.
  - exists s. simpl. repeat split; [exact Hs | lia].
  - destruct (call_stage_effect env ip fid user st sid w s Hs (Hg st s eq_refl))
      as (stp & s1 & L1 & St1 & _ & _ & C1 & U1).
    destruct (IH _ s1 L1) as (s' & L' & Len & C').
    { intros st0 s0 Hu. apply Hg. congruence. }
    exists s'. cbn [call_stages]. split; [exact L' |]. split.
    + rewrite Len, St1, length_app. simpl. lia.
    + rewrite C', C1. reflexivity.
Qed.

Lemma passes_guards_stable fid user sid s :
  validate_session_id sid = true ->
  validate_file_id fid = true ->
  owned_by_other (user_id s) user = false ->
  ∀ st s0, user_id s0 = user_id s -> passes_guards fid user st sid s0 = true.
Proof.
  intros Hv Hf Ho st s0 Hu. destruct st; simpl; try reflexivity.
  - exact Hv.
  - now rewrite Hf, Hv, Hu, Ho.
Qed.

(** ** The step log *)

(** C1 (as stated): not every stage call on an existing session adds a
    step.  The session ["default"], created by the state endpoint, exists,
    but the upload endpoint answers 400 for it and leaves it alone. *)
Lemma stage_call_on_default_session_adds_nothing : ¬ every_stage_call_appends.
Proof.
  intros H.
  pose (w := fst (get_pipeline_state (sample_env 0 true) "default" initial)).
  destruct (H (sample_env 0 true) "127.0.0.1" "file_1" sample_user Upload
              "default" w
              {| session_id := "default"; current_file_id := None;
                 current_step := 0; steps := []; undo_stack := [];
                 redo_stack := []; logs := [];
                 created_at := "2025-01-01T00:00:00"; user_id := None |}
              eq_refl) as (s' & L & Len).
  vm_compute in L. injection L as <-. discriminate Len.
Qed.

(** C1 (amended): a stage call that passes the checks of its endpoint body
    adds exactly one step to the existing session and sets [current_step]
    to the constant of the stage, whatever the counter and the steps were;
    the nine stages called in the intended order leave [current_step = k]
    and [k] more steps after the [k]-th call. *)
Theorem stage_call_appends_one_step :
  (∀ env ip fid user st sid w s,
     pipeline_sessions w !! sid = Some s ->
     passes_guards fid user st sid s = true ->
     ∃ s', pipeline_sessions (fst (call_stage env ip fid user st sid w)) !! sid
           = Some s'
           ∧ List.length (steps s') = S (List.length (steps s))
           ∧ current_step s' = stage_number st)
  ∧ (∀ (envs : list Env) ip fid user sid w s (k : nat),
       pipeline_sessions w !! sid = Some s ->
       validate_session_id sid = true ->
       validate_file_id fid = true ->
       owned_by_other (user_id s) user = false ->
       List.length envs = k -> (1 <= k <= 9)%nat ->
       ∃ s', pipeline_sessions
               (call_stages ip fid user sid (zip envs pipeline_order) w) !! sid
             = Some s'
             ∧ current_step s' = Z.of_nat k
             ∧ List.length (steps s') = (List.length (steps s) + k)%nat).
Proof.
  split.
  - intros env ip fid user st sid w s Hs Hg.
    destruct (call_stage_effect env ip fid user st sid w s Hs Hg)
      as (stp & s' & L & St & _ & _ & C & _).
    exists s'. split; [exact L |]. split; [| exact C].
    rewrite St, length_app. simpl. lia.
  - intros envs ip fid user sid w s k Hs Hv Hf Ho Hlen Hk.
    destruct (call_stages_effect ip fid user sid (zip envs pipeline_order) w s Hs
                (passes_guards_stable fid user sid s Hv Hf Ho))
      as (s' & L & Len & C).
    exists s'. split; [exact L |].
    subst k.
    do 10 (destruct envs as [| ? envs]; simpl in Hk; try lia;
           try (split; [rewrite C; reflexivity | rewrite Len; reflexivity])).
Qed.

Lemma stage_call_appends_one_step_witness :
  (∃ s', pipeline_sessions
           (fst (call_stage (sample_env 0 true) "127.0.0.1" "file_1" sample_user
                   Schema sample_session_id
                   (set_sessions <[sample_session_id := foreign_session]> initial)))
           !! sample_session_id = Some s'
         ∧ List.length (steps s') = 2%nat ∧ current_step s' = 9)
  ∧ (∃ s', pipeline_sessions
             (call_stages "127.0.0.1" "file_1" sample_user sample_session_id
                (zip [sample_env 0 true; sample_env 1 true; sample_env 2 true]
                     pipeline_order)
                (fst (get_pipeline_state (sample_env 0 true) sample_session_id
                        initial)))
             !! sample_session_id = Some s'
           ∧ current_step s' = 3 ∧ List.length (steps s') = 3%nat).
Proof.
  destruct stage_call_appends_one_step as [H1 H2]. split.
  - apply (H1 (sample_env 0 true) "127.0.0.1" "file_1" sample_user Schema
              sample_session_id
              (set_sessions <[sample_session_id := foreign_session]> initial)
              foreign_session); reflexivity.
  - apply (H2 [sample_env 0 true; sample_env 1 true; sample_env 2 true]
              "127.0.0.1" "file_1" sample_user sample_session_id
              (fst (get_pipeline_state (sample_env 0 true) sample_session_id initial))
              {| session_id := sample_session_id; current_file_id := None;
                 current_step := 0; steps := []; undo_stack := [];
                 redo_stack := []; logs := [];
                 created_at := "2025-01-01T00:00:00"; user_id := None |}
              3%nat); try reflexivity; lia.
Defined.

(** ** The session store *)

(** C3: for a session id that is not in the store, the first call of the
    state endpoint stores and returns a fresh record ([current_step = 0],
    no steps, empty undo and redo stacks, no current file id); a second
    call returns the same record and changes nothing. *)
Theorem state_endpoint_creates_then_reads env1 env2 sid w :
  pipeline_sessions w !! sid = None ->
  ∃ s w1,
    get_pipeline_state env1 sid w = (w1, Ok s)
    ∧ w1 = set_sessions <[sid := s]> w
    ∧ session_id s = sid ∧ current_step s = 0 ∧ steps s = []
    ∧ undo_stack s = [] ∧ redo_stack s = [] ∧ current_file_id s = None
    ∧ get_pipeline_state env2 sid w1 = (w1, Ok s).
Proof.
  intros Hnone. unfold get_pipeline_state, bind, gets, modify, ret.
  cbn beta iota. rewrite Hnone. eexists _, _. split; [reflexivity |].
  repeat (split; [reflexivity |]).
  cbn [pipeline_sessions set_sessions]. now rewrite lookup_insert_eq.
Qed.

Lemma state_endpoint_creates_then_reads_witness :
  ∃ s w1,
    get_pipeline_state (sample_env 0 true) "default" initial = (w1, Ok s)
    ∧ w1 = set_sessions <["default" := s]> initial
    ∧ session_id s = "default" ∧ current_step s = 0 ∧ steps s = []
    ∧ undo_stack s = [] ∧ redo_stack s = [] ∧ current_file_id s = None
    ∧ get_pipeline_state (sample_env 5 false) "default" w1 = (w1, Ok s).
Proof.
  apply (state_endpoint_creates_then_reads (sample_env 0 true)
           (sample_env 5 false) "default" initial).
  reflexivity.
Defined.

(** C6: an event never removes a session or changes the steps it already
    has (the old sequence is a prefix of the new one), and in every
    reachable state every step of every session has status
    ["completed"]. *)
Theorem steps_append_only_and_completed :
  (∀ env e w sid s,
     pipeline_sessions w !! sid = Some s ->
     ∃ s', pipeline_sessions (handle env e w) !! sid = Some s'
           ∧ steps s `prefix_of` steps s')
  ∧ (∀ w, reachable w ->
       ∀ sid s st, pipeline_sessions w !! sid = Some s -> st ∈ steps s ->
                   status st = "completed").
Proof.
  split.
  - intros env e w sid s Hs. exact (handle_appends_only env e w sid s Hs).
  - intros w Hw. exact (reachable_all_completed w Hw).
Qed.

Lemma steps_append_only_and_completed_witness :
  let e1 := Http (Some "10.0.0.1") (POST_upload (Some "token") (Some sample_session_id)) in
  let e2 := Http (Some "10.0.0.1") (POST_clean (Some sample_session_id)) in
  let w1 := handle (sample_env 0 true) e1 initial in
  (∃ s', pipeline_sessions (handle (sample_env 1 true) e2 w1) !! sample_session_id
         = Some s'
         ∧ [{| step := "upload"; status := "completed";
               timestamp := "2025-01-01T00:00:00";
               fields := [("file_id", JStr "file_01234567");
                          ("details", JStr "Mock file uploaded successfully")] |}]
           `prefix_of` steps s')
  ∧ (∀ sid s st, pipeline_sessions w1 !! sid = Some s -> st ∈ steps s ->
                 status st = "completed").
Proof.
  intros e1 e2 w1. destruct steps_append_only_and_completed as [H1 H2]. split.
  - apply (H1 (sample_env 1 true) e2 w1 sample_session_id
             {| session_id := sample_session_id;
                current_file_id := Some "file_01234567"; current_step := 1;
                steps := [{| step := "upload"; status := "completed";
                             timestamp := "2025-01-01T00:00:00";
                             fields := [("file_id", JStr "file_01234567");
                                        ("details", JStr "Mock file uploaded successfully")] |}];
                undo_stack := []; redo_stack := []; logs := [];
                created_at := "2025-01-01T00:00:00";
                user_id := Some "test_user" |}).
    vm_compute. reflexivity.
  - apply (H2 w1). apply reachable_handle, reachable_initial.
Defined.

(** ** Ownership *)

(** C7: the preview endpoint answers 403, and leaves the sessions as they
    are, when the session has a stored owner other than the caller; clean,
    analyze, visualize, model, report, convert and schema-validate append
    their step to any existing session, whoever owns it and whoever
    calls. *)
Theorem ownership_checked_by_preview_only :
  (∀ env ip fid sid user w s owner,
     validate_file_id fid = true ->
     validate_session_id sid = true ->
     pipeline_sessions w !! sid = Some s ->
     user_id s = Some owner -> owner ≠ "" -> owner ≠ u_user_id user ->
     snd (preview_data env ip fid sid user w)
     = Raise {| exc_status_code := 403; exc_detail := "Access denied to session" |}
     ∧ pipeline_sessions (fst (preview_data env ip fid sid user w))
       = pipeline_sessions w)
  ∧ (∀ env ip fid user st sid w s,
       st ≠ Upload -> st ≠ Preview ->
       pipeline_sessions w !! sid = Some s ->
       ∃ stp s',
         pipeline_sessions (fst (call_stage env ip fid user st sid w)) !! sid
         = Some s'
         ∧ steps s' = (steps s ++ [stp])%list ∧ step stp = stage_name st
         ∧ user_id s' = user_id s).
Proof.
  split.
  - intros env ip fid sid user w s owner Hf Hv Hs Hu Hne Hother.
    assert (Ho : owned_by_other (user_id s) user = true).
    { rewrite Hu. destruct owner as [| c t]; [congruence |].
      cbn [owned_by_other]. apply negb_true_iff, String.eqb_neq. exact Hother. }
    rewrite (preview_data_denied env ip fid sid user w s Hf Hv Hs Ho).
    split; reflexivity.
  - intros env ip fid user st sid w s Hu Hp Hs.
    assert (Hg : passes_guards fid user st sid s = true)
      by (destruct st; simpl; congruence).
    destruct (call_stage_effect env ip fid user st sid w s Hs Hg)
      as (stp & s' & L & St & N & _ & _ & U).
    now exists stp, s'.
Qed.

Lemma ownership_checked_by_preview_only_witness :
  let w := set_sessions <[sample_session_id := foreign_session]> initial in
  (snd (preview_data (sample_env 0 true) "10.0.0.1" "file_89abcdef"
          sample_session_id sample_user w)
   = Raise {| exc_status_code := 403; exc_detail := "Access denied to session" |}
   ∧ pipeline_sessions
       (fst (preview_data (sample_env 0 true) "10.0.0.1" "file_89abcdef"
               sample_session_id sample_user w))
     = pipeline_sessions w)
  ∧ (∃ stp s',
       pipeline_sessions
         (fst (call_stage (sample_env 0 true) "10.0.0.1" "file_89abcdef"
                 sample_user Clean sample_session_id w)) !! sample_session_id
       = Some s'
       ∧ steps s' = (steps foreign_session ++ [stp])%list
       ∧ step stp = "clean" ∧ user_id s' = Some "alice").
Proof.
  intros w. destruct ownership_checked_by_preview_only as [H1 H2]. split.
  - apply (H1 (sample_env 0 true) "10.0.0.1" "file_89abcdef" sample_session_id
              sample_user w foreign_session "alice");
      try reflexivity; discriminate.
  - apply (H2 (sample_env 0 true) "10.0.0.1" "file_89abcdef" sample_user Clean
              sample_session_id w foreign_session);
      try reflexivity; discriminate.
Defined.

(** ** The live log broadcaster *)

(** C9: [send_log] does nothing when no connection is registered for the
    session; when one is registered and the write fails, it removes that
    entry, transmits nothing and returns normally; a [connect] for a
    session that already has a connection puts the new socket in its place
    (and drops the entry altogether if the greeting cannot be written), so
    the number of tracked connections does not grow and the other sessions
    keep theirs. *)
Theorem broadcaster_send_and_connect :
  (∀ env now sid ty msg w,
     active_connections w !! sid = None ->
     send_log env now sid ty msg w = (w, Ok tt))
  ∧ (∀ env now sid ty msg w ws,
       active_connections w !! sid = Some ws ->
       ev_send_text env ws {| le_type := ty; le_message := msg;
                              le_timestamp := now; le_session_id := sid |} = false ->
       send_log env now sid ty msg w = (set_connections (delete sid) w, Ok tt))
  ∧ (∀ env ws1 ws2 sid w,
       active_connections w !! sid = Some ws1 ->
       ∃ w', connect env ws2 sid w = (w', Ok tt)
             ∧ active_connections w' !! sid
               = (if ev_send_text env ws2
                       {| le_type := "info"; le_message := "WebSocket connected";
                          le_timestamp := ev_now env 0; le_session_id := sid |}
                  then Some ws2 else None)
             ∧ (∀ sid', sid' ≠ sid ->
                  active_connections w' !! sid' = active_connections w !! sid')
             ∧ (size (active_connections w') <= size (active_connections w))%nat).
Proof.
  split; [| split].
  - intros env now sid ty msg w Hnone.
    unfold send_log, bind, gets, ret. cbn beta iota. now rewrite Hnone.
  - intros env now sid ty msg w ws Hs Hfail.
    unfold send_log, bind, gets, disconnect, modify. cbn beta iota.
    rewrite Hs, Hfail. unfold set_connections. now rewrite Hs.
  - intros env ws1 ws2 sid w Hs.
    unfold connect, send_log, bind, gets, modify, disconnect.
    cbn [active_connections set_connections]. rewrite lookup_insert_eq.
    destruct (ev_send_text _ _ _).
    + eexists. split; [reflexivity |].
      cbn [active_connections transmit set_connections].
      split; [apply lookup_insert_eq |]. split.
      * intros sid' Hne. now apply lookup_insert_ne.
      * rewrite map_size_insert_Some; [lia | now exists ws1].
    + eexists. split; [reflexivity |]. cbn [active_connections set_connections].
      rewrite lookup_insert_eq. split; [apply lookup_delete_eq |]. split.
      * intros sid' Hne. rewrite lookup_delete_ne by congruence.
        now apply lookup_insert_ne.
      * rewrite delete_insert_eq. rewrite map_size_delete_Some by now exists ws1.
        lia.
Qed.

Lemma broadcaster_send_and_connect_witness :
  let w := set_connections <["s1" := Socket 1]> initial in
  send_log (sample_env 0 true) "2025-01-01T00:00:00" "s2" "info" "hello" w = (w, Ok tt)
  ∧ send_log (sample_env 0 false) "2025-01-01T00:00:00" "s1" "info" "hello" w
    = (set_connections (delete "s1") w, Ok tt)
  ∧ (∃ w', connect (sample_env 0 true) (Socket 2) "s1" w = (w', Ok tt)
           ∧ active_connections w' !! "s1" = Some (Socket 2)
           ∧ (∀ sid', sid' ≠ "s1" ->
                active_connections w' !! sid' = active_connections w !! sid')
           ∧ (size (active_connections w') <= size (active_connections w))%nat).
Proof.
  intros w. destruct broadcaster_send_and_connect as (H1 & H2 & H3).
  split; [| split].
  - apply (H1 (sample_env 0 true) "2025-01-01T00:00:00" "s2" "info" "hello" w).
    reflexivity.
  - apply (H2 (sample_env 0 false) "2025-01-01T00:00:00" "s1" "info" "hello" w
              (Socket 1)); reflexivity.
  - apply (H3 (sample_env 0 true) (Socket 1) (Socket 2) "s1" w). reflexivity.
Defined.

(** ** What the endpoints can raise *)

Section Raises.

Variable P : HTTPException -> Prop.

Lemma raises_ret {A} (a : A) : raises_only P (ret a).
Proof. intros w e H. discriminate H. Qed.

Lemma raises_gets {A} (f : World -> A) : raises_only P (gets f).
Proof. intros w e H. discriminate H. Qed.

Lemma raises_modify (f : World -> World) : raises_only P (modify f).
Proof. intros w e H. discriminate H. Qed.

Lemma raises_raise {A} (e : HTTPException) : P e -> raises_only P (raise (A := A) e).
Proof. intros He w e' H. now injection H as <-. Qed.

Lemma raises_bind {A B} (m : Handler A) (k : A -> Handler B) :
  raises_only P m -> (∀ a, raises_only P (k a)) -> raises_only P (bind m k).
Proof.
  intros Hm Hk w e. unfold bind. specialize (Hm w).
  destruct (m w) as [w' [a | e']]; simpl in *.
  - apply Hk.
  - intros [= <-]. now apply Hm.
Qed.

Lemma raises_send_log env now sid ty msg :
  raises_only P (send_log env now sid ty msg).
Proof.
  intros w e H.
  destruct (send_log_cases env now sid ty msg w) as (w' & E & _).
  rewrite E in H. discriminate H.
Qed.

Lemma raises_mock_stage env sid starting name extra number finished answer :
  raises_only P (mock_stage env sid starting name extra number finished answer).
Proof.
  unfold mock_stage.
  apply raises_bind; [apply raises_send_log | intros _].
  apply raises_bind; [apply raises_gets | intros sessions].
  apply raises_bind.
  { destruct (sessions !! sid); [| apply raises_ret].
    apply raises_bind; [| intros _]; apply raises_modify. }
  intros _. apply raises_bind; [apply raises_send_log | intros _].
  apply raises_ret.
Qed.

Hypothesis P_400 : ∀ d, P {| exc_status_code := 400; exc_detail := d |}.
Hypothesis P_401 : ∀ d, P {| exc_status_code := 401; exc_detail := d |}.
Hypothesis P_403 : ∀ d, P {| exc_status_code := 403; exc_detail := d |}.

Lemma raises_verify_token cred : raises_only P (verify_token cred).
Proof.
  destruct cred as [[| c t] |]; simpl;
    solve [apply raises_ret | apply raises_raise, P_401].
Qed.

Lemma raises_upload_file env ip sid user :
  raises_only P (upload_file env ip sid user).
Proof.
  unfold upload_file, log_security_event. destruct (negb _).
  - apply raises_bind; [apply raises_modify | intros _].
    apply raises_raise, P_400.
  - repeat (apply raises_bind; [| intros _]);
      solve [apply raises_modify | apply raises_send_log | apply raises_ret].
Qed.

Lemma raises_preview_data env ip fid sid user :
  raises_only P (preview_data env ip fid sid user).
Proof.
  unfold preview_data, log_security_event. destruct (negb _).
  { apply raises_bind; [apply raises_modify | intros _].
    apply raises_raise, P_400. }
  destruct (negb _).
  { apply raises_bind; [apply raises_modify | intros _].
    apply raises_raise, P_400. }
  apply raises_bind; [apply raises_gets | intros sessions].
  apply raises_bind.
  { destruct (sessions !! sid) as [s |]; [| apply raises_ret].
    destruct (owned_by_other _ _); [| apply raises_ret].
    apply raises_bind; [apply raises_modify | intros _].
    apply raises_raise, P_403. }
  intros _. apply raises_bind; [apply raises_send_log | intros _].
  apply raises_bind; [apply raises_gets | intros sessions'].
  apply raises_bind.
  { destruct (sessions' !! sid); [| apply raises_ret].
    apply raises_bind; [| intros _]; apply raises_modify. }
  intros _. apply raises_bind; [apply raises_send_log | intros _].
  apply raises_ret.
Qed.

End Raises.

Lemma respond_status (h : Handler json) w :
  raises_only not_429 h -> status_code (snd (respond h w)) ≠ 429.
Proof.
  intros Hh. unfold respond. specialize (Hh w).
  destruct (h w) as [w' [a | e]]; simpl in *; [discriminate |].
  now apply Hh.
Qed.

Lemma endpoint_not_429 env ip r w :
  status_code (snd (endpoint env ip r w)) ≠ 429.
Proof.
  assert (H400 : ∀ d, not_429 {| exc_status_code := 400; exc_detail := d |})
    by (intros d; discriminate).
  assert (H401 : ∀ d, not_429 {| exc_status_code := 401; exc_detail := d |})
    by (intros d; discriminate).
  assert (H403 : ∀ d, not_429 {| exc_status_code := 403; exc_detail := d |})
    by (intros d; discriminate).
  destruct r; cbn [endpoint];
    try (apply respond_status;
         solve [apply raises_ret | apply raises_mock_stage
               | apply raises_bind;
                 [apply raises_verify_token; assumption | intros user];
                 solve [apply raises_upload_file; assumption
                       | apply raises_preview_data; assumption]]).
  - apply respond_status. unfold health_check.
    repeat (apply raises_bind; [apply raises_gets | intros ?]). apply raises_ret.
  - apply respond_status. unfold get_pipeline_state.
    apply raises_bind; [| intros ?; apply raises_ret].
    apply raises_bind; [apply raises_gets | intros sessions].
    destruct (sessions !! session_id0); [apply raises_ret |].
    apply raises_bind; [apply raises_modify | intros _; apply raises_ret].
  - destruct credentials as [[| c t] |]; cbn; try discriminate.
    destruct body; cbn; discriminate.
Qed.

(** ** The rate limiter *)

Lemma within_window_spec t lt x :
  within_window t lt x = true <-> (t - x < 60)%Q.
Proof. unfold within_window. destruct lt; apply QMicromega.Qlt_bool_iff. Qed.

Lemma filter_window_all t lt (l : list Q) :
  Forall (fun x => (t - x < 60)%Q) l -> List.filter (within_window t lt) l = l.
Proof.
  induction 1 as [| x l Hx Hl IH]; [reflexivity |]. simpl.
  apply (within_window_spec t lt) in Hx. now rewrite Hx, IH.
Qed.

Lemma filter_window_none t lt (l : list Q) :
  Forall (fun x => (60 <= t - x)%Q) l -> List.filter (within_window t lt) l = [].
Proof.
  induction 1 as [| x l Hx Hl IH]; [reflexivity |]. simpl.
  destruct (within_window t lt x) eqn:E; [| exact IH].
  apply within_window_spec in E. lra.
Qed.

Lemma requests_of_set ip l w :
  requests_of ip (set_rate_limiter <[ip := l]> w) = l.
Proof. unfold requests_of. simpl. now rewrite lookup_insert_eq. Qed.

Lemma requests_of_endpoint env ip ip' r w :
  requests_of ip' (fst (endpoint env ip r w)) = requests_of ip' w.
Proof. unfold requests_of. now rewrite endpoint_rate_limiter. Qed.

Lemma max_requests_at_least_5 lt : 5 <= max_requests (RATE_LIMITS lt).
Proof. destruct lt; simpl; lia. Qed.

(** A request is let through when fewer than five requests of its address
    are within the window, and its time is recorded. *)
Lemma app_lets_through env client r w (l : list Q) :
  let ip := default "unknown" client in
  List.filter (within_window (ev_time env)
                 (if str_contains "/upload" (path r) then upload else api))
              (requests_of ip w) = l ->
  (List.length l < 5)%nat ->
  status_code (snd (app env client r w)) ≠ 429
  ∧ requests_of ip (fst (app env client r w)) = (l ++ [ev_time env])%list.
Proof.
  intros ip Hl Hlen. unfold app, rate_limiting_middleware. fold ip.
  rewrite Hl.
  pose proof (max_requests_at_least_5
                (if str_contains "/upload" (path r) then upload else api)) as Hm.
  destruct (Z.leb_spec
              (max_requests (RATE_LIMITS
                 (if str_contains "/upload" (path r) then upload else api)))
              (Z.of_nat (List.length l))) as [Hle | Hlt]; [lia |].
  split; [apply endpoint_not_429 |].
  rewrite requests_of_endpoint. apply requests_of_set.
Qed.

(** An upload is refused when five requests of its address are within the
    window, and the list of the address is left as it was filtered. *)
Lemma upload_refused env client cred sid w (l : list Q) :
  let ip := default "unknown" client in
  List.filter (within_window (ev_time env) upload) (requests_of ip w) = l ->
  (5 <= List.length l)%nat ->
  app env client (POST_upload cred sid) w
  = (set_rate_limiter <[ip := l]> w, rate_limit_exceeded upload).
Proof.
  intros ip Hl Hlen. unfold app, rate_limiting_middleware. fold ip.
  change (str_contains "/upload" (path (POST_upload cred sid))) with true.
  cbn iota. rewrite Hl.
  destruct (Z.leb_spec (max_requests (RATE_LIMITS upload))
              (Z.of_nat (List.length l))) as [Hle | Hlt]; [reflexivity |].
  simpl in Hlt. lia.
Qed.

Lemma run_app evs1 evs2 w : run (evs1 ++ evs2) w = run evs2 (run evs1 w).
Proof.
  revert w. induction evs1 as [| [env e] evs1 IH]; intros w; [reflexivity |].
  simpl. apply IH.
Qed.

Lemma burst_S client env req n :
  burst client env req (S n)
  = (burst client env req n ++ [(env n, Http client (req n))])%list.
Proof. unfold burst. now rewrite seq_S, map_app. Qed.

(** Up to five requests that all fall within one window are all let
    through and all recorded. *)
Lemma burst_recorded client env req w n :
  let ip := default "unknown" client in
  requests_of ip w = [] ->
  (n <= 5)%nat ->
  (∀ i j, (i <= j < n)%nat -> (ev_time (env j) - ev_time (env i) < 60)%Q) ->
  requests_of ip (run (burst client env req n) w)
  = map (fun i => ev_time (env i)) (seq 0 n)
  ∧ (∀ i, (i < n)%nat ->
       status_code (snd (app (env i) client (req i)
                           (run (burst client env req i) w))) ≠ 429).
Proof.
  intros ip Hw. induction n as [| n IH]; intros Hn Ht.
  - split; [exact Hw | intros i Hi; lia].
  - destruct IH as [IH1 IH2]; [lia | intros i j Hij; apply Ht; lia |].
    assert (Hf : List.filter
                   (within_window (ev_time (env n))
                      (if str_contains "/upload" (path (req n)) then upload else api))
                   (requests_of ip (run (burst client env req n) w))
                 = map (fun i => ev_time (env i)) (seq 0 n)).
    { rewrite IH1. apply filter_window_all. apply Forall_map, Forall_forall.
      intros i Hi. apply elem_of_seq in Hi. apply Ht. lia. }
    destruct (app_lets_through (env n) client (req n)
                (run (burst client env req n) w) _ Hf) as [Hs Hr].
    { rewrite length_map, length_seq. lia. }
    split.
    + rewrite burst_S, run_app. cbn [run handle]. fold ip in Hr. rewrite Hr.
      now rewrite seq_S, map_app.
    + intros i Hi. destruct (decide (i = n)) as [-> | Hne]; [exact Hs |].
      apply IH2. lia.
Qed.

Lemma monotone_chain (t : nat -> Q) n :
  (∀ i, (i < n)%nat -> (t i <= t (S i))%Q) ->
  ∀ i j, (i <= j <= n)%nat -> (t i <= t j)%Q.
Proof.
  intros Hm i j. induction j as [| j IH]; intros Hij.
  - assert (i = 0%nat) as -> by lia. apply Qle_refl.
  - destruct (decide (i = S j)) as [-> | Hne]; [apply Qle_refl |].
    apply Qle_trans with (t j); [apply IH; lia | apply Hm; lia].
Qed.

(** Five requests of any kind within one window, then an upload. *)
Lemma five_then_upload client (env : nat -> Env) (req : nat -> Request)
  cred sid w :
  let ip := default "unknown" client in
  let t := fun i => ev_time (env i) in
  requests_of ip w = [] ->
  (∀ i, (i < 5)%nat -> (t i <= t (S i))%Q) ->
  (t 5%nat - t 0%nat < 60)%Q ->
  let w5 := run (burst client env req 5) w in
  (∀ i, (i < 5)%nat ->
     status_code (snd (app (env i) client (req i)
                         (run (burst client env req i) w))) ≠ 429)
  ∧ requests_of ip w5 = [t 0; t 1; t 2; t 3; t 4]%nat
  ∧ app (env 5%nat) client (POST_upload cred sid) w5
    = (set_rate_limiter <[ip := [t 0; t 1; t 2; t 3; t 4]%nat]> w5,
       rate_limit_exceeded upload).
Proof.
  intros ip t Hw Hm Hwin w5.
  pose proof (monotone_chain t 5 Hm) as Hc.
  destruct (burst_recorded client env req w 5 Hw) as [Hr Hs]; [lia | |].
  { intros i j Hij. pose proof (Hc 0 i ltac:(lia))%nat.
    pose proof (Hc j 5 ltac:(lia))%nat. unfold t in *. lra. }
  assert (Hr' : requests_of (default "unknown" client)
                  (run (burst client env req 5) w)
                = [t 0; t 1; t 2; t 3; t 4]%nat) by exact Hr.
  split; [exact Hs |]. split; [exact Hr' |].
  apply upload_refused; [| simpl; lia].
  unfold w5. rewrite Hr'. apply filter_window_all.
  repeat constructor;
    match goal with
    | |- (_ - ?x < _)%Q =>
        match x with
        | t ?i => pose proof (Hc 0%nat i ltac:(lia)); unfold t in *; lra
        end
    end.
Qed.

(** C4: with five uploads allowed per 60 seconds, the sixth upload of an
    address within 60 seconds of the first is answered 429 with ["error"]
    and ["retry_after"] (the first five are not); an upload made once the
    five are 60 seconds old or older is let through, the old times having
    been dropped from the list before it is counted. *)
Theorem upload_rate_limit client (env : nat -> Env)
  (cred sid : nat -> option string) w :
  let ip := default "unknown" client in
  let t := fun i => ev_time (env i) in
  let req := fun i => POST_upload (cred i) (sid i) in
  requests_of ip w = [] ->
  (∀ i, (i < 5)%nat -> (t i <= t (S i))%Q) ->
  (t 5%nat - t 0%nat < 60)%Q ->
  (60 <= t 6%nat - t 4%nat)%Q ->
  let w5 := run (burst client env req 5) w in
  let w6 := fst (app (env 5%nat) client (req 5%nat) w5) in
  (∀ i, (i < 5)%nat ->
     status_code (snd (app (env i) client (req i)
                         (run (burst client env req i) w))) ≠ 429)
  ∧ snd (app (env 5%nat) client (req 5%nat) w5)
    = {| status_code := 429;
         content := JObj [("error", JStr "Rate limit exceeded");
                          ("retry_after", JInt 60)] |}
  ∧ status_code (snd (app (env 6%nat) client (req 6%nat) w6)) ≠ 429
  ∧ requests_of ip (fst (app (env 6%nat) client (req 6%nat) w6)) = [t 6%nat].
Proof.
  intros ip t req Hw Hm Hwin Hlate w5 w6.
  destruct (five_then_upload client env req (cred 5%nat) (sid 5%nat) w Hw Hm Hwin)
    as (H5 & Hr & H6).
  change (app (env 5%nat) client (req 5%nat) w5
          = (set_rate_limiter
               <[default "unknown" client := [t 0; t 1; t 2; t 3; t 4]%nat]> w5,
             rate_limit_exceeded upload)) in H6.
  split; [exact H5 |]. split; [now rewrite H6 |].
  pose proof (monotone_chain t 5 Hm) as Hc.
  apply (app_lets_through (env 6%nat) client (req 6%nat) w6 []); [| simpl; lia].
  unfold w6. rewrite H6. cbn [fst]. rewrite requests_of_set.
  apply filter_window_none.
  repeat constructor;
    match goal with
    | |- (_ <= _ - ?x)%Q =>
        match x with
        | t ?i => pose proof (Hc i 4%nat ltac:(lia)); unfold t in *; lra
        end
    end.
Qed.

Lemma upload_rate_limit_witness :
  let env := fun i : nat =>
    sample_env (if (i <? 6)%nat then inject_Z (Z.of_nat i) else 100) true in
  let req := fun _ : nat => POST_upload (Some "token") (Some sample_session_id) in
  let w5 := run (burst (Some "10.0.0.1") env req 5) initial in
  let w6 := fst (app (env 5%nat) (Some "10.0.0.1") (req 5%nat) w5) in
  (∀ i, (i < 5)%nat ->
     status_code (snd (app (env i) (Some "10.0.0.1") (req i)
                         (run (burst (Some "10.0.0.1") env req i) initial))) ≠ 429)
  ∧ snd (app (env 5%nat) (Some "10.0.0.1") (req 5%nat) w5)
    = {| status_code := 429;
         content := JObj [("error", JStr "Rate limit exceeded");
                          ("retry_after", JInt 60)] |}
  ∧ status_code (snd (app (env 6%nat) (Some "10.0.0.1") (req 6%nat) w6)) ≠ 429
  ∧ requests_of "10.0.0.1" (fst (app (env 6%nat) (Some "10.0.0.1") (req 6%nat) w6))
    = [100%Q].
Proof.
  intros env req w5 w6.
  apply (upload_rate_limit (Some "10.0.0.1") env
           (fun _ => Some "token") (fun _ => Some sample_session_id) initial).
  - reflexivity.
  - intros i Hi.
    do 5 (destruct i as [| i]; [vm_compute; discriminate |]). lia.
  - vm_compute. reflexivity.
  - vm_compute. discriminate.
Defined.



End DashboardFacts.

(** * Properties of the Data Pilot API *)

Module DataPilotFacts.
Import DataPilot.

(** ** Primary keys *)

Lemma next_id_above (rows : Table) r : In r rows -> id r < next_id rows.
Proof.
  unfold next_id. induction rows as [| r' rows IH]; simpl; [tauto |].
  intros [-> | Hin]; [lia |]. specialize (IH Hin). lia.
Qed.

Lemma map_id_update_rows env data_id uid upd rows :
  map id (update_rows env data_id uid upd rows) = map id rows.
Proof.
  unfold update_rows. rewrite map_map. apply map_ext.
  intros r. now destruct (_ && _).
Qed.

Lemma NoDup_map_filter {A B} (f : A -> B) (p : A -> bool) (l : list A) :
  List.NoDup (map f l) -> List.NoDup (map f (List.filter p l)).
Proof.
  induction l as [| a l IH]; simpl; [trivial |].
  intros H. inversion H as [| ? ? Hnotin Hnd]; subst.
  destruct (p a); simpl; [| now apply IH].
  constructor; [| now apply IH].
  intros Hin. apply Hnotin. apply in_map_iff in Hin as (x & Hx & Hin).
  apply in_map_iff. exists x. split; [exact Hx |].
  now apply filter_In in Hin as [Hin _].
Qed.

Lemma NoDup_map_inj {A B} (f : A -> B) (l : list A) x y :
  List.NoDup (map f l) -> In x l -> In y l -> f x = f y -> x = y.
Proof.
  induction l as [| a l IH]; simpl; [tauto |].
  intros H Hx Hy Hf. inversion H as [| ? ? Hnotin Hnd]; subst.
  destruct Hx as [-> | Hx], Hy as [-> | Hy]; trivial.
  - exfalso. apply Hnotin. rewrite Hf. now apply in_map.
  - exfalso. apply Hnotin. rewrite <- Hf. now apply in_map.
  - now apply IH.
Qed.

Lemma create_data_table env data u rows :
  fst (create_data env data u rows) = rows
  ∨ ∃ new_data, id new_data = next_id rows
                ∧ fst (create_data env data u rows) = (rows ++ [new_data])%list.
Proof.
  unfold create_data, try_except, bind, validate_data_type, commit, rollback,
    gets, modify, ret, raise.
  destruct (existsb _ _); [| now left].
  destruct (commit_error env); [now left |].
  right. eexists. split; [| reflexivity]. reflexivity.
Qed.

Lemma update_data_table env data_id upd u rows :
  fst (update_data env data_id upd u rows) = rows
  ∨ fst (update_data env data_id upd u rows)
    = update_rows env data_id (user_pk u) upd rows.
Proof.
  unfold update_data, try_except, bind, validate_data_type, commit, rollback,
    gets, modify, ret, raise.
  destruct (select_owned _ _ _); [| now left].
  destruct (existsb _ _); [| now left].
  destruct (commit_error env); [now left | now right].
Qed.

Lemma delete_data_table env data_id u rows :
  fst (delete_data env data_id u rows) = rows
  ∨ ∃ p, fst (delete_data env data_id u rows) = List.filter p rows.
Proof.
  unfold delete_data, try_except, bind, commit, rollback, gets, modify, ret,
    raise.
  destruct (select_owned _ _ _); [| now left].
  destruct (commit_error env); [now left |].
  right. eexists. reflexivity.
Qed.

(** The primary key is unique in every table the router can produce. *)
Lemma reachable_pk_unique rows : reachable rows -> List.NoDup (map id rows).
Proof.
  induction 1 as [| env u op rows Hr IH]; [constructor |].
  destruct op as [data | data_id upd | data_id]; cbn [apply_op].
  - destruct (create_data_table env data u rows) as [-> | (n & Hid & ->)];
      [exact IH |].
    rewrite map_app. simpl. apply List.NoDup_app; [exact IH | |].
    + constructor; [intros [] | constructor].
    + intros x Hx [<- | []].
      apply in_map_iff in Hx as (r & Hr' & Hin).
      apply next_id_above in Hin. lia.
  - destruct (update_data_table env data_id upd u rows) as [-> | ->];
      [exact IH |].
    now rewrite map_id_update_rows.
  - destruct (delete_data_table env data_id u rows) as [-> | (p & ->)];
      [exact IH |].
    now apply NoDup_map_filter.
Qed.


(** ** Ownership of data items *)



(** ** Validation of the data type *)

(** C2 (what the code does): a data type outside the four allowed ones
    makes [create_data], and [update_data] on an item of the caller, raise
    the [ValidationException] inside their own [try]; the [except Exception]
    of that [try] turns it into a [DatabaseException], so that the answer is
    500 and not 400 or 422.  The table is not changed. *)
Theorem invalid_data_type_is_answered_500 env data (u : User) rows now :
  existsb (String.eqb (in_data_type data)) valid_types = false ->
  create_data env data u rows
  = (rows, Raise (DatabaseException "Failed to create data"
                    [("error", JStr "Invalid data type")]))
  ∧ answer_status now (snd (create_data env data u rows)) = 500
  ∧ ∀ data_id existing,
      select_owned data_id (user_pk u) rows = Some existing ->
      update_data env data_id data u rows
      = (rows, Raise (DatabaseException "Failed to update data"
                        [("data_id", JInt data_id);
                         ("error", JStr "Invalid data type")]))
      ∧ answer_status now (snd (update_data env data_id data u rows)) = 500.
Proof.
  intros Hbad.
  assert (Hc : create_data env data u rows
               = (rows, Raise (DatabaseException "Failed to create data"
                                 [("error", JStr "Invalid data type")]))).
  { unfold create_data, try_except, bind, validate_data_type.
    rewrite Hbad. reflexivity. }
  split; [exact Hc |]. split; [now rewrite Hc |].
  intros data_id existing Hsel.
  assert (Hu : update_data env data_id data u rows
               = (rows, Raise (DatabaseException "Failed to update data"
                                 [("data_id", JInt data_id);
                                  ("error", JStr "Invalid data type")]))).
  { unfold update_data, try_except, bind, gets, validate_data_type.
    cbn beta iota. rewrite Hsel, Hbad. reflexivity. }
  split; [exact Hu | now rewrite Hu].
Qed.

Lemma invalid_data_type_is_answered_500_witness :
  create_data sample_db_env sample_video alice alice_table
  = (alice_table, Raise (DatabaseException "Failed to create data"
                           [("error", JStr "Invalid data type")]))
  ∧ answer_status "2025-01-01T00:00:00"
      (snd (create_data sample_db_env sample_video alice alice_table)) = 500
  ∧ ∀ data_id existing,
      select_owned data_id (user_pk alice) alice_table = Some existing ->
      update_data sample_db_env data_id sample_video alice alice_table
      = (alice_table, Raise (DatabaseException "Failed to update data"
                               [("data_id", JInt data_id);
                                ("error", JStr "Invalid data type")]))
      ∧ answer_status "2025-01-01T00:00:00"
          (snd (update_data sample_db_env data_id sample_video alice alice_table))
        = 500.
Proof.
  apply (invalid_data_type_is_answered_500 sample_db_env sample_video alice
           alice_table "2025-01-01T00:00:00").
  reflexivity.
Defined.

(** What the validation raises, taken alone, would be answered 400. *)
Example validation_exception_alone_is_400 :
  validate_data_type "video" [] = ([], Raise invalid_data_type)
  ∧ answer_status (A := unit) "2025-01-01T00:00:00" (Raise invalid_data_type) = 400.
Proof. split; reflexivity. Qed.

(** The same request with an allowed type, for comparison: the item is
    stored and returned. *)
Example create_note_is_stored :
  create_data sample_db_env sample_note alice []
  = ([{| id := 1; title := "Test Data"; content_ := "This is test content";
         data_type := "note"; user_id := 1;
         created_at := "2025-01-01 00:00:00"; updated_at := None |}],
     Ok {| id := 1; title := "Test Data"; content_ := "This is test content";
           data_type := "note"; user_id := 1;
           created_at := "2025-01-01 00:00:00"; updated_at := None |}).
Proof. reflexivity. Qed.

(** ** Access tokens *)

(** C5: a token made for [{"sub": e}] and decoded with the same settings
    before it expires gives back claims whose ["sub"] is [e] and whose
    ["exp"] and ["iat"] are integers (whole seconds); the expiry handed to
    the client with the token is the ["exp"] claim times 1000. *)
Theorem access_token_round_trip settings sign clock (e : string) now :
  let created :=
    create_access_token settings sign clock {[ "sub" := CStr e ]} None in
  let exp :=
    int_timestamp clock
      (utcnow clock 0 + timedelta_minutes (ACCESS_TOKEN_EXPIRE_MINUTES settings)) in
  let iat := int_timestamp clock (utcnow clock 1) in
  now <= exp ->
  ∃ payload,
    decode_access_token settings sign now (fst created) = Some payload
    ∧ payload !! "sub" = Some (CStr e)
    ∧ payload !! "exp" = Some (CInt exp)
    ∧ payload !! "iat" = Some (CInt iat)
    ∧ snd created = exp * 1000.
Proof.
  intros created exp iat Hnow.
  exists (<["iat" := CInt iat]> (<["exp" := CInt exp]> {[ "sub" := CStr e ]})).
  assert (Hiat : (<["iat" := CInt iat]>
                    (<["exp" := CInt exp]> ({[ "sub" := CStr e ]} : gmap string claim)))
                 !! "iat" = Some (CInt iat)) by apply lookup_insert_eq.
  assert (Hexp : (<["iat" := CInt iat]>
                    (<["exp" := CInt exp]> ({[ "sub" := CStr e ]} : gmap string claim)))
                 !! "exp" = Some (CInt exp)).
  { rewrite lookup_insert_ne by discriminate. apply lookup_insert_eq. }
  assert (Hsub : (<["iat" := CInt iat]>
                    (<["exp" := CInt exp]> ({[ "sub" := CStr e ]} : gmap string claim)))
                 !! "sub" = Some (CStr e)).
  { rewrite !lookup_insert_ne by discriminate. apply lookup_singleton_eq. }
  split; [| now repeat split].
  unfold decode_access_token, jwt_decode, created, create_access_token,
    jwt_encode.
  cbn [fst jwt_alg jwt_claims jwt_signature existsb].
  rewrite !String.eqb_refl. cbn [orb negb].
  fold exp iat. rewrite Hiat, Hexp, Hsub.
  destruct (Z.ltb_spec exp now) as [Hlt | _]; [lia | reflexivity].
Qed.

Lemma access_token_round_trip_witness :
  ∃ payload,
    decode_access_token default_settings (fun key _ _ => key) 1700000000
      (fst (create_access_token default_settings (fun key _ _ => key)
              sample_clock {[ "sub" := CStr "a@example.com" ]} None))
    = Some payload
    ∧ payload !! "sub" = Some (CStr "a@example.com")
    ∧ payload !! "exp" = Some (CInt 1700001800)
    ∧ payload !! "iat" = Some (CInt 1700000000)
    ∧ snd (create_access_token default_settings (fun key _ _ => key)
             sample_clock {[ "sub" := CStr "a@example.com" ]} None)
      = 1700001800 * 1000.
Proof.
  apply (access_token_round_trip default_settings (fun key _ _ => key)
           sample_clock "a@example.com" 1700000000).
  vm_compute. discriminate.
Defined.

End DataPilotFacts.

(** * Further properties of the pipeline dashboard *)

Module DashboardMore.
Import Dashboard DashboardFacts.

(** ** The sessions after each endpoint body *)

Lemma mock_stage_absent env sid starting name extra number finished answer w :
  pipeline_sessions w !! sid = None ->
  ∃ w', mock_stage env sid starting name extra number finished answer w
        = (w', Ok answer)
      ∧ pipeline_sessions w' = pipeline_sessions w.
Proof.
  intros Hs. unfold mock_stage.
  unfold bind at 1. step_send_log.
  unfold bind at 1, gets at 1. rewrite S, Hs.
  unfold bind at 1, ret at 1.
  unfold bind at 1. step_send_log.
  eexists. split; [reflexivity |]. now rewrite S0.
Qed.

Lemma upload_file_refused env ip sid user w :
  validate_session_id sid = false ->
  upload_file env ip sid user w
  = (print {| se_timestamp := ev_now env 0;
              se_event_type := "INVALID_SESSION_ID";
              se_details := [("session_id", JStr sid)];
              se_client_ip := Some ip |} w,
     Raise {| exc_status_code := 400; exc_detail := "Invalid session ID format" |}).
Proof. intros Hv. unfold upload_file. rewrite Hv. reflexivity. Qed.

Lemma preview_data_bad_file_id env ip fid sid user w :
  validate_file_id fid = false ->
  preview_data env ip fid sid user w
  = (print {| se_timestamp := ev_now env 0;
              se_event_type := "INVALID_FILE_ID";
              se_details := [("file_id", JStr fid)];
              se_client_ip := Some ip |} w,
     Raise {| exc_status_code := 400; exc_detail := "Invalid file ID format" |}).
Proof. intros Hf. unfold preview_data. rewrite Hf. reflexivity. Qed.

Lemma preview_data_bad_session_id env ip fid sid user w :
  validate_file_id fid = true ->
  validate_session_id sid = false ->
  preview_data env ip fid sid user w
  = (print {| se_timestamp := ev_now env 1;
              se_event_type := "INVALID_SESSION_ID";
              se_details := [("session_id", JStr sid)];
              se_client_ip := Some ip |} w,
     Raise {| exc_status_code := 400; exc_detail := "Invalid session ID format" |}).
Proof. intros Hf Hv. unfold preview_data. rewrite Hf, Hv. reflexivity. Qed.

Lemma preview_data_absent env ip fid sid user w :
  validate_file_id fid = true ->
  validate_session_id sid = true ->
  pipeline_sessions w !! sid = None ->
  ∃ w', preview_data env ip fid sid user w = (w', Ok preview_payload)
      ∧ pipeline_sessions w' = pipeline_sessions w.
Proof.
  intros Hf Hv Hs. unfold preview_data. rewrite Hf, Hv. cbn [negb].
  unfold bind at 1, gets at 1. rewrite Hs. cbn beta iota.
  unfold bind at 1, ret at 1.
  unfold bind at 1. step_send_log.
  unfold bind at 1, gets at 1. rewrite S, Hs.
  unfold bind at 1, ret at 1.
  unfold bind at 1. step_send_log.
  eexists. split; [reflexivity |]. now rewrite S0.
Qed.

Lemma fst_respond (h : Handler json) w : fst (respond h w) = fst (h w).
Proof. unfold respond. now destruct (h w) as [w' [a | e]]. Qed.

Lemma verify_token_cases cred w :
  verify_token cred w
  = (w, Raise {| exc_status_code := 401; exc_detail := "Authentication required" |})
  ∨ ∃ c t, cred = Some (String c t)
           ∧ verify_token cred w
             = (w, Ok {| u_user_id := "test_user"; u_token := String c t |}).
Proof.
  destruct cred as [[| c t] |]; [now left | | now left].
  right. now exists c, t.
Qed.

(** A stage body changes the entry of its own session id only, and in one
    of the four ways. *)
Lemma call_stage_change env ip fid user st sid w :
  (∀ sid', sid' ≠ sid ->
     pipeline_sessions (fst (call_stage env ip fid user st sid w)) !! sid'
     = pipeline_sessions w !! sid')
  ∧ session_change sid (pipeline_sessions w !! sid)
      (pipeline_sessions (fst (call_stage env ip fid user st sid w)) !! sid).
Proof.
  assert (Hmock : ∀ starting name extra number finished answer,
            (∃ st0, name = stage_name st0 ∧ number = stage_number st0) ->
            (∀ sid', sid' ≠ sid ->
               pipeline_sessions
                 (fst (mock_stage env sid starting name extra number finished
                         answer w)) !! sid'
               = pipeline_sessions w !! sid')
            ∧ session_change sid (pipeline_sessions w !! sid)
                (pipeline_sessions
                   (fst (mock_stage env sid starting name extra number finished
                           answer w)) !! sid)).
  { intros starting name extra number finished answer (st0 & -> & ->).
    destruct (pipeline_sessions w !! sid) as [s |] eqn:Hs.
    - destruct (mock_stage_present env sid starting (stage_name st0) extra
                  (stage_number st0) finished answer w s Hs) as (w' & E & S).
      rewrite E. cbn [fst]. rewrite S. split.
      + intros sid' Hne. now rewrite !lookup_alter_ne by congruence.
      + rewrite !lookup_alter_eq, Hs. cbn.
        apply (change_stage sid s st0); [reflexivity | reflexivity | now right].
    - destruct (mock_stage_absent env sid starting (stage_name st0) extra
                  (stage_number st0) finished answer w Hs) as (w' & E & S).
      rewrite E. cbn [fst]. rewrite S, Hs. split; [reflexivity | constructor]. }
  destruct st; cbn [call_stage];
    try (apply Hmock; solve [ now exists Clean | now exists Analyze
                            | now exists Visualize | now exists Model
                            | now exists Report | now exists Convert
                            | now exists Schema ]).
  - (* upload *)
    destruct (validate_session_id sid) eqn:Hv.
    + destruct (upload_file_accepted env ip sid user w Hv) as (w' & E & S).
      rewrite E. cbn [fst]. rewrite S.
      destruct (pipeline_sessions w !! sid) as [s |] eqn:Hs; split.
      * intros sid' Hne. now rewrite !lookup_alter_ne by congruence.
      * rewrite !lookup_alter_eq, Hs. cbn.
        apply (change_stage sid s Upload); [reflexivity | reflexivity | now left].
      * intros sid' Hne. rewrite !lookup_alter_ne by congruence.
        now rewrite lookup_insert_ne by congruence.
      * rewrite !lookup_alter_eq, lookup_insert_eq. cbn.
        now apply change_first_upload.
    + rewrite (upload_file_refused env ip sid user w Hv). cbn.
      split; [reflexivity | constructor].
  - (* preview *)
    destruct (validate_file_id fid) eqn:Hf.
    2:{ rewrite (preview_data_bad_file_id env ip fid sid user w Hf). cbn.
        split; [reflexivity | constructor]. }
    destruct (validate_session_id sid) eqn:Hv.
    2:{ rewrite (preview_data_bad_session_id env ip fid sid user w Hf Hv). cbn.
        split; [reflexivity | constructor]. }
    destruct (pipeline_sessions w !! sid) as [s |] eqn:Hs.
    + destruct (owned_by_other (user_id s) user) eqn:Ho.
      * rewrite (preview_data_denied env ip fid sid user w s Hf Hv Hs Ho). cbn.
        rewrite Hs. split; [reflexivity | constructor].
      * destruct (preview_data_accepted env ip fid sid user w s Hf Hv Hs Ho)
          as (w' & E & S).
        rewrite E. cbn [fst]. rewrite S. split.
        -- intros sid' Hne. now rewrite !lookup_alter_ne by congruence.
        -- rewrite !lookup_alter_eq, Hs. cbn.
           apply (change_stage sid s Preview);
             [reflexivity | reflexivity | now right].
    + destruct (preview_data_absent env ip fid sid user w Hf Hv Hs)
        as (w' & E & S).
      rewrite E. cbn [fst]. rewrite S, Hs. split; [reflexivity | constructor].
Qed.

Lemma get_pipeline_state_change env sid w :
  (∀ sid', sid' ≠ sid ->
     pipeline_sessions (fst (get_pipeline_state env sid w)) !! sid'
     = pipeline_sessions w !! sid')
  ∧ session_change sid (pipeline_sessions w !! sid)
      (pipeline_sessions (fst (get_pipeline_state env sid w)) !! sid).
Proof.
  unfold get_pipeline_state, bind, gets, modify, ret. cbn beta iota.
  destruct (pipeline_sessions w !! sid) as [s |] eqn:Hs; cbn.
  - rewrite Hs. split; [reflexivity | constructor].
  - split.
    + intros sid' Hne. now rewrite lookup_insert_ne by congruence.
    + rewrite lookup_insert_eq. constructor.
Qed.

Lemma endpoint_change env ip client r w :
  (∀ sid', sid' ≠ target (Http client r) ->
     pipeline_sessions (fst (endpoint env ip r w)) !! sid'
     = pipeline_sessions w !! sid')
  ∧ session_change (target (Http client r))
      (pipeline_sessions w !! target (Http client r))
      (pipeline_sessions (fst (endpoint env ip r w)) !! target (Http client r)).
Proof.
  destruct r; cbn [endpoint target].
  - split; [reflexivity | constructor].
  - split; [reflexivity | constructor].
  - rewrite fst_respond.
    pose proof (get_pipeline_state_change env session_id0 w) as H.
    assert (Hb : fst ((let* s := get_pipeline_state env session_id0 in
                       ret (session_json s)) w)
                 = fst (get_pipeline_state env session_id0 w)).
    { unfold bind at 1.
      now destruct (get_pipeline_state env session_id0 w) as [w' [s | e]]. }
    rewrite Hb. exact H.
  - unfold bind.
    destruct (verify_token_cases credentials w) as [-> | (c & t & -> & ->)];
      [split; [reflexivity | constructor] |].
    unfold log_security_event_endpoint.
    destruct body; cbn; split; solve [reflexivity | constructor].
  - rewrite fst_respond. unfold bind.
    destruct (verify_token_cases credentials w) as [-> | (c & t & -> & ->)];
      [split; [reflexivity | constructor] |].
    apply (call_stage_change env ip "" _ Upload).
  - rewrite fst_respond. unfold bind.
    destruct (verify_token_cases credentials w) as [-> | (c & t & -> & ->)];
      [split; [reflexivity | constructor] |].
    apply (call_stage_change env ip file_id _ Preview).
  - rewrite fst_respond.
    apply (call_stage_change env ip "" sample_user Clean).
  - rewrite fst_respond.
    apply (call_stage_change env ip "" sample_user Analyze).
  - rewrite fst_respond.
    apply (call_stage_change env ip "" sample_user Visualize).
  - rewrite fst_respond.
    apply (call_stage_change env ip "" sample_user Model).
  - rewrite fst_respond.
    apply (call_stage_change env ip "" sample_user Report).
  - rewrite fst_respond.
    apply (call_stage_change env ip "" sample_user Convert).
  - rewrite fst_respond.
    apply (call_stage_change env ip "" sample_user Schema).
Qed.

Lemma handle_change env e w :
  (∀ sid', sid' ≠ target e ->
     pipeline_sessions (handle env e w) !! sid' = pipeline_sessions w !! sid')
  ∧ session_change (target e) (pipeline_sessions w !! target e)
      (pipeline_sessions (handle env e w) !! target e).
Proof.
  destruct e as [client r | ws sid | sid]; cbn [handle].
  - unfold app, rate_limiting_middleware.
    destruct (_ <=? _)%Z; cbn [fst].
    + split; [reflexivity | constructor].
    + match goal with
      | |- context [endpoint ?e ?i ?q ?w1] =>
          exact (endpoint_change e i client q w1)
      end.
  - unfold connect, bind, modify.
    match goal with
    | |- context [send_log ?e ?n ?i ?t ?m ?w0] =>
        destruct (send_log_cases e n i t m w0) as (w1 & E & S)
    end.
    rewrite E. cbn [fst]. rewrite S. split; [reflexivity | constructor].
  - split; [reflexivity | constructor].
Qed.

(** ** Isolation of the sessions and what an event keeps *)



Lemma number_of_stage_name st : number_of_name (stage_name st) = stage_number st.
Proof. now destruct st. Qed.

Lemma stage_number_bounds st : 1 <= stage_number st <= 9.
Proof. destruct st; simpl; lia. Qed.

Lemma counter_of_snoc (l : list Step) stp :
  counter_of (l ++ [stp]) = number_of_name (step stp).
Proof. unfold counter_of. now rewrite last_snoc. Qed.

Lemma session_change_ok sid o o' :
  session_change sid o o' ->
  (∀ s, o = Some s -> session_ok sid s) ->
  ∀ s', o' = Some s' -> session_ok sid s'.
Proof.
  intros Hc Hok s' Hs'.
  destruct Hc as [o | now | now stp fid uid Hn Hst | s st stp fid Hn Hst Hf].
  - now apply Hok.
  - injection Hs' as <-. repeat split. constructor.
  - injection Hs' as <-. repeat split.
    + cbn. unfold counter_of. cbn. now rewrite Hn.
    + constructor; [now exists Upload | constructor].
  - injection Hs' as <-.
    destruct (Hok s eq_refl) as (Hid & Hu & Hr & Hl & Hcs & Hall).
    repeat split; cbn; trivial.
    + now rewrite counter_of_snoc, Hn, number_of_stage_name.
    + apply Forall_app. split; [exact Hall |].
      constructor; [now exists st | constructor].
Qed.

Lemma reachable_session_ok w :
  reachable w -> ∀ sid s, pipeline_sessions w !! sid = Some s -> session_ok sid s.
Proof.
  induction 1 as [| env e w Hw IH]; intros sid s Hs.
  - cbn in Hs. now rewrite lookup_empty in Hs.
  - destruct (handle_change env e w) as [Hother Hc].
    destruct (decide (sid = target e)) as [-> | Hne].
    + eapply session_change_ok; [exact Hc | | exact Hs].
      intros s0 Hs0. now apply IH.
    + rewrite Hother in Hs by exact Hne. now apply IH.
Qed.

(** X2: in every reachable state a session is stored under its own id, its
    undo and redo stacks and its logs are empty, every step bears the name
    of one of the nine stages, and [current_step] is the constant of the
    stage recorded last: between 0 and 9, and 0 exactly when no step is
    recorded. *)
Theorem reachable_sessions_are_consistent w sid s :
  reachable w ->
  pipeline_sessions w !! sid = Some s ->
  session_id s = sid
  ∧ undo_stack s = [] ∧ redo_stack s = [] ∧ logs s = []
  ∧ Forall (fun stp => ∃ st, step stp = stage_name st) (steps s)
  ∧ current_step s = counter_of (steps s)
  ∧ 0 <= current_step s <= 9
  ∧ (current_step s = 0 <-> steps s = []).
Proof.
  intros Hw Hs.
  destruct (reachable_session_ok w Hw sid s Hs) as (Hid & Hu & Hr & Hl & Hc & Hall).
  repeat (split; [assumption |]).
  rewrite Hc. unfold counter_of.
  destruct (steps s) as [| stp0 l] eqn:E using rev_ind.
  - cbn. split; [lia | tauto].
  - rewrite last_snoc. apply Forall_app in Hall as [_ Hx].
    inversion Hx as [| ? ? [st Hst] _]; subst.
    rewrite Hst, number_of_stage_name.
    pose proof (stage_number_bounds st). split; [lia |].
    split; [lia |]. intros Habs. now destruct l.
Qed.

Lemma reachable_sessions_are_consistent_witness :
  let w := run [(sample_env 0 true,
                 Http None (POST_upload (Some "token") (Some sample_session_id)));
                (sample_env 1 true,
                 Http None (POST_report (Some sample_session_id)))] initial in
  ∃ s, pipeline_sessions w !! sample_session_id = Some s
       ∧ session_id s = sample_session_id
       ∧ undo_stack s = [] ∧ redo_stack s = [] ∧ logs s = []
       ∧ Forall (fun stp => ∃ st, step stp = stage_name st) (steps s)
       ∧ current_step s = counter_of (steps s)
       ∧ 0 <= current_step s <= 9
       ∧ (current_step s = 0 <-> steps s = []).
Proof.
  intros w. eexists. split; [vm_compute; reflexivity |].
  apply (reachable_sessions_are_consistent w sample_session_id).
  - unfold w. cbn [run]. do 2 apply reachable_handle. apply reachable_initial.
  - vm_compute. reflexivity.
Defined.

(** ** Sessions that do not exist *)

(** X3: a stage called for a session id that is not in the store is
    answered as a success and records nothing: no session is created and
    no other session is touched (for preview, once its two identifiers are
    well formed).  Only the state endpoint and upload create sessions. *)
Theorem stage_on_unknown_session_records_nothing env ip fid user st sid w :
  st ≠ Upload ->
  (st = Preview -> validate_file_id fid = true ∧ validate_session_id sid = true) ->
  pipeline_sessions w !! sid = None ->
  ∃ w' answer, call_stage env ip fid user st sid w = (w', Ok answer)
               ∧ pipeline_sessions w' = pipeline_sessions w.
Proof.
  intros Hu Hp Hs.
  destruct st; try congruence; cbn [call_stage];
    try (unfold clean_data, analyze_data, visualize_data, train_model,
           generate_report, convert_format, validate_schema;
         match goal with
         | |- context [mock_stage ?e ?i ?a ?n ?x ?k ?b ?j ?w0] =>
             destruct (mock_stage_absent e i a n x k b j w0 Hs) as (w' & E & S)
         end;
         exists w'; eexists; split; [exact E | exact S]).
  destruct (Hp eq_refl) as [Hf Hv].
  destruct (preview_data_absent env ip fid sid user w Hf Hv Hs) as (w' & E & S).
  now exists w', preview_payload.
Qed.

Lemma stage_on_unknown_session_records_nothing_witness :
  ∃ w' answer,
    call_stage (sample_env 0 true) "10.0.0.1" "file_1" sample_user Clean
      "no-such-session" initial = (w', Ok answer)
    ∧ pipeline_sessions w' = pipeline_sessions initial.
Proof.
  apply (stage_on_unknown_session_records_nothing (sample_env 0 true)
           "10.0.0.1" "file_1" sample_user Clean "no-such-session" initial).
  - discriminate.
  - discriminate.
  - reflexivity.
Defined.

(** ** Requests that are turned away *)

(** X4: a request answered 429 has been stopped by the rate limiter: the
    endpoint has not run (sessions, connections, security log and sockets
    are as before), its time is not recorded (the list of the address is
    only pruned of the times outside the window) and the other addresses
    keep their lists. *)
Theorem rate_limited_request_changes_nothing env client r w :
  status_code (snd (app env client r w)) = 429 ->
  let ip := default "unknown" client in
  let w' := fst (app env client r w) in
  snd (app env client r w) = rate_limit_exceeded (limit_type_of r)
  ∧ pipeline_sessions w' = pipeline_sessions w
  ∧ active_connections w' = active_connections w
  ∧ stdout w' = stdout w ∧ wire w' = wire w
  ∧ requests_of ip w'
    = List.filter (within_window (ev_time env) (limit_type_of r)) (requests_of ip w)
  ∧ (∀ ip', ip' ≠ ip -> rate_limiter w' !! ip' = rate_limiter w !! ip').
Proof.
  intros H ip w'. revert H. subst w'.
  unfold app, rate_limiting_middleware. fold ip. fold (limit_type_of r).
  destruct (_ <=? _)%Z.
  - intros _. cbn [fst snd]. split; [reflexivity |].
    repeat (split; [reflexivity |]). split.
    + apply requests_of_set.
    + intros ip' Hne. cbn. now rewrite lookup_insert_ne by congruence.
  - intros H. now apply endpoint_not_429 in H.
Qed.

Lemma rate_limited_request_changes_nothing_witness :
  let w := set_rate_limiter <["10.0.0.1" := [0; 1; 2; 3; 4; 5; 6]%Q]> initial in
  let r := POST_upload (Some "token") (Some sample_session_id) in
  let w' := fst (app (sample_env 61 true) (Some "10.0.0.1") r w) in
  snd (app (sample_env 61 true) (Some "10.0.0.1") r w)
  = rate_limit_exceeded upload
  ∧ pipeline_sessions w' = pipeline_sessions w
  ∧ active_connections w' = active_connections w
  ∧ stdout w' = stdout w ∧ wire w' = wire w
  ∧ requests_of "10.0.0.1" w'
    = List.filter (within_window 61 upload) (requests_of "10.0.0.1" w)
  ∧ (∀ ip', ip' ≠ "10.0.0.1" -> rate_limiter w' !! ip' = rate_limiter w !! ip').
Proof.
  intros w r w'.
  apply (rate_limited_request_changes_nothing (sample_env 61 true)
           (Some "10.0.0.1") r w).
  vm_compute. reflexivity.
Defined.



(** X6: the bearer token is never inspected: any two non-empty tokens give
    the same answer and the same state, for every request. *)
Theorem any_token_is_as_good_as_another env client r (t1 t2 : string) w :
  t1 ≠ "" -> t2 ≠ "" ->
  app env client (with_credentials (Some t1) r) w
  = app env client (with_credentials (Some t2) r) w.
Proof.
  intros H1 H2.
  destruct t1 as [| c1 t1]; [congruence |].
  destruct t2 as [| c2 t2]; [congruence |].
  destruct r; reflexivity.
Qed.

Lemma any_token_is_as_good_as_another_witness :
  app (sample_env 0 true) (Some "10.0.0.1")
    (with_credentials (Some "alice-token")
       (POST_upload None (Some sample_session_id))) initial
  = app (sample_env 0 true) (Some "10.0.0.1")
      (with_credentials (Some "x")
         (POST_upload None (Some sample_session_id))) initial.
Proof.
  apply (any_token_is_as_good_as_another (sample_env 0 true) (Some "10.0.0.1")
           (POST_upload None (Some sample_session_id)) "alice-token" "x" initial);
    discriminate.
Defined.

(** X7: every refusal by the body of upload or preview (400 or 403) writes
    exactly one security event, which carries the client address, and
    changes nothing else. *)
Theorem refusals_are_logged env ip fid user st sid w e :
  st = Upload ∨ st = Preview ->
  snd (call_stage env ip fid user st sid w) = Raise e ->
  ∃ ev, fst (call_stage env ip fid user st sid w) = print ev w
        ∧ se_client_ip ev = Some ip
        ∧ (exc_status_code e = 400 ∨ exc_status_code e = 403).
Proof.
  intros [-> | ->]; cbn [call_stage].
  - destruct (validate_session_id sid) eqn:Hv.
    + destruct (upload_file_accepted env ip sid user w Hv) as (w' & E & _).
      rewrite E. discriminate.
    + rewrite (upload_file_refused env ip sid user w Hv). cbn.
      intros [= <-]. eexists. split; [reflexivity |]. split; [reflexivity |].
      now left.
  - destruct (validate_file_id fid) eqn:Hf.
    2:{ rewrite (preview_data_bad_file_id env ip fid sid user w Hf). cbn.
        intros [= <-]. eexists. split; [reflexivity |].
        split; [reflexivity | now left]. }
    destruct (validate_session_id sid) eqn:Hv.
    2:{ rewrite (preview_data_bad_session_id env ip fid sid user w Hf Hv). cbn.
        intros [= <-]. eexists. split; [reflexivity |].
        split; [reflexivity | now left]. }
    destruct (pipeline_sessions w !! sid) as [s |] eqn:Hs.
    + destruct (owned_by_other (user_id s) user) eqn:Ho.
      * rewrite (preview_data_denied env ip fid sid user w s Hf Hv Hs Ho). cbn.
        intros [= <-]. eexists. split; [reflexivity |].
        split; [reflexivity | now right].
      * destruct (preview_data_accepted env ip fid sid user w s Hf Hv Hs Ho)
          as (w' & E & _).
        rewrite E. discriminate.
    + destruct (preview_data_absent env ip fid sid user w Hf Hv Hs)
        as (w' & E & _).
      rewrite E. discriminate.
Qed.

Lemma refusals_are_logged_witness :
  ∃ ev, fst (call_stage (sample_env 0 true) "10.0.0.1" "file_1" sample_user
               Upload "default" initial) = print ev initial
        ∧ se_client_ip ev = Some "10.0.0.1"
        ∧ (400 = 400 ∨ 400 = 403).
Proof.
  apply (refusals_are_logged (sample_env 0 true) "10.0.0.1" "file_1" sample_user
           Upload "default" initial
           {| exc_status_code := 400; exc_detail := "Invalid session ID format" |}).
  - now left.
  - reflexivity.
Defined.

(** ** The identifier patterns *)

Lemma at_dollar_spec s : at_dollar s = true <-> s = "" ∨ s = newline.
Proof.
  destruct s as [| c [| c' s']]; cbn.
  - tauto.
  - rewrite Ascii.eqb_eq. unfold newline. split.
    + intros ->. now right.
    + intros [H | H]; [discriminate | now injection H].
  - split; [discriminate | intros [H | H]; discriminate].
Qed.

Lemma match_exactly_spec cls n s :
  match_exactly cls n s = true
  <-> ∃ body, (s = body ∨ s = body ++ newline)
              ∧ String.length body = n ∧ string_forallb cls body = true.
Proof.
  revert s. induction n as [| n IH]; intros s; cbn [match_exactly].
  - rewrite at_dollar_spec. split.
    + intros H. exists "". now repeat split.
    + intros (body & H & Hl & _). destruct body; [exact H | discriminate].
  - destruct s as [| c s'].
    + split; [discriminate |].
      intros (body & H & Hl & _). destruct body; [discriminate |].
      destruct H as [H | H]; discriminate.
    + rewrite andb_true_iff, IH. split.
      * intros (Hc & body & H & Hl & Hall). exists (String c body).
        cbn. rewrite Hc, Hall, Hl. repeat split.
        destruct H as [-> | ->]; [now left | now right].
      * intros (body & H & Hl & Hall). destruct body as [| c0 body];
          [discriminate |].
        cbn in Hl, Hall. apply andb_true_iff in Hall as [Hc Hall].
        assert (c = c0 ∧ (s' = body ∨ s' = body ++ newline)) as [-> Hs'].
        { destruct H as [H | H]; injection H as -> ->; split; auto. }
        split; [exact Hc |]. exists body. repeat split; [exact Hs' | lia | exact Hall].
Qed.

Lemma match_plus_spec cls s :
  match_plus cls s = true
  <-> ∃ body, body ≠ "" ∧ (s = body ∨ s = body ++ newline)
              ∧ string_forallb cls body = true.
Proof.
  induction s as [| c s' IH]; cbn [match_plus].
  - split; [discriminate |].
    intros (body & Hne & H & _). destruct body; [congruence |].
    destruct H as [H | H]; discriminate.
  - rewrite andb_true_iff, orb_true_iff, at_dollar_spec, IH. split.
    + intros (Hc & [Hd | (body & Hne & H & Hall)]).
      * exists (String c ""). cbn. rewrite Hc. repeat split; [discriminate |].
        destruct Hd as [-> | ->]; [now left | now right].
      * exists (String c body). cbn. rewrite Hc, Hall.
        repeat split; [discriminate |].
        destruct H as [-> | ->]; [now left | now right].
    + intros (body & Hne & H & Hall). destruct body as [| c0 body]; [congruence |].
      cbn in Hall. apply andb_true_iff in Hall as [Hc Hall].
      assert (c = c0 ∧ (s' = body ∨ s' = body ++ newline)) as [-> Hs'].
      { destruct H as [H | H]; injection H as -> ->; split; auto. }
      split; [exact Hc |].
      destruct body as [| c1 body].
      * left. exact Hs'.
      * right. exists (String c1 body). repeat split; [discriminate | exact Hs' | exact Hall].
Qed.

(** X8: a session id is accepted exactly when it is 36 characters among
    letters, digits and [-], possibly followed by one newline (the [$] of
    the pattern allows it): an accepted id has 36 or 37 characters. *)
Theorem validate_session_id_accepts s :
  validate_session_id s = true
  <-> ∃ body, (s = body ∨ s = body ++ newline)
              ∧ String.length body = 36%nat
              ∧ string_forallb session_id_class body = true.
Proof. apply match_exactly_spec. Qed.

(** X9: a file id is accepted exactly when it is a non-empty run of
    letters, digits, [_] and [-], possibly followed by one newline; so no
    accepted file id contains a dot, a slash or a space. *)
Theorem validate_file_id_accepts s :
  validate_file_id s = true
  <-> ∃ body, body ≠ "" ∧ (s = body ∨ s = body ++ newline)
              ∧ string_forallb file_id_class body = true.
Proof. apply match_plus_spec. Qed.

Lemma string_forallb_app cls s1 s2 :
  string_forallb cls (s1 ++ s2)
  = string_forallb cls s1 && string_forallb cls s2.
Proof.
  induction s1 as [| c s1 IH]; [reflexivity |].
  change (cls c && string_forallb cls (s1 ++ s2)
          = cls c && string_forallb cls s1 && string_forallb cls s2).
  now rewrite IH, andb_assoc.
Qed.

(** ** Upload, then preview *)

(** X10: the file id handed out by a successful upload (["file_"] and the
    first eight characters of the UUID's hex form) is always a well-formed
    file id, and the uploader then passes the ownership check of preview:
    on a session that did not exist, upload followed by preview with the
    returned id leaves the two steps upload and preview, [current_step = 2]
    and the uploader as owner. *)
Theorem uploaded_file_can_be_previewed env1 env2 ip sid user w :
  validate_session_id sid = true ->
  pipeline_sessions w !! sid = None ->
  string_forallb file_id_class (String.substring 0 8 (ev_uuid_hex env1)) = true ->
  let fid := "file_" ++ String.substring 0 8 (ev_uuid_hex env1) in
  let w1 := fst (upload_file env1 ip sid user w) in
  snd (upload_file env1 ip sid user w)
  = Ok (JObj [("file_id", JStr fid); ("status", JStr "success")])
  ∧ validate_file_id fid = true
  ∧ ∃ w2 s2,
      preview_data env2 ip fid sid user w1 = (w2, Ok preview_payload)
      ∧ pipeline_sessions w2 !! sid = Some s2
      ∧ map step (steps s2) = ["upload"; "preview"]
      ∧ current_step s2 = 2
      ∧ current_file_id s2 = Some fid
      ∧ user_id s2 = Some (u_user_id user).
Proof.
  intros Hv Hs Hhex fid w1.
  destruct (upload_file_accepted env1 ip sid user w Hv) as (w' & E & S).
  fold fid in E, S. subst w1. rewrite E. cbn [fst snd].
  split; [reflexivity |].
  assert (Hfid : validate_file_id fid = true).
  { apply validate_file_id_accepts. exists fid.
    split; [discriminate |]. split; [now left |].
    unfold fid. rewrite string_forallb_app, Hhex. reflexivity. }
  split; [exact Hfid |].
  rewrite Hs in S.
  assert (Hs1 : pipeline_sessions w' !! sid
                = Some {| session_id := sid; current_file_id := Some fid;
                          current_step := 1;
                          steps := [{| step := "upload"; status := "completed";
                                       timestamp := ev_now env1 3;
                                       fields := [("file_id", JStr fid);
                                                  ("details", JStr "Mock file uploaded successfully")] |}];
                          undo_stack := []; redo_stack := []; logs := [];
                          created_at := ev_now env1 2;
                          user_id := Some (u_user_id user) |}).
  { rewrite S, !lookup_alter_eq, lookup_insert_eq. reflexivity. }
  assert (Ho : owned_by_other (Some (u_user_id user)) user = false).
  { unfold owned_by_other. destruct (u_user_id user); [reflexivity |].
    now rewrite String.eqb_refl. }
  destruct (preview_data_accepted env2 ip fid sid user w' _ Hfid Hv Hs1 Ho)
    as (w2 & E2 & S2).
  exists w2. eexists. split; [exact E2 |].
  rewrite S2, !lookup_alter_eq, Hs1. cbn. split; [reflexivity |].
  now repeat split.
Qed.

Lemma uploaded_file_can_be_previewed_witness :
  let fid := "file_01234567" in
  let w1 := fst (upload_file (sample_env 0 true) "10.0.0.1" sample_session_id
                   sample_user initial) in
  snd (upload_file (sample_env 0 true) "10.0.0.1" sample_session_id sample_user
         initial)
  = Ok (JObj [("file_id", JStr fid); ("status", JStr "success")])
  ∧ validate_file_id fid = true
  ∧ ∃ w2 s2,
      preview_data (sample_env 1 true) "10.0.0.1" fid sample_session_id
        sample_user w1 = (w2, Ok preview_payload)
      ∧ pipeline_sessions w2 !! sample_session_id = Some s2
      ∧ map step (steps s2) = ["upload"; "preview"]
      ∧ current_step s2 = 2
      ∧ current_file_id s2 = Some fid
      ∧ user_id s2 = Some "test_user".
Proof.
  intros fid w1.
  apply (uploaded_file_can_be_previewed (sample_env 0 true) (sample_env 1 true)
           "10.0.0.1" sample_session_id sample_user initial); reflexivity.
Defined.

(** The edge the pattern leaves open. *)
Example session_id_with_trailing_newline :
  validate_session_id (sample_session_id ++ newline) = true
  ∧ validate_session_id "default" = false.
Proof. split; reflexivity. Qed.

(** ** More on the rate limiter *)

Lemma handle_rate_limiter env e w ip' :
  rate_limiter (handle env e w) !! ip' = rate_limiter w !! ip'
  ∨ ∃ client r,
      e = Http client r ∧ ip' = default "unknown" client
      ∧ let recent :=
          List.filter (within_window (ev_time env) (limit_type_of r))
            (requests_of ip' w) in
        (requests_of ip' (handle env e w) = recent
         ∨ (requests_of ip' (handle env e w) = (recent ++ [ev_time env])%list
            ∧ Z.of_nat (List.length recent) < max_requests (RATE_LIMITS (limit_type_of r)))).
Proof.
  destruct e as [client r | ws sid | sid]; cbn [handle].
  - destruct (decide (ip' = default "unknown" client)) as [-> | Hne].
    + right. exists client, r. split; [reflexivity |]. split; [reflexivity |].
      unfold app, rate_limiting_middleware. fold (limit_type_of r).
      destruct (Z.leb_spec
                  (max_requests (RATE_LIMITS (limit_type_of r)))
                  (Z.of_nat (List.length
                     (List.filter (within_window (ev_time env) (limit_type_of r))
                        (requests_of (default "unknown" client) w))))) as [Hle | Hlt];
        cbn [fst].
      * left. apply requests_of_set.
      * right. split; [| exact Hlt].
        rewrite requests_of_endpoint. apply requests_of_set.
    + left. unfold app, rate_limiting_middleware.
      destruct (_ <=? _)%Z; cbn [fst].
      * cbn. now rewrite lookup_insert_ne by congruence.
      * rewrite endpoint_rate_limiter. cbn.
        now rewrite !lookup_insert_ne by congruence.
  - left. f_equal.
    unfold connect, send_log, bind, gets, modify, disconnect.
    cbn [active_connections set_connections]. rewrite lookup_insert_eq.
    now destruct (ev_send_text _ _ _).
  - left. reflexivity.
Qed.

Lemma length_filter_le {A} (p : A -> bool) (l : list A) :
  (List.length (List.filter p l) <= List.length l)%nat.
Proof.
  induction l as [| a l IH]; cbn; [lia |]. destruct (p a); cbn; lia.
Qed.

(** X11: the memory of the rate limiter is bounded per address: in every
    reachable state no address has more than 100 recorded request
    times. *)
Theorem recorded_requests_are_bounded w ip :
  reachable w -> (List.length (requests_of ip w) <= 100)%nat.
Proof.
  induction 1 as [| env e w Hw IH].
  { unfold requests_of. cbn. rewrite lookup_empty. cbn. lia. }
  destruct (handle_rate_limiter env e w ip) as [Hsame | (client & r & -> & -> & H)].
  - unfold requests_of in *. now rewrite Hsame.
  - cbv zeta in H.
    pose proof (length_filter_le
                  (within_window (ev_time env) (limit_type_of r))
                  (requests_of (default "unknown" client) w)) as Hf.
    destruct H as [-> | [-> Hlt]]; [lia |].
    rewrite length_app. cbn [List.length].
    assert (max_requests (RATE_LIMITS (limit_type_of r)) <= 100)
      by (destruct (limit_type_of r); cbn; lia).
    lia.
Qed.

Lemma recorded_requests_are_bounded_witness :
  (List.length
     (requests_of "10.0.0.1"
        (handle (sample_env 0 true) (Http (Some "10.0.0.1") GET_health) initial))
   <= 100)%nat.
Proof.
  apply recorded_requests_are_bounded.
  apply reachable_handle, reachable_initial.
Defined.

(** X12: the requests of one address never change the list of another:
    a client cannot use up the allowance of someone else. *)
Theorem addresses_are_limited_separately env client r w ip' :
  ip' ≠ default "unknown" client ->
  rate_limiter (handle env (Http client r) w) !! ip' = rate_limiter w !! ip'.
Proof.
  intros Hne.
  destruct (handle_rate_limiter env (Http client r) w ip')
    as [Hsame | (client' & r' & [= <- <-] & -> & _)]; [exact Hsame | congruence].
Qed.

Lemma addresses_are_limited_separately_witness :
  let w := set_rate_limiter <["10.0.0.2" := [0; 1; 2; 3]%Q]> initial in
  rate_limiter
    (handle (sample_env 5 true)
       (Http (Some "10.0.0.1") (POST_upload (Some "token") None)) w) !! "10.0.0.2"
  = rate_limiter w !! "10.0.0.2".
Proof.
  intros w.
  apply (addresses_are_limited_separately (sample_env 5 true) (Some "10.0.0.1")
           (POST_upload (Some "token") None) w "10.0.0.2").
  discriminate.
Defined.

(** A request outside the upload category is let through when fewer than
    a hundred requests of its address are within the window. *)
Lemma app_lets_through_api env client r w (l : list Q) :
  let ip := default "unknown" client in
  limit_type_of r = api ->
  List.filter (within_window (ev_time env) api) (requests_of ip w) = l ->
  (List.length l < 100)%nat ->
  status_code (snd (app env client r w)) ≠ 429
  ∧ requests_of ip (fst (app env client r w)) = (l ++ [ev_time env])%list.
Proof.
  intros ip Hr Hl Hlen. unfold app, rate_limiting_middleware. fold ip.
  fold (limit_type_of r). rewrite Hr, Hl.
  destruct (Z.leb_spec (max_requests (RATE_LIMITS api))
              (Z.of_nat (List.length l))) as [Hle | Hlt]; [cbn in Hle; lia |].
  split; [apply endpoint_not_429 |].
  rewrite requests_of_endpoint. apply requests_of_set.
Qed.

Lemma api_burst_recorded client env req w n :
  let ip := default "unknown" client in
  requests_of ip w = [] ->
  (n <= 100)%nat ->
  (∀ i, (i < n)%nat -> limit_type_of (req i) = api) ->
  (∀ i j, (i <= j < n)%nat -> (ev_time (env j) - ev_time (env i) < 60)%Q) ->
  requests_of ip (run (burst client env req n) w)
  = map (fun i => ev_time (env i)) (seq 0 n)
  ∧ (∀ i, (i < n)%nat ->
       status_code (snd (app (env i) client (req i)
                           (run (burst client env req i) w))) ≠ 429).
Proof.
  intros ip Hw. induction n as [| n IH]; intros Hn Hapi Ht.
  - split; [exact Hw | intros i Hi; lia].
  - destruct IH as [IH1 IH2];
      [lia | intros i Hi; apply Hapi; lia | intros i j Hij; apply Ht; lia |].
    assert (Hf : List.filter (within_window (ev_time (env n)) api)
                   (requests_of ip (run (burst client env req n) w))
                 = map (fun i => ev_time (env i)) (seq 0 n)).
    { rewrite IH1. apply filter_window_all. apply Forall_map, Forall_forall.
      intros i Hi. apply elem_of_seq in Hi. apply Ht. lia. }
    destruct (app_lets_through_api (env n) client (req n)
                (run (burst client env req n) w) _ (Hapi n ltac:(lia)) Hf)
      as [Hs Hr].
    { rewrite length_map, length_seq. lia. }
    split.
    + rewrite burst_S, run_app. cbn [run handle]. fold ip in Hr. rewrite Hr.
      now rewrite seq_S, map_app.
    + intros i Hi. destruct (decide (i = n)) as [-> | Hne]; [exact Hs |].
      apply IH2. lia.
Qed.

(** X13: outside the upload category an address is allowed a hundred
    requests per 60 seconds: a hundred requests to other endpoints within
    one window are all let through, and the next one is answered 429. *)
Theorem api_rate_limit client (env : nat -> Env) (req : nat -> Request) w :
  let ip := default "unknown" client in
  let t := fun i => ev_time (env i) in
  requests_of ip w = [] ->
  (∀ i, (i <= 100)%nat -> limit_type_of (req i) = api) ->
  (∀ i, (i < 100)%nat -> (t i <= t (S i))%Q) ->
  (t 100%nat - t 0%nat < 60)%Q ->
  (∀ i, (i < 100)%nat ->
     status_code (snd (app (env i) client (req i)
                         (run (burst client env req i) w))) ≠ 429)
  ∧ snd (app (env 100%nat) client (req 100%nat)
           (run (burst client env req 100) w))
    = {| status_code := 429;
         content := JObj [("error", JStr "Rate limit exceeded");
                          ("retry_after", JInt 60)] |}.
Proof.
  intros ip t Hw Hapi Hm Hwin.
  pose proof (monotone_chain t 100 Hm) as Hc.
  assert (Ht : ∀ i j, (i <= j <= 100)%nat ->
                 (ev_time (env j) - ev_time (env i) < 60)%Q).
  { intros i j Hij. pose proof (Hc 0 i ltac:(lia))%nat.
    pose proof (Hc j 100 ltac:(lia))%nat. unfold t in *. lra. }
  destruct (api_burst_recorded client env req w 100 Hw) as [Hr Hs];
    [lia | intros i Hi; apply Hapi; lia | intros i j Hij; apply Ht; lia |].
  split; [exact Hs |].
  unfold app, rate_limiting_middleware. fold (limit_type_of (req 100%nat)).
  rewrite (Hapi 100%nat) by lia. fold ip. unfold ip in Hr. fold ip in Hr.
  rewrite Hr.
  rewrite filter_window_all.
  2:{ apply Forall_map, Forall_forall. intros i Hi. apply elem_of_seq in Hi.
      apply Ht. lia. }
  rewrite length_map, length_seq. reflexivity.
Qed.

Lemma api_rate_limit_witness :
  let env := fun _ : nat => sample_env 7 true in
  let req := fun _ : nat => GET_health in
  (∀ i, (i < 100)%nat ->
     status_code (snd (app (env i) (Some "10.0.0.1") (req i)
                         (run (burst (Some "10.0.0.1") env req i) initial))) ≠ 429)
  ∧ snd (app (env 100%nat) (Some "10.0.0.1") (req 100%nat)
           (run (burst (Some "10.0.0.1") env req 100) initial))
    = {| status_code := 429;
         content := JObj [("error", JStr "Rate limit exceeded");
                          ("retry_after", JInt 60)] |}.
Proof.
  intros env req.
  apply (api_rate_limit (Some "10.0.0.1") env req initial).
  - reflexivity.
  - intros i Hi. reflexivity.
  - intros i Hi. apply Qle_refl.
  - vm_compute. reflexivity.
Defined.

(** ** The live log of a stage *)

Lemma send_log_up env now sid ty msg w ws :
  active_connections w !! sid = Some ws ->
  ev_send_text env ws {| le_type := ty; le_message := msg; le_timestamp := now;
                         le_session_id := sid |} = true ->
  send_log env now sid ty msg w
  = (transmit ws {| le_type := ty; le_message := msg; le_timestamp := now;
                    le_session_id := sid |} w, Ok tt).
Proof.
  intros Hc Hs. unfold send_log, bind, gets, modify. cbn beta iota.
  now rewrite Hc, Hs.
Qed.

Lemma send_log_down env now sid ty msg w ws :
  active_connections w !! sid = Some ws ->
  ev_send_text env ws {| le_type := ty; le_message := msg; le_timestamp := now;
                         le_session_id := sid |} = false ->
  send_log env now sid ty msg w = (set_connections (delete sid) w, Ok tt).
Proof.
  intros Hc Hs. unfold send_log, bind, gets, disconnect, modify. cbn beta iota.
  rewrite Hc, Hs. unfold set_connections. now rewrite Hc.
Qed.

Lemma send_log_none env now sid ty msg w :
  active_connections w !! sid = None ->
  send_log env now sid ty msg w = (w, Ok tt).
Proof.
  intros Hc. unfold send_log, bind, gets, ret. cbn beta iota. now rewrite Hc.
Qed.

(** The body of a stage, one statement after the other. *)
Lemma mock_stage_unfold env sid starting name extra number finished answer w :
  mock_stage env sid starting name extra number finished answer w
  = let w1 := fst (send_log env (ev_now env 0) sid "info" starting w) in
    let w2 :=
      match pipeline_sessions w1 !! sid with
      | Some _ =>
          set_sessions (alter (set_current_step number) sid)
            (set_sessions
               (alter (steps_append {| step := name; status := "completed";
                                       timestamp := ev_now env 1;
                                       fields := extra |}) sid) w1)
      | None => w1
      end in
    (fst (send_log env (ev_now env 2) sid "success" finished w2), Ok answer).
Proof.
  unfold mock_stage.
  unfold bind at 1.
  destruct (send_log_cases env (ev_now env 0) sid "info" starting w)
    as (w1 & E1 & S1).
  rewrite E1. cbn [fst]. cbv zeta.
  unfold bind at 1, gets at 1.
  destruct (pipeline_sessions w1 !! sid).
  - unfold bind at 1. unfold bind at 1. unfold modify at 1 2.
    unfold bind at 1.
    match goal with
    | |- context [send_log ?e ?n ?i ?t ?m ?w0] =>
        destruct (send_log_cases e n i t m w0) as (w2 & E2 & S2)
    end.
    now rewrite E2.
  - unfold bind at 1, ret at 1. unfold bind at 1.
    destruct (send_log_cases env (ev_now env 2) sid "success" finished w1)
      as (w2 & E2 & S2).
    now rewrite E2.
Qed.

Lemma mock_stage_wire env sid starting name extra number finished answer w ws :
  active_connections w !! sid = Some ws ->
  let e1 := {| le_type := "info"; le_message := starting;
               le_timestamp := ev_now env 0; le_session_id := sid |} in
  let e2 := {| le_type := "success"; le_message := finished;
               le_timestamp := ev_now env 2; le_session_id := sid |} in
  let r := mock_stage env sid starting name extra number finished answer w in
  snd r = Ok answer
  ∧ (ev_send_text env ws e1 = true -> ev_send_text env ws e2 = true ->
     wire (fst r) = (wire w ++ [(ws, e1); (ws, e2)])%list
     ∧ active_connections (fst r) = active_connections w)
  ∧ (ev_send_text env ws e1 = false ->
     wire (fst r) = wire w
     ∧ active_connections (fst r) = delete sid (active_connections w)).
Proof.
  intros Hc e1 e2 r. subst r. rewrite mock_stage_unfold. cbv zeta.
  split; [reflexivity |]. split.
  - intros H1 H2. rewrite (send_log_up env _ sid _ _ w ws Hc H1). cbn [fst].
    match goal with
    | |- context [send_log _ _ _ _ _ ?w0] => set (w2 := w0)
    end.
    assert (Hw2 : wire w2 = (wire w ++ [(ws, e1)])%list
                  ∧ active_connections w2 = active_connections w).
    { subst w2. cbn [pipeline_sessions transmit].
      destruct (pipeline_sessions w !! sid); split; reflexivity. }
    destruct Hw2 as [Hwire Hconn].
    assert (Hc2 : active_connections w2 !! sid = Some ws) by now rewrite Hconn.
    rewrite (send_log_up env _ sid _ _ w2 ws Hc2 H2).
    cbn [fst wire active_connections transmit]. rewrite Hwire, Hconn.
    split; [now rewrite <- app_assoc | reflexivity].
  - intros H1. rewrite (send_log_down env _ sid _ _ w ws Hc H1). cbn [fst].
    match goal with
    | |- context [send_log _ _ _ _ _ ?w0] => set (w2 := w0)
    end.
    assert (Hw2 : wire w2 = wire w
                  ∧ active_connections w2 = delete sid (active_connections w)).
    { subst w2. cbn [pipeline_sessions set_connections].
      destruct (pipeline_sessions w !! sid); split; reflexivity. }
    destruct Hw2 as [Hwire Hconn].
    assert (Hc2 : active_connections w2 !! sid = None)
      by (rewrite Hconn; apply lookup_delete_eq).
    rewrite (send_log_none env _ sid _ _ w2 Hc2). cbn [fst].
    split; assumption.
Qed.

(** X14: a client connected to the live log of a session receives the two
    lines of a stage (an ["info"] line, then a ["success"] line), in that
    order and on its own socket; if the first write fails, the connection
    is dropped and nothing is sent; in either case the stage itself
    succeeds. *)
Theorem stage_log_lines env ip fid user st sid w ws :
  st ≠ Upload -> st ≠ Preview ->
  active_connections w !! sid = Some ws ->
  let r := call_stage env ip fid user st sid w in
  (∃ answer, snd r = Ok answer)
  ∧ ((∀ entry, ev_send_text env ws entry = true) ->
     ∃ m1 m2,
       wire (fst r)
       = (wire w
          ++ [(ws, {| le_type := "info"; le_message := m1;
                      le_timestamp := ev_now env 0; le_session_id := sid |});
              (ws, {| le_type := "success"; le_message := m2;
                      le_timestamp := ev_now env 2; le_session_id := sid |})])%list
       ∧ active_connections (fst r) = active_connections w)
  ∧ ((∀ entry, ev_send_text env ws entry = false) ->
     wire (fst r) = wire w
     ∧ active_connections (fst r) !! sid = None).
Proof.
  intros Hu Hp Hc r. subst r.
  destruct st; try congruence; cbn [call_stage];
    unfold clean_data, analyze_data, visualize_data, train_model,
      generate_report, convert_format, validate_schema;
    match goal with
    | |- context [mock_stage ?e ?i ?a ?n ?x ?k ?b ?j ?w0] =>
        destruct (mock_stage_wire e i a n x k b j w0 ws Hc) as (Hok & Hup & Hdown)
    end;
    (split; [eexists; exact Hok |]);
    (split;
     [ intros Hall; destruct (Hup (Hall _) (Hall _)) as [Hw Ha];
       eexists _, _; split; [exact Hw | exact Ha]
     | intros Hall; destruct (Hdown (Hall _)) as [Hw Ha];
       split; [exact Hw | rewrite Ha; apply lookup_delete_eq] ]).
Qed.

Lemma stage_log_lines_witness :
  let w := set_connections <[sample_session_id := Socket 7]> initial in
  let r := call_stage (sample_env 0 true) "10.0.0.1" "file_1" sample_user
             Analyze sample_session_id w in
  (∃ answer, snd r = Ok answer)
  ∧ ((∀ entry, ev_send_text (sample_env 0 true) (Socket 7) entry = true) ->
     ∃ m1 m2,
       wire (fst r)
       = (wire w
          ++ [(Socket 7, {| le_type := "info"; le_message := m1;
                            le_timestamp := "2025-01-01T00:00:00";
                            le_session_id := sample_session_id |});
              (Socket 7, {| le_type := "success"; le_message := m2;
                            le_timestamp := "2025-01-01T00:00:00";
                            le_session_id := sample_session_id |})])%list
       ∧ active_connections (fst r) = active_connections w)
  ∧ ((∀ entry, ev_send_text (sample_env 0 true) (Socket 7) entry = false) ->
     wire (fst r) = wire w
     ∧ active_connections (fst r) !! sample_session_id = None).
Proof.
  intros w r.
  apply (stage_log_lines (sample_env 0 true) "10.0.0.1" "file_1" sample_user
           Analyze sample_session_id w (Socket 7)).
  - discriminate.
  - discriminate.
  - reflexivity.
Defined.

(** ** The validators of names and free text *)

Lemma cp_match_plus_spec cls s :
  cls 10%N = true ->
  cp_match_plus cls s = true <-> s ≠ [] ∧ forallb cls s = true.
Proof.
  intros Hnl. induction s as [| c s' IH]; cbn [cp_match_plus forallb].
  - split; [discriminate | intros [H _]; congruence].
  - rewrite andb_true_iff, orb_true_iff, IH. split.
    + intros (Hc & [Hd | [_ Hall]]); (split; [discriminate |]);
        rewrite Hc; [| exact Hall].
      destruct s' as [| c' [| c'' s'']]; cbn in *; try discriminate Hd;
        [reflexivity |].
      apply N.eqb_eq in Hd. subst c'. now rewrite Hnl.
    + intros (_ & Hall). apply andb_true_iff in Hall as [Hc Hall].
      split; [exact Hc |].
      destruct s' as [| c' s'']; [now left | right].
      split; [discriminate | exact Hall].
Qed.

Ltac cp_arith :=
  unfold filename_class, turkish_text_class, cp_alnum, cp_space,
    turkish_letters, cp_in_range in *;
  cbn [existsb] in *;
  repeat rewrite ?orb_true_iff, ?andb_true_iff, ?negb_true_iff,
    ?andb_false_iff, ?orb_false_iff, ?N.leb_le, ?N.leb_gt, ?N.eqb_eq,
    ?N.eqb_neq in *;
  lia.

Lemma class_is_encodable (cls : N -> bool) s :
  (∀ c, cls c = true -> negb (cp_in_range 55296 57343 c) = true) ->
  forallb cls s = true -> utf8_encodable s = true.
Proof.
  intros Hcls Hall. unfold utf8_encodable. apply forallb_forall.
  intros c Hc. apply Hcls. now apply (proj1 (forallb_forall cls s) Hall).
Qed.

Lemma filename_class_no_surrogate c :
  filename_class c = true -> negb (cp_in_range 55296 57343 c) = true.
Proof. intros H. cp_arith. Qed.

Lemma turkish_text_class_no_surrogate c :
  turkish_text_class c = true -> negb (cp_in_range 55296 57343 c) = true.
Proof. intros H. cp_arith. Qed.

(** X28: a file name is accepted exactly when it has between 1 and 255
    characters, all of them letters (with the Turkish ones), digits, dot,
    underscore, hyphen or white space.  So no accepted name contains a
    slash, a backslash or a NUL; but the name [..] is accepted. *)
Theorem validate_filename_accepts :
  (∀ f, validate_filename f = true
        <-> f ≠ [] ∧ (List.length f <= 255)%nat
            ∧ forallb filename_class f = true)
  ∧ (∀ f, validate_filename f = true ->
          ¬ In 47%N f ∧ ¬ In 92%N f ∧ ¬ In 0%N f)
  ∧ validate_filename [46; 46]%N = true.
Proof.
  assert (Hiff : ∀ f, validate_filename f = true
                      <-> f ≠ [] ∧ (List.length f <= 255)%nat
                          ∧ forallb filename_class f = true).
  { intros f. unfold validate_filename.
    destruct f as [| c f']; [cbn; split; [discriminate | intros [H _]; congruence] |].
    cbn [orb]. destruct (Nat.ltb_spec 255 (List.length (c :: f'))) as [Hlong | Hshort].
    - split; [discriminate | intros (_ & H & _); lia].
    - destruct (cp_match_plus filename_class (c :: f')) eqn:Hm; cbn [negb].
      + apply cp_match_plus_spec in Hm as [_ Hall]; [| reflexivity].
        rewrite (class_is_encodable filename_class _
                   filename_class_no_surrogate Hall).
        split; [intros _ | reflexivity]. split; [discriminate |]. now split.
      + split; [discriminate |]. intros (Hne & _ & Hall).
        assert (cp_match_plus filename_class (c :: f') = true)
          by (apply cp_match_plus_spec; [reflexivity | now split]).
        congruence. }
  split; [exact Hiff |]. split; [| reflexivity].
  intros f Hf. apply Hiff in Hf as (_ & _ & Hall).
  rewrite forallb_forall in Hall.
  repeat split; intros Hin; apply Hall in Hin; discriminate Hin.
Qed.

(** The two names of the specification's test. *)
Example validate_filename_examples :
  validate_filename
    [114; 97; 112; 111; 114; 95; 304; 351; 108; 101; 109; 46; 99; 115; 118]%N
  = true
  ∧ validate_filename
      [46; 46; 47; 101; 116; 99; 47; 112; 97; 115; 115; 119; 100]%N = false.
Proof. split; reflexivity. Qed.

(** X29: a text is accepted exactly when it is not empty and made of
    letters (with the Turkish ones), digits, white space and the
    punctuation of the pattern; there is no bound on its length, and no
    accepted text contains an angle bracket, an ampersand or a
    backslash. *)
Theorem validate_turkish_text_accepts :
  (∀ t, validate_turkish_text t = true
        <-> t ≠ [] ∧ forallb turkish_text_class t = true)
  ∧ (∀ t, validate_turkish_text t = true ->
          ¬ In 60%N t ∧ ¬ In 62%N t ∧ ¬ In 38%N t ∧ ¬ In 92%N t).
Proof.
  assert (Hiff : ∀ t, validate_turkish_text t = true
                      <-> t ≠ [] ∧ forallb turkish_text_class t = true).
  { intros t. unfold validate_turkish_text.
    destruct t as [| c t']; [split; [discriminate | intros [H _]; congruence] |].
    destruct (cp_match_plus turkish_text_class (c :: t')) eqn:Hm; cbn [negb].
    - apply cp_match_plus_spec in Hm as [_ Hall]; [| reflexivity].
      rewrite (class_is_encodable turkish_text_class _
                 turkish_text_class_no_surrogate Hall).
      split; [intros _ | reflexivity]. now split.
    - split; [discriminate |]. intros (Hne & Hall).
      assert (cp_match_plus turkish_text_class (c :: t') = true)
        by (apply cp_match_plus_spec; [reflexivity | now split]).
      congruence. }
  split; [exact Hiff |].
  intros t Ht. apply Hiff in Ht as (_ & Hall).
  rewrite forallb_forall in Hall.
  repeat split; intros Hin; apply Hall in Hin; discriminate Hin.
Qed.

End DashboardMore.

(** * Further properties of the Data Pilot API *)

Module DataPilotMore.
Import DataPilot DataPilotFacts.

(** ** The data router, operation by operation *)

Lemma find_app_skip {A} (p : A -> bool) (l l' : list A) :
  (∀ x, In x l -> p x = false) -> find p (l ++ l') = find p l'.
Proof.
  induction l as [| a l IH]; intros H; [reflexivity |]. cbn.
  rewrite (H a) by now left. apply IH. intros x Hx. apply H. now right.
Qed.

Lemma valid_type_passes data_type rows :
  existsb (String.eqb data_type) valid_types = true ->
  validate_data_type data_type rows = (rows, Ok tt).
Proof. intros H. unfold validate_data_type. now rewrite H. Qed.

(** X15: an item created with an allowed type and a successful commit gets
    an id that no row of the table has, belongs to its creator, is added
    at the end of the table, and is what the creator then reads back under
    that id. *)
Theorem created_item_can_be_read env data (u : User) rows :
  existsb (String.eqb (in_data_type data)) valid_types = true ->
  commit_error env = None ->
  let new_data := {| id := next_id rows; title := in_title data;
                     content_ := in_content data;
                     data_type := in_data_type data; user_id := user_pk u;
                     created_at := db_now env; updated_at := None |} in
  create_data env data u rows = ((rows ++ [new_data])%list, Ok new_data)
  ∧ ¬ In (id new_data) (map id rows)
  ∧ get_data (id new_data) u (rows ++ [new_data])%list
    = ((rows ++ [new_data])%list, Ok new_data).
Proof.
  intros Hv Hc new_data. split; [| split].
  - unfold create_data, try_except, bind, gets, commit, modify, ret.
    rewrite (valid_type_passes _ rows Hv), Hc. reflexivity.
  - intros Hin. apply in_map_iff in Hin as (r & Hid & Hr).
    apply next_id_above in Hr. cbn in Hid. lia.
  - unfold get_data, bind, gets, select_owned. cbn beta iota.
    rewrite find_app_skip.
    + cbn. now rewrite !Z.eqb_refl.
    + intros r Hr. apply next_id_above in Hr. cbn.
      apply andb_false_iff. left. apply Z.eqb_neq. lia.
Qed.

Lemma created_item_can_be_read_witness :
  let new_data := {| id := 2; title := "Test Data";
                     content_ := "This is test content"; data_type := "note";
                     user_id := 2; created_at := "2025-01-01 00:00:00";
                     updated_at := None |} in
  create_data sample_db_env sample_note bob alice_table
  = ((alice_table ++ [new_data])%list, Ok new_data)
  ∧ ¬ In 2 (map id alice_table)
  ∧ get_data 2 bob (alice_table ++ [new_data])%list
    = ((alice_table ++ [new_data])%list, Ok new_data).
Proof.
  intros new_data.
  apply (created_item_can_be_read sample_db_env sample_note bob alice_table);
    reflexivity.
Defined.

(** X16: when the commit fails, no operation of the data router changes the
    table, and the client is answered 500; for create (and update) the
    text of the driver's error is sent to the client in the details. *)
Theorem failed_commit_changes_nothing env text (u : User) rows :
  commit_error env = Some text ->
  (∀ op, apply_op env u op rows = rows)
  ∧ (∀ data, existsb (String.eqb (in_data_type data)) valid_types = true ->
       create_data env data u rows
       = (rows, Raise (DatabaseException "Failed to create data"
                         [("error", JStr text)])))
  ∧ (∀ data_id d, select_owned data_id (user_pk u) rows = Some d ->
       delete_data env data_id u rows
       = (rows, Raise (DatabaseException "Failed to delete data"
                         [("data_id", JInt data_id)]))).
Proof.
  intros Hc. split; [| split].
  - intros [data | data_id upd | data_id]; cbn [apply_op].
    + unfold create_data, try_except, bind, validate_data_type, gets, commit.
      destruct (existsb _ _); [| reflexivity]. now rewrite Hc.
    + unfold update_data, try_except, bind, validate_data_type, gets, commit.
      cbn beta iota. destruct (select_owned _ _ _); [| reflexivity].
      destruct (existsb _ _); [| reflexivity]. now rewrite Hc.
    + unfold delete_data, try_except, bind, gets, commit.
      cbn beta iota. destruct (select_owned _ _ _); [| reflexivity].
      now rewrite Hc.
  - intros data Hv.
    unfold create_data, try_except, bind, gets, commit.
    rewrite (valid_type_passes _ rows Hv), Hc. reflexivity.
  - intros data_id d Hd.
    unfold delete_data, try_except, bind, gets, commit. cbn beta iota.
    rewrite Hd, Hc. reflexivity.
Qed.

Lemma failed_commit_changes_nothing_witness :
  let env := {| db_now := "2025-01-01 00:00:00";
                commit_error := Some "database is locked" |} in
  (∀ op, apply_op env alice op alice_table = alice_table)
  ∧ (∀ data, existsb (String.eqb (in_data_type data)) valid_types = true ->
       create_data env data alice alice_table
       = (alice_table, Raise (DatabaseException "Failed to create data"
                                [("error", JStr "database is locked")])))
  ∧ (∀ data_id d, select_owned data_id (user_pk alice) alice_table = Some d ->
       delete_data env data_id alice alice_table
       = (alice_table, Raise (DatabaseException "Failed to delete data"
                                [("data_id", JInt data_id)]))).
Proof.
  intros env.
  apply (failed_commit_changes_nothing env "database is locked" alice alice_table).
  reflexivity.
Defined.

Lemma select_owned_some data_id uid rows d :
  select_owned data_id uid rows = Some d ->
  In d rows ∧ id d = data_id ∧ user_id d = uid.
Proof.
  unfold select_owned. intros H. apply find_some in H as [Hin Hb].
  apply andb_prop in Hb as [H1 H2]. apply Z.eqb_eq in H1, H2. auto.
Qed.

Lemma select_by_id_unique rows d :
  List.NoDup (map id rows) -> In d rows ->
  select_by_id (id d) rows = Some d.
Proof.
  intros Hnd Hin. unfold select_by_id.
  destruct (find (fun r => id r =? id d) rows) as [r |] eqn:E.
  - apply find_some in E as [Hr Hid]. apply Z.eqb_eq in Hid.
    f_equal. eapply NoDup_map_inj; eassumption.
  - exfalso. apply (find_none _ _ E) in Hin. now rewrite Z.eqb_refl in Hin.
Qed.

Lemma select_owned_unique rows d :
  List.NoDup (map id rows) -> In d rows ->
  select_owned (id d) (user_id d) rows = Some d.
Proof.
  intros Hnd Hin. unfold select_owned.
  destruct (find _ rows) as [r |] eqn:E.
  - apply find_some in E as [Hr Hb]. apply andb_prop in Hb as [Hid _].
    apply Z.eqb_eq in Hid. f_equal. eapply NoDup_map_inj; eassumption.
  - exfalso. apply (find_none _ _ E) in Hin. now rewrite !Z.eqb_refl in Hin.
Qed.

Lemma update_rows_in env data_id uid upd rows r :
  In r rows -> id r ≠ data_id -> In r (update_rows env data_id uid upd rows).
Proof.
  intros Hin Hne. unfold update_rows. apply in_map_iff. exists r.
  split; [| exact Hin].
  apply Z.eqb_neq in Hne. now rewrite Hne.
Qed.

(** X17: a successful update replaces the title, the content and the type
    of the caller's item and stamps it, keeps its id, owner and creation
    time, returns the updated item, and leaves every other row as it
    was. *)
Theorem update_replaces_content_only env data_id upd (u : User) rows old :
  reachable rows ->
  select_owned data_id (user_pk u) rows = Some old ->
  existsb (String.eqb (in_data_type upd)) valid_types = true ->
  commit_error env = None ->
  let new_data := {| id := id old; title := in_title upd;
                     content_ := in_content upd; data_type := in_data_type upd;
                     user_id := user_id old; created_at := created_at old;
                     updated_at := Some (db_now env) |} in
  let rows' := update_rows env data_id (user_pk u) upd rows in
  update_data env data_id upd u rows = (rows', Ok (Some new_data))
  ∧ In new_data rows'
  ∧ List.length rows' = List.length rows
  ∧ (∀ r, In r rows -> id r ≠ data_id -> In r rows').
Proof.
  intros Hr Hsel Hv Hc new_data rows'.
  apply reachable_pk_unique in Hr.
  destruct (select_owned_some _ _ _ _ Hsel) as (Hin & Hid & Hu).
  assert (Hnew : In new_data rows').
  { unfold rows', update_rows. apply in_map_iff. exists old.
    split; [| exact Hin]. now rewrite <- Hid, <- Hu, !Z.eqb_refl. }
  assert (Hnd' : List.NoDup (map id rows'))
    by (unfold rows'; now rewrite map_id_update_rows).
  split; [| split; [exact Hnew | split]].
  - unfold update_data, try_except, bind, gets, commit, modify, ret.
    cbn beta iota. rewrite Hsel, (valid_type_passes _ rows Hv), Hc.
    cbn beta iota. fold rows'.
    pose proof (select_by_id_unique rows' new_data Hnd' Hnew) as Hs.
    change (id new_data) with (id old) in Hs. rewrite Hid in Hs.
    now rewrite Hs.
  - unfold rows', update_rows. apply length_map.
  - intros r. apply update_rows_in.
Qed.

Lemma update_replaces_content_only_witness :
  let upd := {| in_title := "Updated Title"; in_content := "Updated";
                in_data_type := "idea" |} in
  let new_data := {| id := 1; title := "Updated Title"; content_ := "Updated";
                     data_type := "idea"; user_id := 1;
                     created_at := "2025-01-01 00:00:00";
                     updated_at := Some "2025-01-01 00:00:00" |} in
  let rows' := update_rows sample_db_env 1 1 upd alice_table in
  update_data sample_db_env 1 upd alice alice_table = (rows', Ok (Some new_data))
  ∧ In new_data rows'
  ∧ List.length rows' = List.length alice_table
  ∧ (∀ r, In r alice_table -> id r ≠ 1 -> In r rows').
Proof.
  intros upd new_data rows'.
  apply (update_replaces_content_only sample_db_env 1 upd alice alice_table
           {| id := 1; title := "Test Data"; content_ := "This is test content";
              data_type := "note"; user_id := 1;
              created_at := "2025-01-01 00:00:00"; updated_at := None |}).
  - apply reachable_apply, reachable_empty.
  - reflexivity.
  - reflexivity.
  - reflexivity.
Defined.

(** X18: after a successful delete the item is gone for good: reading it
    and deleting it again are both answered 404; the rows with another id
    all remain. *)
Theorem deleted_item_is_gone env data_id (u : User) rows d :
  select_owned data_id (user_pk u) rows = Some d ->
  commit_error env = None ->
  let rows' := List.filter (fun r => negb (id r =? data_id)) rows in
  let not_found := NotFoundException "Data not found" [("data_id", JInt data_id)] in
  delete_data env data_id u rows
  = (rows', Ok (JObj [("message", JStr "Data deleted successfully")]))
  ∧ get_data data_id u rows' = (rows', Raise not_found)
  ∧ delete_data env data_id u rows' = (rows', Raise not_found)
  ∧ (∀ r, In r rows -> id r ≠ data_id -> In r rows').
Proof.
  intros Hsel Hc rows' not_found.
  destruct (select_owned_some _ _ _ _ Hsel) as (Hin & Hid & Hu).
  assert (Hgone : select_owned data_id (user_pk u) rows' = None).
  { unfold select_owned.
    destruct (find _ rows') as [r |] eqn:E; [| reflexivity].
    apply find_some in E as [Hr Hb]. apply andb_prop in Hb as [Hb _].
    apply filter_In in Hr as [_ Hr]. now rewrite Hb in Hr. }
  split; [| split; [| split]].
  - unfold delete_data, try_except, bind, gets, commit, modify, ret.
    cbn beta iota. rewrite Hsel, Hc. cbn beta iota. now rewrite Hid.
  - unfold get_data, bind, gets, raise. cbn beta iota. now rewrite Hgone.
  - unfold delete_data, bind, gets, raise. cbn beta iota. now rewrite Hgone.
  - intros r Hr Hne. apply filter_In. split; [exact Hr |].
    apply negb_true_iff, Z.eqb_neq, Hne.
Qed.

Lemma deleted_item_is_gone_witness :
  let not_found := NotFoundException "Data not found" [("data_id", JInt 1)] in
  delete_data sample_db_env 1 alice alice_table
  = ([], Ok (JObj [("message", JStr "Data deleted successfully")]))
  ∧ get_data 1 alice [] = ([], Raise not_found)
  ∧ delete_data sample_db_env 1 alice [] = ([], Raise not_found)
  ∧ (∀ r, In r alice_table -> id r ≠ 1 ->
          In r (List.filter (fun r => negb (id r =? 1)) alice_table)).
Proof.
  intros not_found.
  apply (deleted_item_is_gone sample_db_env 1 alice alice_table
           {| id := 1; title := "Test Data"; content_ := "This is test content";
              data_type := "note"; user_id := 1;
              created_at := "2025-01-01 00:00:00"; updated_at := None |});
    reflexivity.
Defined.

(** The rows that do not belong to [uid]. *)
Lemma filter_foreign_update env data_id uid upd rows :
  List.filter (fun r => negb (user_id r =? uid))
    (update_rows env data_id uid upd rows)
  = List.filter (fun r => negb (user_id r =? uid)) rows.
Proof.
  unfold update_rows. induction rows as [| r rows IH]; [reflexivity |].
  cbn [map List.filter]. rewrite IH.
  destruct (id r =? data_id); cbn [andb]; [| reflexivity].
  destruct (user_id r =? uid) eqn:E; cbn; now rewrite E.
Qed.

Lemma filter_foreign_delete uid rows d :
  List.NoDup (map id rows) -> In d rows -> user_id d = uid ->
  List.filter (fun r => negb (user_id r =? uid))
    (List.filter (fun r => negb (id r =? id d)) rows)
  = List.filter (fun r => negb (user_id r =? uid)) rows.
Proof.
  intros Hnd Hin Hu.
  assert (H : ∀ r, In r rows -> id r = id d -> user_id r = uid).
  { intros r Hr Hid. assert (r = d) by (eapply NoDup_map_inj; eassumption).
    now subst r. }
  clear Hnd Hin. induction rows as [| r rows IH]; [reflexivity |].
  cbn [List.filter].
  destruct (id r =? id d) eqn:E; cbn [negb].
  - apply Z.eqb_eq in E. rewrite (H r (or_introl eq_refl) E), Z.eqb_refl.
    cbn [negb]. apply IH. intros r' Hr'. apply H. now right.
  - cbn [List.filter]. rewrite IH; [reflexivity |].
    intros r' Hr'. apply H. now right.
Qed.

(** X19: whatever a user does through the data router, with whatever
    outcome, the rows of the other users stay exactly as they were. *)
Theorem foreign_rows_are_untouched env (u : User) op rows :
  reachable rows ->
  List.filter (fun r => negb (user_id r =? user_pk u)) (apply_op env u op rows)
  = List.filter (fun r => negb (user_id r =? user_pk u)) rows.
Proof.
  intros Hr. apply reachable_pk_unique in Hr.
  destruct op as [data | data_id upd | data_id]; cbn [apply_op].
  - destruct (create_data_table env data u rows) as [-> | (n & Hid & E)];
      [reflexivity |].
    revert E. unfold create_data, try_except, bind, validate_data_type, gets,
      commit, modify, ret, raise, rollback.
    destruct (existsb _ _); [| intros _; reflexivity].
    destruct (commit_error env); [intros _; reflexivity |].
    cbn. intros _. rewrite List.filter_app. cbn. rewrite Z.eqb_refl. cbn.
    apply app_nil_r.
  - destruct (update_data_table env data_id upd u rows) as [-> | ->];
      [reflexivity | apply filter_foreign_update].
  - unfold delete_data, try_except, bind, gets, commit, modify, ret, raise,
      rollback. cbn beta iota.
    destruct (select_owned data_id (user_pk u) rows) as [d |] eqn:Hsel;
      [| reflexivity].
    destruct (commit_error env); [reflexivity |]. cbn.
    destruct (select_owned_some _ _ _ _ Hsel) as (Hin & _ & Hu).
    now apply filter_foreign_delete.
Qed.

Lemma foreign_rows_are_untouched_witness :
  List.filter (fun r => negb (user_id r =? user_pk bob))
    (apply_op sample_db_env bob (Delete 1) alice_table)
  = List.filter (fun r => negb (user_id r =? user_pk bob)) alice_table.
Proof.
  apply (foreign_rows_are_untouched sample_db_env bob (Delete 1) alice_table).
  apply reachable_apply, reachable_empty.
Defined.

(** X20: although a refused data type is answered with the wrong status,
    it is refused: every item of every table the router can produce has
    one of the four allowed types. *)
Theorem stored_types_are_allowed rows :
  reachable rows ->
  Forall (fun r => existsb (String.eqb (data_type r)) valid_types = true) rows.
Proof.
  induction 1 as [| env u op rows Hr IH]; [constructor |].
  destruct op as [data | data_id upd | data_id]; cbn [apply_op].
  - unfold create_data, try_except, bind, validate_data_type, gets, commit,
      modify, ret, raise, rollback.
    destruct (existsb (String.eqb (in_data_type data)) valid_types) eqn:Hv;
      [| exact IH].
    destruct (commit_error env); [exact IH |]. cbn [fst].
    apply Forall_app. split; [exact IH |]. constructor; [exact Hv | constructor].
  - unfold update_data, try_except, bind, validate_data_type, gets, commit,
      modify, ret, raise, rollback. cbn beta iota.
    destruct (select_owned _ _ _); [| exact IH].
    destruct (existsb (String.eqb (in_data_type upd)) valid_types) eqn:Hv;
      [| exact IH].
    destruct (commit_error env); [exact IH |]. cbn [fst].
    apply List.Forall_forall. intros r Hin. unfold update_rows in Hin.
    apply in_map_iff in Hin as (r0 & <- & Hin0).
    rewrite List.Forall_forall in IH. specialize (IH r0 Hin0).
    destruct (_ && _); [exact Hv | exact IH].
  - destruct (delete_data_table env data_id u rows) as [-> | (p & ->)];
      [exact IH |].
    apply List.Forall_forall. intros r Hin. rewrite List.Forall_forall in IH.
    apply IH. now apply filter_In in Hin as [Hin _].
Qed.

Lemma stored_types_are_allowed_witness :
  Forall (fun r => existsb (String.eqb (data_type r)) valid_types = true)
    (apply_op sample_db_env bob (Create sample_video) alice_table).
Proof.
  apply stored_types_are_allowed.
  do 2 apply reachable_apply. apply reachable_empty.
Defined.

(** X21: the list endpoint and the item endpoint agree: an item is in the
    list a user gets exactly when the user can read it under its id. *)
Theorem list_agrees_with_get (u : User) rows item :
  reachable rows ->
  In item (List.filter (fun r => user_id r =? user_pk u) rows)
  <-> get_data (id item) u rows = (rows, Ok item).
Proof.
  intros Hr. apply reachable_pk_unique in Hr.
  unfold get_data, bind, gets, raise, ret. cbn beta iota. split.
  - intros Hin. apply filter_In in Hin as [Hin Hu]. apply Z.eqb_eq in Hu.
    rewrite <- Hu. now rewrite (select_owned_unique rows item Hr Hin).
  - destruct (select_owned (id item) (user_pk u) rows) as [d |] eqn:Hsel;
      [| discriminate].
    intros [= ->]. apply select_owned_some in Hsel as (Hin & _ & Hu).
    apply filter_In. split; [exact Hin | now apply Z.eqb_eq].
Qed.

Lemma list_agrees_with_get_witness :
  let item := {| id := 1; title := "Test Data";
                 content_ := "This is test content"; data_type := "note";
                 user_id := 1; created_at := "2025-01-01 00:00:00";
                 updated_at := None |} in
  In item (List.filter (fun r => user_id r =? user_pk alice) alice_table)
  <-> get_data (id item) alice alice_table = (alice_table, Ok item).
Proof.
  intros item. apply (list_agrees_with_get alice alice_table item).
  apply reachable_apply, reachable_empty.
Defined.

(** ** More on access tokens *)

(** X22: once the time is past the expiry handed out with a token, the
    token no longer decodes, whatever data and lifetime it was made
    with. *)
Theorem expired_token_is_rejected settings sign clock data delta now exp :
  snd (create_access_token settings sign clock data delta) = exp * 1000 ->
  exp < now ->
  decode_access_token settings sign now
    (fst (create_access_token settings sign clock data delta)) = None.
Proof.
  unfold create_access_token. cbn [fst snd]. intros He Hnow.
  match type of He with
  | ?e * 1000 = _ => assert (Hexp : e = exp) by lia; rewrite Hexp in *
  end.
  unfold decode_access_token, jwt_decode, jwt_encode.
  cbn [jwt_alg jwt_claims jwt_signature existsb].
  rewrite !String.eqb_refl. cbn [orb negb].
  rewrite lookup_insert_eq, lookup_insert_ne by discriminate.
  rewrite lookup_insert_eq.
  destruct (Z.ltb_spec exp now) as [_ | Hge]; [reflexivity | lia].
Qed.

Lemma expired_token_is_rejected_witness :
  decode_access_token default_settings (fun key _ _ => key) 1700001801
    (fst (create_access_token default_settings (fun key _ _ => key)
            sample_clock {[ "sub" := CStr "a@example.com" ]} None)) = None.
Proof.
  apply (expired_token_is_rejected default_settings (fun key _ _ => key)
           sample_clock {[ "sub" := CStr "a@example.com" ]} None 1700001801
           1700001800).
  - reflexivity.
  - reflexivity.
Defined.


(** ** Registration and login *)

Lemma next_user_id_above (users : Users) u :
  In u users -> user_pk u < next_user_id users.
Proof.
  unfold next_user_id. induction users as [| u' users IH]; cbn; [tauto |].
  intros [-> | Hin]; [lia |]. specialize (IH Hin). lia.
Qed.



(** X24: registering with an email that a user of the table already has is
    refused with 400 and leaves the table as it was. *)
Theorem duplicate_email_is_refused bcrypt_hash env new users u0 now :
  In u0 users -> email u0 = uc_email new ->
  register bcrypt_hash env new users
  = (users, Raise (ValidationException "Email already registered"
                     [("email", JStr (uc_email new))]))
  ∧ answer_status now (snd (register bcrypt_hash env new users)) = 400.
Proof.
  intros Hin Hmail.
  assert (E : register bcrypt_hash env new users
              = (users, Raise (ValidationException "Email already registered"
                                 [("email", JStr (uc_email new))]))).
  { unfold register, get_user_by_email, bind, gets, raise. cbn beta iota.
    destruct (List.find _ users) eqn:Hf; [reflexivity |].
    apply (find_none _ _ Hf) in Hin. cbn in Hin.
    rewrite Hmail, String.eqb_refl in Hin. discriminate. }
  split; [exact E | now rewrite E].
Qed.

Lemma duplicate_email_is_refused_witness :
  register toy_hash sample_user_env
    {| uc_email := "a@example.com"; uc_username := "alice2";
       uc_full_name := None; uc_password := "pw" |} [alice; bob]
  = ([alice; bob],
     Raise (ValidationException "Email already registered"
              [("email", JStr "a@example.com")]))
  ∧ answer_status "2025-01-01T00:00:00"
      (snd (register toy_hash sample_user_env
              {| uc_email := "a@example.com"; uc_username := "alice2";
                 uc_full_name := None; uc_password := "pw" |} [alice; bob]))
    = 400.
Proof.
  apply (duplicate_email_is_refused toy_hash sample_user_env
           {| uc_email := "a@example.com"; uc_username := "alice2";
              uc_full_name := None; uc_password := "pw" |} [alice; bob] alice
           "2025-01-01T00:00:00").
  - now left.
  - reflexivity.
Defined.




(** X26: a successful registration stores the hash of the password, not
    the password, under a fresh primary key; a login with the same email
    and password then succeeds (provided the hasher verifies what it
    hashed) and hands out the token made for that email, with the user's
    own data. *)
Theorem registered_user_can_log_in bcrypt_hash bcrypt_verify settings sign
  env clock new users :
  List.find (fun u => String.eqb (email u) (uc_email new)) users = None ->
  user_commit env = Committed ->
  bcrypt_verify (uc_password new) (bcrypt_hash (salt env) (uc_password new))
  = true ->
  let u := {| user_pk := next_user_id users; username := uc_username new;
              email := uc_email new; full_name := uc_full_name new;
              hashed_password := bcrypt_hash (salt env) (uc_password new) |} in
  let users' := (users ++ [u])%list in
  register bcrypt_hash env new users = (users', Ok u)
  ∧ ¬ In (user_pk u) (map user_pk users)
  ∧ login bcrypt_verify settings sign clock
      {| lr_email := uc_email new; lr_password := uc_password new |} users'
    = (users',
       Ok {| access_token :=
               fst (create_access_token settings sign clock
                      {[ "sub" := CStr (uc_email new) ]} None);
             token_type := "bearer";
             expires_at :=
               snd (create_access_token settings sign clock
                      {[ "sub" := CStr (uc_email new) ]} None);
             user := {| ui_id := next_user_id users;
                        ui_username := uc_username new;
                        ui_email := uc_email new;
                        ui_full_name := uc_full_name new |} |}).
Proof.
  intros Hf Hc Hv u users'. split; [| split].
  - unfold register, register_user, create_user, get_user_by_email,
      hash_password, bind, gets, modify, ret. cbn beta iota.
    rewrite Hf. cbn beta iota. now rewrite Hc.
  - intros Hin. apply in_map_iff in Hin as (u0 & Hu0 & Hin).
    apply next_user_id_above in Hin. cbn in Hu0. lia.
  - unfold login, authenticate_user, get_user_by_email, verify_password, bind,
      gets, ret. cbn beta iota. subst users' u.
    rewrite find_app_skip.
    + cbn [List.find email]. rewrite String.eqb_refl. cbn beta iota.
      cbn [hashed_password lr_password lr_email]. rewrite Hv. reflexivity.
    + intros x Hx. now apply (find_none _ _ Hf).
Qed.

Lemma registered_user_can_log_in_witness :
  let u := {| user_pk := 3; username := "carol"; email := "c@example.com";
              full_name := None;
              hashed_password := "salt$Password123!" |} in
  register toy_hash sample_user_env carol_request [alice; bob]
  = ([alice; bob; u], Ok u)
  ∧ ¬ In 3 (map user_pk [alice; bob])
  ∧ login toy_verify default_settings (fun key _ _ => key) sample_clock
      {| lr_email := "c@example.com"; lr_password := "Password123!" |}
      [alice; bob; u]
    = ([alice; bob; u],
       Ok {| access_token :=
               fst (create_access_token default_settings (fun key _ _ => key)
                      sample_clock {[ "sub" := CStr "c@example.com" ]} None);
             token_type := "bearer";
             expires_at :=
               snd (create_access_token default_settings (fun key _ _ => key)
                      sample_clock {[ "sub" := CStr "c@example.com" ]} None);
             user := {| ui_id := 3; ui_username := "carol";
                        ui_email := "c@example.com"; ui_full_name := None |} |}).
Proof.
  intros u.
  apply (registered_user_can_log_in toy_hash toy_verify default_settings
           (fun key _ _ => key) sample_user_env sample_clock carol_request
           [alice; bob]); reflexivity.
Defined.

(** X27: login never writes to the table, and it fails in one way only: an
    unknown email and a wrong password get the same 401 with the same
    message, so that the answer does not tell which emails are
    registered. *)
Theorem login_failures_look_alike bcrypt_verify settings sign clock request
  users now :
  (∀ u, In u users -> email u = lr_email request ->
        bcrypt_verify (lr_password request) (hashed_password u) = false) ->
  login bcrypt_verify settings sign clock request users
  = (users, Raise (AuthenticationException "Invalid email or password"
                     [("email", JStr (lr_email request))]))
  ∧ answer_status now (snd (login bcrypt_verify settings sign clock request users))
    = 401.
Proof.
  intros Hbad.
  assert (E : login bcrypt_verify settings sign clock request users
              = (users, Raise (AuthenticationException "Invalid email or password"
                                 [("email", JStr (lr_email request))]))).
  { unfold login, authenticate_user, get_user_by_email, verify_password, bind,
      gets, ret, raise. cbn beta iota.
    destruct (List.find _ users) as [u |] eqn:Hf; [| reflexivity].
    apply find_some in Hf as [Hin Hm]. apply String.eqb_eq in Hm.
    now rewrite (Hbad u Hin Hm). }
  split; [exact E | now rewrite E].
Qed.

Lemma login_failures_look_alike_witness :
  login toy_verify default_settings (fun key _ _ => key) sample_clock
    {| lr_email := "nobody@example.com"; lr_password := "x" |} [alice; bob]
  = ([alice; bob],
     Raise (AuthenticationException "Invalid email or password"
              [("email", JStr "nobody@example.com")]))
  ∧ answer_status "2025-01-01T00:00:00"
      (snd (login toy_verify default_settings (fun key _ _ => key) sample_clock
              {| lr_email := "nobody@example.com"; lr_password := "x" |}
              [alice; bob])) = 401.
Proof.
  apply (login_failures_look_alike toy_verify default_settings
           (fun key _ _ => key) sample_clock
           {| lr_email := "nobody@example.com"; lr_password := "x" |}
           [alice; bob] "2025-01-01T00:00:00").
  intros u [<- | [<- | []]]; discriminate.
Defined.

End DataPilotMore.
